(** * Instagram single-post comments crawler: a shallow embedding of
    [ig_crawler.py] and the properties of its pagination engine, request
    executor, template renderer and resume store.

    Conventions of the embedding.
    - Python values of JSON shape are the type [json]; [None] is [JNull].
      Numbers are integers (floats are not modelled); a [dict] is an
      association list in insertion order.
    - A raised exception is a value [Exc e] of [res]; stateful code threads
      a [world] (pending HTTP events, effect trace, files) and keeps the
      state reached when an exception is raised.
    - The crawl sees its files as the documents they hold. The checkpoint
      is also followed down to the bytes of its file, with [json.dumps], the
      UTF-8 codec and [json.loads] as functions of the model ([dump],
      [utf8_valid], [loads]), and the two views are proved to agree on what
      can be stored.
    - Functions of the Python runtime and of its libraries that the crawler
      only calls ([repr] of containers, [datetime], [json.dumps] of a request
      body, the regex scan of an HTML page) are the fields of [PyLib]. *)

From Stdlib Require Import Ascii.
From stdpp Require Import base option list gmap strings pretty.

Set Warnings "-register-all".
Local Open Scope string_scope.
Local Open Scope Z_scope.

(** ** Python values *)

Inductive json :=
| JNull
| JBool (b : bool)
| JInt (n : Z)
| JStr (s : string)
| JList (l : list json)
| JDict (d : list (string * json)).

Inductive exn :=
| AttributeError
| TypeError
| KeyError
| ValueError (msg : string)
| OverflowError
| KeyboardInterrupt
| StopIteration
| UnicodeEncodeError.

(** The outcome of a call: a value, a raised exception, or [OutOfFuel]
    when a loop of the model was cut before the code's loop ended. *)
Inductive res (A : Type) :=
| Ok (a : A)
| Exc (e : exn)
| OutOfFuel.
Arguments Ok {A} a.
Arguments Exc {A} e.
Arguments OutOfFuel {A}.

Definition res_bind {A B} (x : res A) (f : A -> res B) : res B :=
  match x with
  | Ok a => f a
  | Exc e => Exc e
  | OutOfFuel => OutOfFuel
  end.

Declare Scope res_scope.
Delimit Scope res_scope with res.
Notation "x <-? c ; k" := (res_bind c (fun x => k))
  (at level 100, c at next level, right associativity) : res_scope.

Class PyLib := {
  (** [repr] of a list or of a dict, used by [str()] on such a value *)
  py_repr : json -> string;
  (** [datetime.utcfromtimestamp(n).isoformat()], which raises outside the
      platform's range *)
  utc_isoformat : Z -> res string;
  (** [json.dumps(v, separators=(",", ":"), ensure_ascii=False)] *)
  json_dumps : json -> string;
  (** the three-pattern [re.search] of [resolve_media_id_from_html] on the
      text of a page *)
  html_media_id : string -> string -> option string;
}.

(** Truth value of a Python object of JSON shape. *)
Definition truthy (v : json) : bool :=
  match v with
  | JNull => false
  | JBool b => b
  | JInt n => negb (n =? 0)
  | JStr s => negb (String.eqb s "")
  | JList l => match l with [] => false | _ => true end
  | JDict d => match d with [] => false | _ => true end
  end.

(** [a or b] *)
Definition py_or (a b : json) : json := if truthy a then a else b.

Definition is_dict (v : json) : bool :=
  match v with JDict _ => true | _ => false end.

Definition is_str (v : json) : bool :=
  match v with JStr _ => true | _ => false end.

Fixpoint dict_lookup (k : string) (d : list (string * json)) : option json :=
  match d with
  | [] => None
  | (k', v) :: d' => if String.eqb k k' then Some v else dict_lookup k d'
  end.

(** [d[k] = v]: replace in place, or append as the newest key. *)
Fixpoint dict_set (k : string) (v : json) (d : list (string * json))
  : list (string * json) :=
  match d with
  | [] => [(k, v)]
  | (k', v') :: d' =>
      if String.eqb k k' then (k, v) :: d' else (k', v') :: dict_set k v d'
  end.

(** [d.get(k, dflt)] on a dict. *)
Definition dict_get_or (d : list (string * json)) (k : string) (dflt : json)
  : json :=
  match dict_lookup k d with
  | Some v => v
  | None => dflt
  end.

Definition dict_get (d : list (string * json)) (k : string) : json :=
  dict_get_or d k JNull.

(** [v.get(k, dflt)]: only a dict has the method. *)
Definition py_get_or (v : json) (k : string) (dflt : json) : res json :=
  match v with
  | JDict d => Ok (dict_get_or d k dflt)
  | _ => Exc AttributeError
  end.

Definition py_get (v : json) (k : string) : res json := py_get_or v k JNull.

(** [len(v)] *)
Definition py_len (v : json) : res nat :=
  match v with
  | JStr s => Ok (String.length s)
  | JList l => Ok (length l)
  | JDict d => Ok (length d)
  | _ => Exc TypeError
  end.

(** The items a [for] loop over [v] visits: the elements of a list, the keys
    of a dict, the characters of a string. *)
Definition py_iter (v : json) : res (list json) :=
  match v with
  | JList l => Ok l
  | JDict d => Ok (map (fun kv => JStr (fst kv)) d)
  | JStr s =>
      Ok (map (fun c => JStr (String c EmptyString)) (String.list_ascii_of_string s))
  | _ => Exc TypeError
  end.

(** [a == b] on values of JSON shape: [True == 1], and two dicts are equal
    when they bind the same keys to equal values, in any order. *)
Fixpoint py_eq (a b : json) : bool :=
  match a, b with
  | JNull, JNull => true
  | JBool x, JBool y => Bool.eqb x y
  | JBool x, JInt n => Z.b2z x =? n
  | JInt n, JBool x => n =? Z.b2z x
  | JInt m, JInt n => m =? n
  | JStr s, JStr t => String.eqb s t
  | JList l, JList l' =>
      (fix all2 (l : list json) (l' : list json) : bool :=
         match l, l' with
         | [], [] => true
         | x :: l, y :: l' => py_eq x y && all2 l l'
         | _, _ => false
         end) l l'
  | JDict d, JDict d' =>
      Nat.eqb (length d) (length d') &&
      (fix alld (d : list (string * json)) : bool :=
         match d with
         | [] => true
         | (k, v) :: d =>
             match dict_lookup k d' with
             | Some v' => py_eq v v'
             | None => false
             end && alld d
         end) d
  | _, _ => false
  end.

Section Runtime.
Context `{PyLib}.

(** [str(v)] *)
Definition py_str (v : json) : string :=
  match v with
  | JNull => "None"
  | JBool true => "True"
  | JBool false => "False"
  | JInt n => pretty n
  | JStr s => s
  | JList _ | JDict _ => py_repr v
  end.
End Runtime.

(** ** Strings *)

(** [s] with the prefix [p] removed, when [s] starts with [p]. *)
Fixpoint strip_prefix (p s : string) : option string :=
  match p with
  | EmptyString => Some s
  | String a p' =>
      match s with
      | EmptyString => None
      | String b s' => if Ascii.eqb a b then strip_prefix p' s' else None
      end
  end.

Definition startswith (s p : string) : bool :=
  match strip_prefix p s with Some _ => true | None => false end.

(** [p in s] *)
Fixpoint contains (p s : string) : bool :=
  startswith s p ||
  match s with
  | EmptyString => false
  | String _ s' => contains p s'
  end.

(** [s.endswith(p)] *)
Definition endswith (s p : string) : bool :=
  let n := String.length s in
  let m := String.length p in
  (m <=? n)%nat && String.eqb (String.substring (n - m)%nat m s) p.

Fixpoint replace_go (old new s : string) (skip : nat) : string :=
  match s with
  | EmptyString => EmptyString
  | String c s' =>
      match skip with
      | S k => replace_go old new s' k
      | O =>
          if startswith s old
          then new +:+ replace_go old new s' (String.length old - 1)%nat
          else String c (replace_go old new s' 0)
      end
  end.

Fixpoint interleave (new s : string) : string :=
  match s with
  | EmptyString => new
  | String c s' => new +:+ String c (interleave new s')
  end.

(** [s.replace(old, new)]: every occurrence, left to right, not
    overlapping. *)
Definition str_replace (s old new : string) : string :=
  match old with
  | EmptyString => interleave new s
  | _ => replace_go old new s 0
  end.

Definition ascii_between (lo hi c : ascii) : bool :=
  let n := nat_of_ascii c in
  (nat_of_ascii lo <=? n)%nat && (n <=? nat_of_ascii hi)%nat.

(** The class [[a-zA-Z0-9_]]. *)
Definition is_name_char (c : ascii) : bool :=
  ascii_between "a" "z" c || ascii_between "A" "Z" c ||
  ascii_between "0" "9" c || Ascii.eqb c "_".

(** [[a-zA-Z0-9_]+\}] anchored at the head of [s]; [seen] tells whether a
    name character was already consumed. *)
Fixpoint name_then_close (s : string) (seen : bool) : bool :=
  match s with
  | EmptyString => false
  | String c s' =>
      if is_name_char c then name_then_close s' true
      else Ascii.eqb c "}" && seen
  end.

(** [re.search(r"\{[a-zA-Z0-9_]+\}", s)] finds a match. *)
Fixpoint has_placeholder (s : string) : bool :=
  match s with
  | EmptyString => false
  | String c s' =>
      (Ascii.eqb c "{" && name_then_close s' false) || has_placeholder s'
  end.

Definition ascii_upper (c : ascii) : ascii :=
  if ascii_between "a" "z" c then ascii_of_nat (nat_of_ascii c - 32)%nat else c.

Fixpoint str_upper (s : string) : string :=
  match s with
  | EmptyString => EmptyString
  | String c s' => String (ascii_upper c) (str_upper s')
  end.

(** ** Module-level functions *)

(** The longest prefix of [s] without [/], [?] or [#], and nothing when it
    is empty: the group [([^/?#]+)]. *)
Fixpoint take_code (s : string) : string :=
  match s with
  | EmptyString => EmptyString
  | String c s' =>
      if Ascii.eqb c "/" || Ascii.eqb c "?" || Ascii.eqb c "#"
      then EmptyString
      else String c (take_code s')
  end.

(** The pattern [instagram\.com/(p|reel|tv)/([^/?#]+)/?] anchored at the
    head of [s]. *)
Definition match_post_url_here (s : string) : option string :=
  match strip_prefix "instagram.com/" s with
  | None => None
  | Some rest =>
      let after_kind :=
        match strip_prefix "p/" rest with
        | Some r => Some r
        | None =>
            match strip_prefix "reel/" rest with
            | Some r => Some r
            | None => strip_prefix "tv/" rest
            end
        end in
      match after_kind with
      | None => None
      | Some r =>
          match take_code r with
          | EmptyString => None
          | code => Some code
          end
      end
  end.

Fixpoint extract_shortcode (post_url : string) : option string :=
  match match_post_url_here post_url with
  | Some code => Some code
  | None =>
      match post_url with
      | EmptyString => None
      | String _ rest => extract_shortcode rest
      end
  end.

Definition alphabet : string :=
  "ABCDEFGHIJKLMNOPQRSTUVWXYZabcdefghijklmnopqrstuvwxyz0123456789-_".

(** [alphabet.index(c)], absent where Python raises [ValueError]. *)
Fixpoint index_of (c : ascii) (s : string) : option Z :=
  match s with
  | EmptyString => None
  | String a s' =>
      if Ascii.eqb a c then Some 0 else (fun i => i + 1) <$> index_of c s'
  end.

Fixpoint decode_from (media_id : Z) (shortcode : string) : option Z :=
  match shortcode with
  | EmptyString => Some media_id
  | String c rest =>
      match index_of c alphabet with
      | None => None
      | Some i => decode_from (media_id * 64 + i) rest
      end
  end.

Definition shortcode_to_media_id (shortcode : string) : option string :=
  pretty <$> decode_from 0 shortcode.

Inductive path_key :=
| PKey (k : string)
| PIdx (i : Z).

Fixpoint deep_get (data : json) (path : list path_key) : json :=
  match path with
  | [] => data
  | key :: path' =>
      match data, key with
      | JDict d, PKey k =>
          match dict_lookup k d with
          | Some v => deep_get v path'
          | None => JNull
          end
      | JList l, PIdx i =>
          if (0 <=? i) && (i <? Z.of_nat (length l))
          then deep_get (nth (Z.to_nat i) l JNull) path'
          else JNull
      | _, _ => JNull
      end
  end.

Section Template.
Context `{PyLib}.

(** The loop over [variables.items()] on a string template: the string
    after the substitutions, or nothing where the code returns [None]. *)
Fixpoint substitute (value : string) (variables : list (string * json))
  : option string :=
  match variables with
  | [] => Some value
  | (key, replacement) :: rest =>
      let placeholder := "{" +:+ key +:+ "}" in
      if contains placeholder value then
        match replacement with
        | JNull => None
        | _ => substitute (str_replace value placeholder (py_str replacement)) rest
        end
      else substitute value rest
  end.

Definition render_string (value : string) (variables : list (string * json))
  : json :=
  match substitute value variables with
  | None => JNull
  | Some value' => if has_placeholder value' then JNull else JStr value'
  end.

Fixpoint render_template (value : json) (variables : list (string * json))
  : json :=
  match value with
  | JStr s => render_string s variables
  | JDict d =>
      JDict
        ((fix items (d : list (string * json)) (rendered : list (string * json)) :=
            match d with
            | [] => rendered
            | (k, v) :: d' =>
                match render_template v variables with
                | JNull => items d' rendered
                | rv => items d' (dict_set k rv rendered)
                end
            end) d [])
  | JList l =>
      JList
        ((fix elems (l : list json) :=
            match l with
            | [] => []
            | item :: l' =>
                match render_template item variables with
                | JNull => elems l'
                | rv => rv :: elems l'
                end
            end) l)
  | _ => value
  end.

End Template.

Fixpoint pick_first_path (data : json) (paths : list (list path_key)) : json :=
  match paths with
  | [] => JNull
  | path :: rest =>
      match deep_get data path with
      | JNull => pick_first_path data rest
      | value => value
      end
  end.

Fixpoint first_suffix_match (items : list (string * json)) (suffixes : list string)
  : json :=
  match items with
  | [] => JNull
  | (key, value) :: rest =>
      if is_dict value && existsb (endswith key) suffixes
      then value
      else first_suffix_match rest suffixes
  end.

Definition find_connection_in_data (payload : json) (suffixes : list string)
  : res json :=
  (data <-? py_get payload "data";
   match data with
   | JDict items => Ok (first_suffix_match items suffixes)
   | _ => Ok JNull
   end)%res.

Section Parsing.
Context `{PyLib}.

Definition parse_timestamp (value : json) : res json :=
  match value with
  | JNull => Ok JNull
  | JInt n => (s <-? utc_isoformat n; Ok (JStr (s +:+ "Z")))%res
  | JBool b => (s <-? utc_isoformat (Z.b2z b); Ok (JStr (s +:+ "Z")))%res
  | JStr s => Ok value
  | _ => Ok JNull
  end.

(** [entry.get("url") or entry.get("mp4")] of a dict entry. *)
Definition entry_url (entry : json) : json :=
  match entry with
  | JDict e => py_or (dict_get e "url") (dict_get e "mp4")
  | _ => JNull
  end.

Fixpoint first_truthy (candidates : list json) : json :=
  match candidates with
  | [] => JNull
  | v :: rest => if truthy v then v else first_truthy rest
  end.

Definition gif_keys : list string :=
  ["original"; "fixed_width"; "fixed_height"; "downsized"; "preview_gif"].

Definition pick_url (images : json) : json :=
  match images with
  | JDict im =>
      first_truthy
        (map (fun key => entry_url (dict_get im key)) gif_keys
         ++ map (fun kv => entry_url (snd kv)) im)
  | _ => JNull
  end.

Definition extract_gif_url (node : list (string * json)) : json :=
  match dict_get node "giphy_media_info" with
  | JDict info =>
      if is_str (dict_get info "url") then dict_get info "url"
      else
        let url := pick_url (dict_get info "first_party_cdn_proxied_images") in
        if truthy url then url
        else
          let url := pick_url (dict_get info "images") in
          if truthy url then url else JNull
  | _ => JNull
  end.

Definition parse_user (node : list (string * json)) : res json :=
  let user := py_or (py_or (dict_get node "owner") (dict_get node "user")) (JDict []) in
  match user with
  | JDict u =>
      Ok (JDict [("id", py_or (dict_get u "id") (dict_get u "pk"));
                 ("username", dict_get u "username");
                 ("full_name", dict_get u "full_name");
                 ("is_verified", dict_get u "is_verified")])
  | _ => Exc AttributeError
  end.

Definition parse_comment_node (node : json) (post_owner_id : json) : res json :=
  match node with
  | JDict n =>
      (let comment_id := py_or (dict_get n "id") (dict_get n "pk") in
       created_at <-?
         parse_timestamp
           (py_or (py_or (dict_get n "created_at") (dict_get n "created_at_utc"))
                  (dict_get n "created_at_time"));
       let like_count :=
         match dict_get n "like_count" with
         | JNull =>
             match dict_get n "comment_like_count" with
             | JNull => deep_get node [PKey "edge_liked_by"; PKey "count"]
             | v => v
             end
         | v => v
         end in
       user <-? parse_user n;
       user_id <-? py_get user "id";
       let is_author :=
         truthy post_owner_id && truthy user_id &&
         String.eqb (py_str user_id) (py_str post_owner_id) in
       let reply_count :=
         match dict_get n "edge_threaded_comments" with
         | JDict conn => dict_get conn "count"
         | _ => JNull
         end in
       let reply_count :=
         match reply_count with
         | JNull => dict_get n "child_comment_count"
         | v => v
         end in
       Ok (JDict [("id", match comment_id with
                         | JNull => JNull
                         | v => JStr (py_str v)
                         end);
                  ("text", py_or (dict_get n "text") (dict_get n "comment_text"));
                  ("created_at", created_at);
                  ("like_count", like_count);
                  ("gif_url", extract_gif_url n);
                  ("user", user);
                  ("is_author", JBool is_author);
                  ("reply_count", py_or reply_count (JInt 0));
                  ("replies", JList [])]))%res
  | _ => Exc AttributeError
  end.

Definition extract_replies_from_node (node : list (string * json))
  : json * json :=
  match dict_get node "edge_threaded_comments" with
  | JDict connection =>
      (dict_get_or connection "edges" (JList []),
       dict_get_or connection "page_info" (JDict []))
  | _ => (JList [], JDict [])
  end.

(** The three values a connection yields. *)
Definition connection_parts (connection : list (string * json))
  : json * json * json :=
  (dict_get_or connection "edges" (JList []),
   dict_get_or connection "page_info" (JDict []),
   dict_get connection "count").

(** The first candidate path that leads to a non-empty dict. *)
Fixpoint first_connection (payload : json) (candidates : list (list path_key))
  : option (list (string * json)) :=
  match candidates with
  | [] => None
  | path :: rest =>
      match deep_get payload path with
      | JDict (kv :: conn) => Some (kv :: conn)
      | _ => first_connection payload rest
      end
  end.

(** [find_connection_in_data] followed by the test
    [connection and isinstance(connection, dict)]. *)
Definition scanned_connection (payload : json) (suffixes : list string)
  : res (option (list (string * json))) :=
  (connection <-? find_connection_in_data payload suffixes;
   match connection with
   | JDict (kv :: conn) => Ok (Some (kv :: conn))
   | _ => Ok None
   end)%res.

Definition comment_candidates : list (list path_key) :=
  [[PKey "data"; PKey "xdt_api__v1__media__media_id__comments__connection"];
   [PKey "data"; PKey "xdt_shortcode_media"; PKey "edge_media_to_parent_comment"];
   [PKey "data"; PKey "shortcode_media"; PKey "edge_media_to_parent_comment"];
   [PKey "data"; PKey "xdt_shortcode_media"; PKey "edge_media_to_comment"];
   [PKey "data"; PKey "shortcode_media"; PKey "edge_media_to_comment"]].

Definition extract_comment_connection (payload : json)
  : res (json * json * json) :=
  match first_connection payload comment_candidates with
  | Some connection => Ok (connection_parts connection)
  | None =>
      (found <-? scanned_connection payload ["__comments__connection"];
       match found with
       | Some connection => Ok (connection_parts connection)
       | None => Ok (JList [], JDict [], JNull)
       end)%res
  end.

Definition reply_candidates : list (list path_key) :=
  [[PKey "data"; PKey "comment"; PKey "edge_threaded_comments"];
   [PKey "data"; PKey "comment"; PKey "edge_media_to_parent_comment"];
   [PKey "data"; PKey "comment"; PKey "edge_media_to_comment"]].

Definition extract_reply_connection (payload : json)
  : res (json * json * json) :=
  match first_connection payload reply_candidates with
  | Some connection => Ok (connection_parts connection)
  | None =>
      (found <-? scanned_connection payload
                  ["__replies__connection"; "__comments__replies__connection"];
       match found with
       | Some connection => Ok (connection_parts connection)
       | None =>
           found <-? scanned_connection payload ["__child_comments__connection"];
           match found with
           | Some connection => Ok (connection_parts connection)
           | None => extract_comment_connection payload
           end
       end)%res
  end.
End Parsing.

(** ** The crawler's configuration *)

(** An endpoint descriptor of the configuration; an absent key is [None]. *)
Record endpoint := {
  ep_type : option string;
  ep_method : option string;
  ep_url : option string;
  ep_doc_id : option string;
  ep_query_hash : option string;
  ep_params : option (list (string * json));
  ep_variables : option (list (string * json));
}.

Definition present {A} (o : option A) : bool :=
  match o with Some _ => true | None => false end.

(** Truth value of the descriptor as a dict: false for [{}]. *)
Definition ep_nonempty (e : endpoint) : bool :=
  present (ep_type e) || present (ep_method e) || present (ep_url e) ||
  present (ep_doc_id e) || present (ep_query_hash e) ||
  present (ep_params e) || present (ep_variables e).

(** [not endpoint or str(endpoint.get("doc_id", "")).startswith("YOUR_")] *)
Definition unconfigured (e : option endpoint) : bool :=
  match e with
  | None => true
  | Some e => negb (ep_nonempty e) || startswith (default "" (ep_doc_id e)) "YOUR_"
  end.

Record crawler := {
  post_by_shortcode : option endpoint;
  comments : option endpoint;
  comment_replies : option endpoint;
  requests_per_minute : Z;
  retry_attempts : Z;
  retry_delay : Z;
  max_comments : option Z;
  fetch_replies : bool;
  resume_by_default : bool;
  comments_first : Z;
  replies_first : Z;
  save_raw_mode : json;
  page_retry_attempts : Z;
  page_retry_delay : Z;
  data_dir : string;
}.

(** ** The world the crawler runs in *)

(** What one call of [session.request] or [session.get] meets: a transport
    failure, an interrupt signal, or a response with its status, its text
    and the value of [response.json()] when the text parses. *)
Inductive event :=
| EvExn
| EvInterrupt
| EvResp (status : Z) (text : string) (parsed : option json).

Inductive effect :=
| ERateLimit
| ESleep (seconds : Z)
| ERequest (method url : string) (params data : list (string * json))
| EGet (url : string)
| ESaveRaw (label : string) (status : Z) (data : json)
| EWrite (path : string) (content : json)
| EUnlink (path : string).

(** A file on disk, read through [json.loads]: a JSON document, or text
    that does not parse. *)
Inductive file :=
| Doc (content : json)
| Corrupt (text : string).

Record world := {
  pending : list event;
  trace : list effect;
  files : gmap string file;
  clock : nat;
}.

Definition log (e : effect) (w : world) : world :=
  {| pending := pending w; trace := trace w ++ [e];
     files := files w; clock := clock w |}.

(** The next event; once the script is used up every call fails in
    transport. *)
Definition next_event (w : world) : event * world :=
  match pending w with
  | [] => (EvExn, w)
  | ev :: rest =>
      (ev, {| pending := rest; trace := trace w;
              files := files w; clock := clock w |})
  end.

(** [path.write_text(json.dumps(content, ensure_ascii=False, indent=2),
    encoding="utf-8")] in the store of documents: the file is kept as the
    document that its text decodes to. This is what the call does for a
    [content] that can be stored (the keys of its mappings distinct, no lone
    surrogate in its strings): [save_agrees] proves it against the files
    themselves. For a [content] that cannot be encoded the call raises and
    leaves the file empty, which the store of documents does not show; the
    checkpoint is followed there in [write_text] and
    [save_resume_state_disk]. *)
Definition write_file (path : string) (content : json) (w : world) : world :=
  {| pending := pending w; trace := trace w ++ [EWrite path content];
     files := <[path := Doc content]> (files w); clock := clock w |}.

Definition unlink (path : string) (w : world) : world :=
  {| pending := pending w; trace := trace w ++ [EUnlink path];
     files := delete path (files w); clock := clock w |}.

(** Reading the clock: the value is a function of how many readings were
    taken before. *)
Definition tick (w : world) : nat * world :=
  (clock w, {| pending := pending w; trace := trace w;
               files := files w; clock := S (clock w) |}).

Class Clock := {
  (** [datetime.utcnow().isoformat()] at a reading *)
  iso_now : nat -> string;
  (** [datetime.utcnow().strftime("%Y%m%d_%H%M%S")] at a reading *)
  stamp_now : nat -> string;
}.

Definition str_lower_char (c : ascii) : ascii :=
  if ascii_between "A" "Z" c then ascii_of_nat (nat_of_ascii c + 32)%nat else c.

Fixpoint str_lower (s : string) : string :=
  match s with
  | EmptyString => EmptyString
  | String c s' => String (str_lower_char c) (str_lower s')
  end.

Definition dict_update (d extra : list (string * json)) : list (string * json) :=
  fold_left (fun acc kv => dict_set (fst kv) (snd kv) acc) extra d.

Definition retriable (status : Z) : bool :=
  (status =? 429) || (status =? 500) || (status =? 502) ||
  (status =? 503) || (status =? 504).

Section Executor.
Context `{PyLib} (self : crawler).

Definition rate_limit_check (w : world) : world :=
  if requests_per_minute self <=? 0 then w else log ERateLimit w.

(** Whether [save_raw_response] writes the response. *)
Definition raw_saved (status : Z) : bool :=
  let mode := str_lower (py_str (py_or (save_raw_mode self) (JStr "errors"))) in
  if existsb (String.eqb mode) ["none"; "off"; "false"; "0"] then false
  else if existsb (String.eqb mode) ["errors"; "error"] && (status =? 200)
       then false
       else true.

Definition save_raw_response (label : string) (status : Z) (data : json)
  (w : world) : world :=
  if raw_saved status then log (ESaveRaw label status data) w else w.

(** The body of the [for attempt in range(1, retry_attempts + 1)] loop,
    over the attempt numbers still to come. *)
Fixpoint retry_loop (method url : string) (params data : list (string * json))
  (attempts : list Z) (w : world) : res json * world :=
  match attempts with
  | [] => (Ok JNull, w)
  | attempt :: rest =>
      let w := rate_limit_check w in
      let '(ev, w) := next_event (log (ERequest method url params data) w) in
      match ev with
      | EvInterrupt => (Exc KeyboardInterrupt, w)
      | EvExn =>
          let w := if attempt <? retry_attempts self
                   then log (ESleep (retry_delay self)) w else w in
          retry_loop method url params data rest w
      | EvResp status text parsed =>
          let payload :=
            match parsed with
            | Some j => j
            | None => JDict [("error", JStr text)]
            end in
          let w := save_raw_response "response" status payload w in
          if status =? 200 then (Ok payload, w)
          else if retriable status && (attempt <? retry_attempts self)
               then retry_loop method url params data rest
                      (log (ESleep (retry_delay self * attempt)) w)
               else (Ok JNull, w)
      end
  end.

(** [range(1, n + 1)] *)
Definition attempts_upto (n : Z) : list Z :=
  map Z.of_nat (seq 1 (Z.to_nat n)).

Definition request_with_retry (method url : string)
  (params data : list (string * json)) (w : world) : res json * world :=
  retry_loop method url params data (attempts_upto (retry_attempts self)) w.

Definition build_request (e : endpoint) (variables : json)
  : res (string * string * list (string * json) * list (string * json)) :=
  match ep_url e with
  | None | Some EmptyString => Exc (ValueError "Endpoint URL missing")
  | Some url =>
      let method := str_upper (default "POST" (ep_method e)) in
      let fixed := default [] (ep_params e) in
      let '(params, data) :=
        if String.eqb (default "graphql" (ep_type e)) "graphql" then
          let data := [] in
          let data := match ep_doc_id e with
                      | None | Some EmptyString => data
                      | Some d => dict_set "doc_id" (JStr d) data
                      end in
          let data := match ep_query_hash e with
                      | None | Some EmptyString => data
                      | Some q => dict_set "query_hash" (JStr q) data
                      end in
          let data := dict_update data fixed in
          let data := if truthy variables
                      then dict_set "variables" (JStr (json_dumps variables)) data
                      else data in
          ([], data)
        else
          (dict_update [] fixed,
           match variables with
           | JDict vs => dict_update [] vs
           | _ => []
           end) in
      if String.eqb method "GET"
      then Ok (method, url, dict_update params data, [])
      else Ok (method, url, params, data)
  end.

(** The variables of a request: the rendered template, with [first]
    overridden by the page size when the template has the key. *)
Definition request_variables (e : endpoint) (bindings : list (string * json))
  (first : Z) : json :=
  match render_template (JDict (default [] (ep_variables e))) bindings with
  | JDict vs =>
      match dict_lookup "first" vs with
      | Some _ => if first =? 0 then JDict vs
                  else JDict (dict_set "first" (JInt first) vs)
      | None => JDict vs
      end
  | v => v
  end.

Definition send (e : endpoint) (variables : json) (w : world)
  : res json * world :=
  match build_request e variables with
  | Ok (method, url, params, data) => request_with_retry method url params data w
  | Exc err => (Exc err, w)
  | OutOfFuel => (OutOfFuel, w)
  end.

Definition fetch_comments_page (shortcode : string) (media_id cursor : json)
  (w : world) : res json * world :=
  if unconfigured (comments self) then (Ok JNull, w)
  else
    match comments self with
    | None => (Ok JNull, w)
    | Some e =>
        send e
          (request_variables e
             [("shortcode", JStr shortcode); ("media_id", media_id);
              ("cursor", cursor); ("comment_id", JNull)]
             (comments_first self)) w
    end.

Definition fetch_comment_replies (comment_id : string) (cursor media_id : json)
  (w : world) : res json * world :=
  if unconfigured (comment_replies self) then (Ok JNull, w)
  else
    match comment_replies self with
    | None => (Ok JNull, w)
    | Some e =>
        send e
          (request_variables e
             [("shortcode", JNull); ("media_id", media_id);
              ("cursor", cursor); ("comment_id", JStr comment_id)]
             (replies_first self)) w
    end.
End Executor.

(** ** The set of seen comment ids *)

(** A hashable Python value of JSON shape. *)
Inductive key :=
| KNull
| KBool (b : bool)
| KInt (n : Z)
| KStr (s : string).

Global Instance key_eq_dec : EqDecision key.
Proof. solve_decision. Defined.

Definition key_code (k : key) : unit + bool + Z + string :=
  match k with
  | KNull => inl (inl (inl ()))
  | KBool b => inl (inl (inr b))
  | KInt n => inl (inr n)
  | KStr s => inr s
  end.

Definition key_decode (c : unit + bool + Z + string) : key :=
  match c with
  | inl (inl (inl _)) => KNull
  | inl (inl (inr b)) => KBool b
  | inl (inr n) => KInt n
  | inr s => KStr s
  end.

Global Instance key_countable : Countable key.
Proof. apply (inj_countable' key_code key_decode). by intros []. Defined.

(** The key of a value, absent for the unhashable list and dict. *)
Definition key_of (v : json) : option key :=
  match v with
  | JNull => Some KNull
  | JBool b => Some (KBool b)
  | JInt n => Some (KInt n)
  | JStr s => Some (KStr s)
  | JList _ | JDict _ => None
  end.

Definition json_of_key (k : key) : json :=
  match k with
  | KNull => JNull
  | KBool b => JBool b
  | KInt n => JInt n
  | KStr s => JStr s
  end.

(** The other key that Python holds equal to [k]: [True] and [1], [False]
    and [0]. *)
Definition key_twin (k : key) : option key :=
  match k with
  | KBool b => Some (KInt (Z.b2z b))
  | KInt 0 => Some (KBool false)
  | KInt 1 => Some (KBool true)
  | _ => None
  end.

(** [k in s] *)
Definition seen_has (k : key) (s : gset key) : bool :=
  bool_decide (k ∈ s) ||
  match key_twin k with
  | Some k' => bool_decide (k' ∈ s)
  | None => false
  end.

(** [s.add(k)] *)
Definition seen_add (k : key) (s : gset key) : gset key :=
  if seen_has k s then s else {[k]} ∪ s.

Fixpoint set_of_items (items : list json) (s : gset key) : res (gset key) :=
  match items with
  | [] => Ok s
  | v :: rest =>
      match key_of v with
      | Some k => set_of_items rest (seen_add k s)
      | None => Exc TypeError
      end
  end.

(** [set(v)] *)
Definition py_set (v : json) : res (gset key) :=
  (items <-? py_iter v; set_of_items items ∅)%res.

(** [list(s)], in the order of [elements]. *)
Definition py_list_of_set (s : gset key) : json :=
  JList (map json_of_key (elements s)).

(** [l.append(x)]: only a list has the method. *)
Definition py_append (l x : json) : res json :=
  match l with
  | JList items => Ok (JList (items ++ [x]))
  | _ => Exc AttributeError
  end.

(** [n + 1] *)
Definition py_succ (n : json) : res json :=
  match n with
  | JInt z => Ok (JInt (z + 1))
  | JBool b => Ok (JInt (Z.b2z b + 1))
  | _ => Exc TypeError
  end.

(** [v > n] for an integer [n] *)
Definition py_gt (v : json) (n : Z) : res bool :=
  match v with
  | JInt z => Ok (n <? z)
  | JBool b => Ok (n <? Z.b2z b)
  | _ => Exc TypeError
  end.

(** ** Stop reasons and the state of a crawl *)

Inductive stop :=
| NoMorePages
| MaxReached
| NoPayload
| MissingCursor
| CursorStalled
| Interrupted.

Global Instance stop_eq_dec : EqDecision stop.
Proof. solve_decision. Defined.

Definition stop_name (r : stop) : string :=
  match r with
  | NoMorePages => "no_more_pages"
  | MaxReached => "max_reached"
  | NoPayload => "no_payload"
  | MissingCursor => "missing_cursor"
  | CursorStalled => "cursor_stalled"
  | Interrupted => "interrupted"
  end.

Definition json_of_stop (r : option stop) : json :=
  match r with
  | Some r => JStr (stop_name r)
  | None => JNull
  end.

(** The local variables of [crawl_post_comments] that the loop changes. *)
Record locals := {
  all_comments : json;
  seen_comment_ids : gset key;
  cursor : json;
  last_cursor : json;
  page : json;
  prev_cursor : json;
  backtrack_used : bool;
  total_count : json;
  interrupted : bool;
  stop_reason : option stop;
}.

Definition set_all_comments (v : json) (l : locals) : locals :=
  {| all_comments := v; seen_comment_ids := seen_comment_ids l;
     cursor := cursor l; last_cursor := last_cursor l; page := page l;
     prev_cursor := prev_cursor l; backtrack_used := backtrack_used l;
     total_count := total_count l; interrupted := interrupted l;
     stop_reason := stop_reason l |}.

Definition set_seen (s : gset key) (l : locals) : locals :=
  {| all_comments := all_comments l; seen_comment_ids := s;
     cursor := cursor l; last_cursor := last_cursor l; page := page l;
     prev_cursor := prev_cursor l; backtrack_used := backtrack_used l;
     total_count := total_count l; interrupted := interrupted l;
     stop_reason := stop_reason l |}.

Definition set_cursor (v : json) (l : locals) : locals :=
  {| all_comments := all_comments l; seen_comment_ids := seen_comment_ids l;
     cursor := v; last_cursor := last_cursor l; page := page l;
     prev_cursor := prev_cursor l; backtrack_used := backtrack_used l;
     total_count := total_count l; interrupted := interrupted l;
     stop_reason := stop_reason l |}.

Definition set_last_cursor (v : json) (l : locals) : locals :=
  {| all_comments := all_comments l; seen_comment_ids := seen_comment_ids l;
     cursor := cursor l; last_cursor := v; page := page l;
     prev_cursor := prev_cursor l; backtrack_used := backtrack_used l;
     total_count := total_count l; interrupted := interrupted l;
     stop_reason := stop_reason l |}.

Definition set_page (v : json) (l : locals) : locals :=
  {| all_comments := all_comments l; seen_comment_ids := seen_comment_ids l;
     cursor := cursor l; last_cursor := last_cursor l; page := v;
     prev_cursor := prev_cursor l; backtrack_used := backtrack_used l;
     total_count := total_count l; interrupted := interrupted l;
     stop_reason := stop_reason l |}.

Definition set_prev_cursor (v : json) (l : locals) : locals :=
  {| all_comments := all_comments l; seen_comment_ids := seen_comment_ids l;
     cursor := cursor l; last_cursor := last_cursor l; page := page l;
     prev_cursor := v; backtrack_used := backtrack_used l;
     total_count := total_count l; interrupted := interrupted l;
     stop_reason := stop_reason l |}.

Definition set_backtrack_used (b : bool) (l : locals) : locals :=
  {| all_comments := all_comments l; seen_comment_ids := seen_comment_ids l;
     cursor := cursor l; last_cursor := last_cursor l; page := page l;
     prev_cursor := prev_cursor l; backtrack_used := b;
     total_count := total_count l; interrupted := interrupted l;
     stop_reason := stop_reason l |}.

Definition set_total_count (v : json) (l : locals) : locals :=
  {| all_comments := all_comments l; seen_comment_ids := seen_comment_ids l;
     cursor := cursor l; last_cursor := last_cursor l; page := page l;
     prev_cursor := prev_cursor l; backtrack_used := backtrack_used l;
     total_count := v; interrupted := interrupted l;
     stop_reason := stop_reason l |}.

Definition set_interrupted (b : bool) (l : locals) : locals :=
  {| all_comments := all_comments l; seen_comment_ids := seen_comment_ids l;
     cursor := cursor l; last_cursor := last_cursor l; page := page l;
     prev_cursor := prev_cursor l; backtrack_used := backtrack_used l;
     total_count := total_count l; interrupted := b;
     stop_reason := stop_reason l |}.

Definition set_stop_reason (r : option stop) (l : locals) : locals :=
  {| all_comments := all_comments l; seen_comment_ids := seen_comment_ids l;
     cursor := cursor l; last_cursor := last_cursor l; page := page l;
     prev_cursor := prev_cursor l; backtrack_used := backtrack_used l;
     total_count := total_count l; interrupted := interrupted l;
     stop_reason := r |}.

(** Code of the loop: it reads and changes the locals and the world, and
    both keep the state they reached when an exception is raised. *)
Definition L (A : Type) : Type := locals -> world -> res A * locals * world.

Definition ret {A} (a : A) : L A := fun l w => (Ok a, l, w).

Definition bind {A B} (c : L A) (k : A -> L B) : L B :=
  fun l w =>
    match c l w with
    | (Ok a, l', w') => k a l' w'
    | (Exc e, l', w') => (Exc e, l', w')
    | (OutOfFuel, l', w') => (OutOfFuel, l', w')
    end.

(** A pure computation that may raise. *)
Definition lift {A} (r : res A) : L A := fun l w => (r, l, w).

(** A computation on the world alone. *)
Definition io {A} (f : world -> res A * world) : L A :=
  fun l w => let '(r, w') := f w in (r, l, w').

Definition act (f : world -> world) : L unit := fun l w => (Ok (), l, f w).

Definition get {A} (field : locals -> A) : L A := fun l w => (Ok (field l), l, w).

Definition update (f : locals -> locals) : L unit := fun l w => (Ok (), f l, w).

Definition raise {A} (e : exn) : L A := fun l w => (Exc e, l, w).

Declare Scope loop_scope.
Delimit Scope loop_scope with loop.
Notation "x <-! c ; k" := (bind c (fun x => k))
  (at level 100, c at next level, right associativity) : loop_scope.
Notation "c >>! k" := (bind c (fun _ => k))
  (at level 100, right associativity) : loop_scope.

Fixpoint for_each {A} (body : A -> L unit) (items : list A) : L unit :=
  match items with
  | [] => ret ()
  | x :: rest => (body x >>! for_each body rest)%loop
  end.

(** ** Resume store and output *)

Section Store.
Context `{Clock} (self : crawler).

Definition resume_path (shortcode : string) : string :=
  data_dir self +:+ "/ig_comments/" +:+ shortcode +:+ "_resume.json".

Definition load_resume_state (shortcode : string) (w : world) : json :=
  match files w !! resume_path shortcode with
  | None => JNull
  | Some (Doc state) => state
  | Some (Corrupt _) => JNull
  end.

Definition save_resume_state (shortcode : string) (post_info comments : json)
  (seen_ids : gset key) (cursor last_cursor page expected_count : json)
  (stop_reason : option stop) (complete : bool) (w : world)
  : res unit * world :=
  match py_len comments with
  | Ok n =>
      let '(t, w) := tick w in
      (Ok (),
       write_file (resume_path shortcode)
         (JDict [("post", post_info);
                 ("comment_count", JInt (Z.of_nat n));
                 ("comments", comments);
                 ("seen_comment_ids", py_list_of_set seen_ids);
                 ("cursor", cursor);
                 ("last_cursor", last_cursor);
                 ("pages", page);
                 ("expected_comment_count", expected_count);
                 ("stop_reason", json_of_stop stop_reason);
                 ("complete", JBool complete);
                 ("updated_at", JStr (iso_now t +:+ "Z"))]) w)
  | Exc e => (Exc e, w)
  | OutOfFuel => (OutOfFuel, w)
  end.

Definition clear_resume_state (shortcode : string) (w : world) : world :=
  match files w !! resume_path shortcode with
  | Some _ => unlink (resume_path shortcode) w
  | None => w
  end.

Definition save_output (shortcode : string) (data : json) (w : world)
  : string * world :=
  let '(t, w) := tick w in
  let path :=
    data_dir self +:+ "/ig_comments/" +:+ shortcode +:+ "_" +:+ stamp_now t
    +:+ ".json" in
  (path, write_file path data w).
End Store.

(** ** Identity resolution *)

Section Identity.
Context `{PyLib} (self : crawler).

Definition resolve_media_id_from_html (shortcode : string) (w : world)
  : res json * world :=
  let url := "https://www.instagram.com/p/" +:+ shortcode +:+ "/" in
  let '(ev, w) := next_event (log (EGet url) w) in
  match ev with
  | EvExn => (Ok JNull, w)
  | EvInterrupt => (Exc KeyboardInterrupt, w)
  | EvResp status text _ =>
      if status =? 200
      then (Ok (from_option JStr JNull (html_media_id shortcode text)), w)
      else (Ok JNull, w)
  end.

Definition media_id_paths : list (list path_key) :=
  [[PKey "data"; PKey "xdt_shortcode_media"; PKey "id"];
   [PKey "data"; PKey "shortcode_media"; PKey "id"];
   [PKey "data"; PKey "xdt_shortcode_media"; PKey "pk"];
   [PKey "data"; PKey "shortcode_media"; PKey "pk"];
   [PKey "data"; PKey "media"; PKey "id"];
   [PKey "data"; PKey "media"; PKey "pk"]].

(** The post record built from a successful lookup. *)
Definition post_info_of (payload : json) : res json :=
  (created_at <-?
     parse_timestamp
       (pick_first_path payload
          [[PKey "data"; PKey "xdt_shortcode_media"; PKey "taken_at_timestamp"];
           [PKey "data"; PKey "shortcode_media"; PKey "taken_at_timestamp"]]);
   Ok (JDict
         [("media_id", pick_first_path payload media_id_paths);
          ("owner_id",
           pick_first_path payload
             [[PKey "data"; PKey "xdt_shortcode_media"; PKey "owner"; PKey "id"];
              [PKey "data"; PKey "shortcode_media"; PKey "owner"; PKey "id"]]);
          ("caption",
           pick_first_path payload
             [[PKey "data"; PKey "xdt_shortcode_media";
               PKey "edge_media_to_caption"; PKey "edges"; PIdx 0;
               PKey "node"; PKey "text"];
              [PKey "data"; PKey "shortcode_media";
               PKey "edge_media_to_caption"; PKey "edges"; PIdx 0;
               PKey "node"; PKey "text"]]);
          ("created_at", created_at)]))%res.

Definition resolve_media_id (shortcode : string) (w : world)
  : res (json * json) * world :=
  let base_media_id := from_option JStr JNull (shortcode_to_media_id shortcode) in
  if unconfigured (post_by_shortcode self) then
    if truthy base_media_id
    then (Ok (base_media_id, JDict [("media_id", base_media_id)]), w)
    else
      match resolve_media_id_from_html shortcode w with
      | (Ok media_id, w) => (Ok (media_id, JDict [("media_id", media_id)]), w)
      | (Exc e, w) => (Exc e, w)
      | (OutOfFuel, w) => (OutOfFuel, w)
      end
  else
    match post_by_shortcode self with
    | None => (Ok (JNull, JDict []), w)
    | Some e =>
        let variables :=
          render_template (JDict (default [] (ep_variables e)))
            [("shortcode", JStr shortcode); ("media_id", JNull);
             ("cursor", JNull); ("comment_id", JNull)] in
        match send self e variables w with
        | (Ok payload, w) =>
            if truthy payload then
              match post_info_of payload with
              | Ok post_info =>
                  let media_id := pick_first_path payload media_id_paths in
                  let resolved :=
                    if truthy media_id then JStr (py_str media_id) else JNull in
                  (Ok (if truthy resolved then resolved else base_media_id,
                       post_info), w)
              | Exc err => (Exc err, w)
              | OutOfFuel => (OutOfFuel, w)
              end
            else (Ok (JNull, JDict []), w)
        | (Exc err, w) => (Exc err, w)
        | (OutOfFuel, w) => (OutOfFuel, w)
        end
    end.
End Identity.

(** ** The pagination engine *)

(** [complete = (stop_reason == "no_more_pages")] *)
Definition complete (reason : option stop) : bool :=
  bool_decide (reason = Some NoMorePages).

Section Pagination.
Context `{PyLib} `{Clock} (self : crawler).

(** What stays fixed while the loop runs. *)
Variables (shortcode : string) (media_id post_info : json)
          (max_comments_arg : option Z).

(** [edge.get("node") if isinstance(edge, dict) else None] *)
Definition node_of (edge : json) : json :=
  match edge with
  | JDict e => dict_get e "node"
  | _ => JNull
  end.

(** [self.fetch_replies and bool(replies_endpoint) and not
    str(replies_endpoint.get("doc_id", "")).startswith("YOUR_")] *)
Definition replies_enabled : bool :=
  fetch_replies self && negb (unconfigured (comment_replies self)).

(** One reply edge, inline or fetched: the reply is parsed, tied to its
    parent, and joins [replies] when it has an id that was not seen. *)
Definition add_reply (parsed_id : json) (replies : list json)
  (reply_edge : json) : L (list json) :=
  (let reply_node := node_of reply_edge in
   if truthy reply_node then
     owner <-! lift (py_get post_info "owner_id");
     reply <-! lift (parse_comment_node reply_node owner);
     match reply with
     | JDict r =>
         let r := dict_set "parent_id" parsed_id r in
         let reply_id := dict_get r "id" in
         seen <-! get seen_comment_ids;
         match key_of reply_id with
         | Some k =>
             if truthy reply_id && negb (seen_has k seen) then
               update (set_seen (seen_add k seen)) >>!
               ret (replies ++ [JDict r])%list
             else ret replies
         | None => raise TypeError
         end
     | _ => raise AttributeError
     end
   else ret replies)%loop.

Fixpoint add_replies (parsed_id : json) (replies : list json)
  (reply_edges : list json) : L (list json) :=
  match reply_edges with
  | [] => ret replies
  | reply_edge :: rest =>
      (replies <-! add_reply parsed_id replies reply_edge;
       add_replies parsed_id replies rest)%loop
  end.

(** The [while True] loop over the pages of replies of one comment. *)
Fixpoint reply_loop (fuel : nat) (parsed_id : string)
  (reply_cursor last_reply_cursor : json) (replies : list json)
  : L (list json) :=
  match fuel with
  | O => lift OutOfFuel
  | S fuel =>
      (reply_payload <-!
         io (fetch_comment_replies self parsed_id reply_cursor media_id);
       if truthy reply_payload then
         parts <-! lift (extract_reply_connection reply_payload);
         let '(reply_edges2, reply_page2, _) := parts in
         items <-! lift (py_iter reply_edges2);
         replies <-! add_replies (JStr parsed_id) replies items;
         more <-! lift (py_get reply_page2 "has_next_page");
         if truthy more then
           reply_cursor <-! lift (py_get reply_page2 "end_cursor");
           if negb (truthy reply_cursor) || py_eq reply_cursor last_reply_cursor
           then ret replies
           else reply_loop fuel parsed_id reply_cursor reply_cursor replies
         else ret replies
       else ret replies)%loop
  end.

(** Fuel that outlasts the pending events. *)
Definition reply_fuel : L nat :=
  fun l w => (Ok (S (length (pending w))), l, w).

(** The inline replies of a node: [if reply_edges: for reply_edge in
    reply_edges: ...]. *)
Definition inline_replies (parsed_id reply_edges : json) : L (list json) :=
  (if truthy reply_edges then
     items <-! lift (py_iter reply_edges);
     add_replies parsed_id [] items
   else ret [])%loop.

(** The replies fetched from the replies endpoint, after the inline ones:
    [if replies_enabled and parsed_id and (reply_count >
    len(parsed["replies"]) or reply_page.get("has_next_page")): ...]. *)
Definition fetched_replies (parsed_id reply_count reply_page : json)
  (replies : list json) : L (list json) :=
  (match parsed_id with
   | JStr id =>
       if replies_enabled && truthy parsed_id then
         more <-! lift (py_gt reply_count (Z.of_nat (length replies)));
         need <-! (if (more : bool) then ret true
                   else has <-! lift (py_get reply_page "has_next_page");
                        ret (truthy has));
         if (need : bool) then
           has <-! lift (py_get reply_page "has_next_page");
           reply_cursor <-!
             (if truthy has
              then lift (py_get reply_page "end_cursor")
              else ret JNull);
           fuel <-! reply_fuel;
           reply_loop fuel id reply_cursor JNull replies
         else ret replies
       else ret replies
   | _ => ret replies
   end)%loop.

(** [max_comments if max_comments is not None else self.max_comments] *)
Definition max_comments_eff : option Z :=
  match max_comments_arg with
  | Some m => Some m
  | None => max_comments self
  end.

(** [max_comments and len(seen_comment_ids) >= max_comments] *)
Definition max_hit (seen : gset key) : bool :=
  match max_comments_eff with
  | None => false
  | Some m => negb (m =? 0) && (m <=? Z.of_nat (size seen))
  end.

(** [all_comments.append(parsed)] and the check of the maximum after it. *)
Definition append_comment (parsed : json) : L unit :=
  (comments <-! get all_comments;
   comments <-! lift (py_append comments parsed);
   update (set_all_comments comments) >>!
   seen <-! get seen_comment_ids;
   if max_hit seen then
     update (set_stop_reason (Some MaxReached)) >>!
     raise StopIteration
   else ret ())%loop.

(** The body of [for edge in edges]. *)
Definition process_edge (edge : json) : L unit :=
  (let node := node_of edge in
   if truthy node then
     owner <-! lift (py_get post_info "owner_id");
     parsed <-! lift (parse_comment_node node owner);
     match parsed, node with
     | JDict p, JDict n =>
         let parsed_id := dict_get p "id" in
         seen <-! get seen_comment_ids;
         match key_of parsed_id with
         | Some k =>
             if seen_has k seen then ret ()
             else
               update (set_seen (seen_add k seen)) >>!
               let reply_count := py_or (dict_get p "reply_count") (JInt 0) in
               let '(reply_edges, reply_page) := extract_replies_from_node n in
               replies <-! inline_replies parsed_id reply_edges;
               replies <-! fetched_replies parsed_id reply_count reply_page replies;
               append_comment (JDict (dict_set "replies" (JList replies) p))
         | None => raise TypeError
         end
     | _, _ => raise AttributeError
     end
   else ret ())%loop.

(** The page-level retries: [for attempt in range(page_retry_attempts + 1)],
    over the attempt numbers still to come; [payload] is the value of the
    variable when they are used up. *)
Fixpoint page_fetch (current_cursor : json) (attempts : list Z) (payload : json)
  (w : world) : res json * world :=
  match attempts with
  | [] => (Ok payload, w)
  | attempt :: rest =>
      match fetch_comments_page self shortcode media_id current_cursor w with
      | (Ok payload, w) =>
          if truthy payload then (Ok payload, w)
          else
            let w := if attempt <? page_retry_attempts self
                     then log (ESleep (page_retry_delay self * (attempt + 1))) w
                     else w in
            page_fetch current_cursor rest payload w
      | (Exc e, w) => (Exc e, w)
      | (OutOfFuel, w) => (OutOfFuel, w)
      end
  end.

(** [range(n)] *)
Definition range (n : Z) : list Z :=
  map Z.of_nat (seq 0 (Z.to_nat n)).

(** The call of [save_resume_state] on the current locals, not marked
    complete. *)
Definition checkpoint : L unit :=
  fun l w =>
    let '(r, w') :=
      save_resume_state self shortcode post_info (all_comments l)
        (seen_comment_ids l) (cursor l) (last_cursor l) (page l)
        (total_count l) (stop_reason l) false w in
    (r, l, w').

Inductive flow :=
| Next
| Break.

(** The end of a page that was fetched and processed. *)
Definition page_end (current_cursor page_info : json) : L flow :=
  (more <-! lift (py_get page_info "has_next_page");
   if truthy more then
     update (set_prev_cursor current_cursor) >>!
     next_cursor <-! lift (py_get page_info "end_cursor");
     update (set_cursor next_cursor) >>!
     if truthy next_cursor then
       last <-! get last_cursor;
       if py_eq next_cursor last then
         update (set_stop_reason (Some CursorStalled)) >>! ret Break
       else
         update (set_last_cursor next_cursor) >>!
         checkpoint >>!
         ret Next
     else update (set_stop_reason (Some MissingCursor)) >>! ret Break
   else update (set_stop_reason (Some NoMorePages)) >>! ret Break)%loop.

(** A page that was fetched: its comments are processed, then the end of
    the page decides. *)
Definition process_page (current_cursor payload : json) : L flow :=
  (update (set_backtrack_used false) >>!
   page_now <-! get page;
   page_next <-! lift (py_succ page_now);
   update (set_page page_next) >>!
   parts <-! lift (extract_comment_connection payload);
   let '(edges, page_info, count) := parts in
   known <-! get total_count;
   (match known with
    | JNull => update (set_total_count count)
    | _ => ret ()
    end) >>!
   _ <-! lift (py_len edges);
   items <-! lift (py_iter edges);
   for_each process_edge items >>!
   page_end current_cursor page_info)%loop.

(** [prev_cursor and prev_cursor != current_cursor and not backtrack_used] *)
Definition can_backtrack (current_cursor : json) (l : locals) : bool :=
  truthy (prev_cursor l) && negb (py_eq (prev_cursor l) current_cursor) &&
  negb (backtrack_used l).

(** A page that could not be fetched, after the page-level retries. *)
Definition fetch_failed (current_cursor : json) : L flow :=
  (back <-! get (can_backtrack current_cursor);
   if (back : bool) then
     prev <-! get prev_cursor;
     update (set_cursor prev) >>!
     update (set_backtrack_used true) >>!
     ret Next
   else update (set_stop_reason (Some NoPayload)) >>! ret Break)%loop.

(** One pass through the body of the [while True] loop. *)
Definition iteration : L flow :=
  (current_cursor <-! get cursor;
   payload <-!
     io (page_fetch current_cursor (range (page_retry_attempts self + 1)) JNull);
   if truthy payload then process_page current_cursor payload
   else fetch_failed current_cursor)%loop.

Fixpoint crawl_loop (fuel : nat) : L unit :=
  match fuel with
  | O => lift OutOfFuel
  | S fuel =>
      (what <-! iteration;
       match what with
       | Next => crawl_loop fuel
       | Break => ret ()
       end)%loop
  end.

(** The [try] statement around the loop: an interrupt becomes a stop
    reason, the [StopIteration] of the maximum is dropped, anything else
    goes on to the caller. *)
Definition guarded_loop (fuel : nat) : L unit :=
  fun l w =>
    match crawl_loop fuel l w with
    | (Exc KeyboardInterrupt, l, w) =>
        (Ok (), set_stop_reason (Some Interrupted) (set_interrupted true l), w)
    | (Exc StopIteration, l, w) => (Ok (), l, w)
    | other => other
    end.

(** The crawl result, before its output path is known. *)
Definition result_fields (n : nat) (t : nat) (l : locals)
  : list (string * json) :=
  [("post", post_info);
   ("comment_count", JInt (Z.of_nat n));
   ("expected_comment_count", total_count l);
   ("fetched_at", JStr (iso_now t +:+ "Z"));
   ("comments", all_comments l);
   ("pages", page l);
   ("stop_reason", json_of_stop (stop_reason l))].

(** What follows the loop: the result is built and written, and the
    checkpoint is cleared or written one last time. *)
Definition finalize : L json :=
  (comments <-! get all_comments;
   n <-! lift (py_len comments);
   t <-! io (fun w => let '(t, w) := tick w in (Ok t, w));
   result <-! get (result_fields n t);
   output_path <-!
     io (fun w => let '(path, w) := save_output self shortcode (JDict result) w
                  in (Ok path, w));
   let result := dict_set "output_path" (JStr output_path) result in
   reason <-! get stop_reason;
   (if complete reason
    then act (clear_resume_state self shortcode)
    else checkpoint) >>!
   ret (JDict result))%loop.
End Pagination.

Section Crawl.
Context `{PyLib} `{Clock} (self : crawler).

Definition fresh_locals : locals :=
  {| all_comments := JList []; seen_comment_ids := ∅;
     cursor := JNull; last_cursor := JNull; page := JInt 0;
     prev_cursor := JNull; backtrack_used := false;
     total_count := JNull; interrupted := false; stop_reason := None |}.

(** The locals taken over from a checkpoint. *)
Definition resumed_locals (resume_state : json) : res locals :=
  (comments <-? py_get_or resume_state "comments" (JList []);
   ids <-? py_get_or resume_state "seen_comment_ids" (JList []);
   seen <-? py_set ids;
   cursor <-? py_get resume_state "cursor";
   last_cursor <-? py_get resume_state "last_cursor";
   pages <-? py_get_or resume_state "pages" (JInt 0);
   expected <-? py_get resume_state "expected_comment_count";
   Ok {| all_comments := comments; seen_comment_ids := seen;
         cursor := cursor; last_cursor := last_cursor; page := pages;
         prev_cursor := JNull; backtrack_used := false;
         total_count := expected; interrupted := false;
         stop_reason := None |})%res.

(** The checkpoint the crawl resumes from, [JNull] for a fresh start: a
    checkpoint marked complete is set aside. *)
Definition resume_choice (shortcode : string) (resume : bool) (w : world)
  : res json :=
  if resume then
    let resume_state := load_resume_state self shortcode w in
    if truthy resume_state then
      (complete <-? py_get resume_state "complete";
       Ok (if truthy complete then JNull else resume_state))%res
    else Ok resume_state
  else Ok JNull.

(** Fuel that outlasts the pending events: a pass of the loop that goes on
    used an event up or spent the one backtrack. *)
Definition loop_fuel (w : world) : nat := (2 * length (pending w) + 2)%nat.

Definition run_crawl (shortcode : string) (media_id post_info : json)
  (max_comments_arg : option Z) (l : locals) (w : world)
  : res json * locals * world :=
  bind (guarded_loop self shortcode media_id post_info max_comments_arg
          (loop_fuel w))
       (fun _ => finalize self shortcode post_info) l w.

Definition crawl_post_comments (post_url : string)
  (max_comments_arg : option Z) (resume : option bool) (w : world)
  : res json * world :=
  match extract_shortcode post_url with
  | None => (Exc (ValueError "Invalid Instagram post URL"), w)
  | Some shortcode =>
      let resume := default (resume_by_default self) resume in
      match resume_choice shortcode resume w with
      | Ok resume_state =>
          if truthy resume_state then
            match (post_info <-? py_get_or resume_state "post" (JDict []);
                   stored <-? py_get post_info "media_id";
                   l <-? resumed_locals resume_state;
                   Ok (post_info, stored, l))%res with
            | Ok (post_info, stored, l) =>
                let media_id :=
                  py_or stored
                    (from_option JStr JNull (shortcode_to_media_id shortcode)) in
                let '(r, _, w) :=
                  run_crawl shortcode media_id post_info max_comments_arg l w in
                (r, w)
            | Exc e => (Exc e, w)
            | OutOfFuel => (OutOfFuel, w)
            end
          else
            match resolve_media_id self shortcode w with
            | (Ok (media_id, JDict post), w) =>
                let post_info :=
                  JDict (dict_update post
                           [("url", JStr post_url);
                            ("shortcode", JStr shortcode);
                            ("media_id", media_id)]) in
                let '(r, _, w) :=
                  run_crawl shortcode media_id post_info max_comments_arg
                    fresh_locals w in
                (r, w)
            | (Ok (_, _), w) => (Exc AttributeError, w)
            | (Exc e, w) => (Exc e, w)
            | (OutOfFuel, w) => (OutOfFuel, w)
            end
      | Exc e => (Exc e, w)
      | OutOfFuel => (OutOfFuel, w)
      end
  end.
End Crawl.

Local Open Scope list_scope.

Fixpoint all_name_chars (s : string) : bool :=
  match s with
  | EmptyString => true
  | String c s' => is_name_char c && all_name_chars s'
  end.

(** [s] holds a placeholder: an opening brace, a name of one or more
    characters of [[a-zA-Z0-9_]], a closing brace. *)
Definition placeholder_in (s : string) : Prop :=
  exists pre name post,
    s = pre +:+ String "{" (name +:+ String "}" post) /\
    name <> EmptyString /\ all_name_chars name = true.

(** A rendered value: no string leaf holds a placeholder, and no entry of a
    mapping or of a sequence is [None]. *)
Fixpoint rendered_ok (v : json) : Prop :=
  match v with
  | JStr s => ~ placeholder_in s
  | JList l =>
      (fix each (l : list json) : Prop :=
         match l with
         | [] => True
         | x :: l' => (x <> JNull /\ rendered_ok x) /\ each l'
         end) l
  | JDict d =>
      (fix each (d : list (string * json)) : Prop :=
         match d with
         | [] => True
         | (_, x) :: d' => (x <> JNull /\ rendered_ok x) /\ each d'
         end) d
  | _ => True
  end.

(** A sequence without its [None] entries. *)
Fixpoint drop_null (l : list json) : list json :=
  match l with
  | [] => []
  | JNull :: l' => drop_null l'
  | x :: l' => x :: drop_null l'
  end.

(** A mapping without the keys whose value is [None]. *)
Fixpoint drop_null_entries (d : list (string * json)) : list (string * json) :=
  match d with
  | [] => []
  | (_, JNull) :: d' => drop_null_entries d'
  | kv :: d' => kv :: drop_null_entries d'
  end.

(** A string leaf is dropped: a variable it names is bound to [None], or the
    text still holds a placeholder after the substitutions. *)
Definition dropped_leaf `{PyLib} (variables : list (string * json)) (s : string)
  : Prop :=
  match substitute s variables with
  | None => True
  | Some s' => placeholder_in s'
  end.

(** ** Reading a trace *)


Definition is_request (e : effect) : bool :=
  match e with ERequest _ _ _ _ => true | _ => false end.

(** How many requests were sent. *)
Definition requests (t : list effect) : nat := length (List.filter is_request t).





(** ** A concrete runtime, configuration and responses, for examples *)

Definition demo_lib : PyLib :=
  {| py_repr := fun _ => "<container>";
     utc_isoformat := fun n => Ok (pretty n);
     json_dumps := fun _ => "<variables>";
     html_media_id := fun _ _ => None |}.

Definition demo_clock : Clock :=
  {| iso_now := fun n => "T" +:+ pretty n;
     stamp_now := fun n => "S" +:+ pretty n |}.

Definition demo_endpoint (url : string) : endpoint :=
  {| ep_type := Some "graphql"; ep_method := Some "POST"; ep_url := Some url;
     ep_doc_id := Some "123"; ep_query_hash := None; ep_params := None;
     ep_variables :=
       Some [("shortcode", JStr "{shortcode}"); ("after", JStr "{cursor}");
             ("first", JInt 50); ("id", JStr "{media_id}");
             ("comment_id", JStr "{comment_id}")] |}.

Definition demo_crawler : crawler :=
  {| post_by_shortcode := None;
     comments := Some (demo_endpoint "https://example.test/comments");
     comment_replies := Some (demo_endpoint "https://example.test/replies");
     requests_per_minute := 6; retry_attempts := 3; retry_delay := 5;
     max_comments := Some 400; fetch_replies := true;
     resume_by_default := true; comments_first := 20; replies_first := 20;
     save_raw_mode := JStr "errors"; page_retry_attempts := 2;
     page_retry_delay := 3; data_dir := "crawler_data" |}.

Definition demo_world (events : list event) : world :=
  {| pending := events; trace := []; files := ∅; clock := 0 |}.

(** An edge whose node has the id [id]. *)
Definition demo_edge (id : string) : json :=
  JDict [("node", JDict [("id", JStr id); ("text", JStr "hello")])].

(** A page of comments under a key found by its suffix. *)
Definition demo_page (edges : list json) (more : bool) (end_cursor : json) : json :=
  JDict [("data",
          JDict [("x1y2z__comments__connection",
                  JDict [("edges", JList edges);
                         ("page_info",
                          JDict [("has_next_page", JBool more);
                                 ("end_cursor", end_cursor)]);
                         ("count", JInt 9)])])].

Definition demo_ok (payload : json) : event := EvResp 200 "" (Some payload).

(** ** The comment tree and the dedup invariant *)

(** The ids of a comment record: its own and, through [replies], those of
    the records nested in it. *)
Fixpoint comment_ids (c : json) : list json :=
  match c with
  | JDict d =>
      dict_get d "id" ::
      (fix replies_of (d : list (string * json)) : list json :=
         match d with
         | [] => []
         | (k, v) :: d' =>
             if String.eqb "replies" k then
               match v with
               | JList rs =>
                   (fix each (rs : list json) : list json :=
                      match rs with
                      | [] => []
                      | r :: rs' => comment_ids r ++ each rs'
                      end) rs
               | _ => []
               end
             else replies_of d'
         end) d
  | _ => []
  end.

(** The flattened ids of a sequence of comments. *)
Definition tree_ids (cs : list json) : list json := flat_map comment_ids cs.

(** The values [parse_comment_node] gives as an id: [None] or a string. *)
Definition is_id (v : json) : bool :=
  match v with
  | JNull | JStr _ => true
  | _ => false
  end.

(** The keys of the ids of a tree. *)
Definition id_keys (ids : list json) : gset key := list_to_set (omap key_of ids).

(** Each id of the tree appears once, and the seen set holds them all. *)
Definition dedup_inv (l : locals) : Prop :=
  exists cs,
    all_comments l = JList cs /\
    NoDup (tree_ids cs) /\
    Forall (fun v => is_id v = true) (tree_ids cs) /\
    id_keys (tree_ids cs) ⊆ seen_comment_ids l.

(** The same of a persisted checkpoint. *)
Definition checkpoint_ok (state : json) : Prop :=
  exists cs ids,
    py_get state "comments" = Ok (JList cs) /\
    py_get state "seen_comment_ids" = Ok (JList ids) /\
    NoDup (tree_ids cs) /\
    Forall (fun v => is_id v = true /\ v ∈ ids) (tree_ids cs).

(** Every write of the trace to [path] is a checkpoint that is in order. *)
Definition writes_ok (path : string) (t : list effect) : Prop :=
  Forall (fun e => match e with
                   | EWrite p c => p = path -> checkpoint_ok c
                   | _ => True
                   end) t.

(** What a step that only talks to the network may do to the world: events
    are consumed, effects other than file effects are logged. *)
Definition is_file_effect (e : effect) : bool :=
  match e with
  | EWrite _ _ | EUnlink _ => true
  | _ => false
  end.

Definition file_effects (t : list effect) : list effect :=
  List.filter is_file_effect t.

Definition quiet (w w' : world) : Prop :=
  files w' = files w /\ clock w' = clock w /\
  (length (pending w') <= length (pending w))%nat /\
  file_effects (trace w') = file_effects (trace w).

(** ** Post URLs *)

(** The characters that end a shortcode: [/], [?] and [#]. *)
Definition is_delim (c : ascii) : bool :=
  Ascii.eqb c "/" || Ascii.eqb c "?" || Ascii.eqb c "#".

Fixpoint no_delim (s : string) : bool :=
  match s with
  | EmptyString => true
  | String c s' => negb (is_delim c) && no_delim s'
  end.

(** [url] holds, somewhere, [instagram.com/<kind>/<code>] with a kind among
    [p], [reel] and [tv], and [code] is all there is up to the next
    delimiter or the end. *)
Definition post_url_match (url code : string) : Prop :=
  exists pre kind rest,
    url = pre +:+ "instagram.com/" +:+ kind +:+ "/" +:+ code +:+ rest /\
    kind ∈ ["p"; "reel"; "tv"] /\
    code <> EmptyString /\ no_delim code = true /\
    match rest with
    | EmptyString => True
    | String c _ => is_delim c = true
    end.

(** The characters of a string. *)
Definition chars (s : string) : list ascii := String.list_ascii_of_string s.

(** ** Connections *)

(** An entry of [data] that [find_connection_in_data] accepts: a dict under
    a key that ends with one of the suffixes. *)
Definition connection_entry (suffixes : list string) (kv : string * json) : bool :=
  is_dict kv.2 && existsb (endswith kv.1) suffixes.

(** ** Fetches *)

(** What a fetch does: it leaves the checkpoints and outputs alone (raw
    responses are saved as effects of their own), consumes at
    most one pending event and sends at most one request for each of the
    configured attempts, and raises nothing but the interrupt or the
    [ValueError] of [build_request]; a payload that counts as one took an
    event. *)
Definition fetched (self : crawler) (w : world) (r : res json) (w' : world)
  : Prop :=
  quiet w w' /\
  (exists used,
     pending w = used ++ pending w' /\
     (length used <= Z.to_nat (retry_attempts self))%nat) /\
  (requests (trace w') <= requests (trace w) + Z.to_nat (retry_attempts self))%nat /\
  match r with
  | Ok j => truthy j = true -> (length (pending w') < length (pending w))%nat
  | Exc e => e = KeyboardInterrupt \/ e = ValueError "Endpoint URL missing"
  | OutOfFuel => False
  end.

(** ** Identity resolution *)

(** The example crawler with a lookup endpoint configured. *)
Definition lookup_crawler : crawler :=
  {| post_by_shortcode := Some (demo_endpoint "https://example.test/post");
     comments := comments demo_crawler;
     comment_replies := comment_replies demo_crawler;
     requests_per_minute := requests_per_minute demo_crawler;
     retry_attempts := retry_attempts demo_crawler;
     retry_delay := retry_delay demo_crawler;
     max_comments := max_comments demo_crawler;
     fetch_replies := fetch_replies demo_crawler;
     resume_by_default := resume_by_default demo_crawler;
     comments_first := comments_first demo_crawler;
     replies_first := replies_first demo_crawler;
     save_raw_mode := save_raw_mode demo_crawler;
     page_retry_attempts := page_retry_attempts demo_crawler;
     page_retry_delay := page_retry_delay demo_crawler;
     data_dir := data_dir demo_crawler |}.

(** ** The loop *)

(** What a piece of the loop establishes from a state: [Q] of the value it
    returns, [E] of the exception it raises, each with the state reached.
    A run that is cut for lack of fuel establishes nothing. *)
Definition wp {A} (m : L A) (Q : A -> locals -> world -> Prop)
  (E : exn -> locals -> world -> Prop) (l : locals) (w : world) : Prop :=
  match m l w with
  | (Ok a, l', w') => Q a l' w'
  | (Exc e, l', w') => E e l' w'
  | (OutOfFuel, _, _) => False
  end.

(** A result of pure code: a value, or an exception that is not the
    [StopIteration] by which the loop leaves at the maximum. *)
Definition plain {A} (r : res A) : Prop :=
  match r with
  | Ok _ => True
  | Exc e => e <> StopIteration
  | OutOfFuel => False
  end.

(** [datetime.utcfromtimestamp] returns or raises an error of its own. *)
Definition plain_lib `{PyLib} : Prop := forall n, plain (utc_isoformat n).

(** No more than [n] events are pending. *)
Definition within {A} (n : nat) (_ : A) (_ : locals) (w : world) : Prop :=
  (length (pending w) <= n)%nat.

(** The same where an exception was raised; [StopIteration] comes with the
    stop reason of the maximum. *)
Definition stopped (n : nat) (e : exn) (l : locals) (w : world) : Prop :=
  (length (pending w) <= n)%nat /\
  (e = StopIteration -> stop_reason l = Some MaxReached).

(** Code that ends, uses events up without adding any, and raises
    [StopIteration] only with that stop reason. *)
Definition steady {A} (m : L A) : Prop :=
  forall l w, wp m (within (length (pending w))) (stopped (length (pending w))) l w.

(** What bounds the passes of the loop that are left: a pass that goes on
    used an event up, or spent the one backtrack. *)
Definition measure (l : locals) (w : world) : nat :=
  (2 * length (pending w) + (if backtrack_used l then 0 else 1))%nat.

(** What a pass of the loop leaves: no more events than [n], and a stop
    reason where it leaves the loop. *)
Definition pass_post (n : nat) (what : flow) (l : locals) (w : world) : Prop :=
  (length (pending w) <= n)%nat /\ (what = Break -> is_Some (stop_reason l)).

(** ** The end of a crawl *)

(** What a crawl of the post [shortcode] that returned [result] has left in
    the world [w']: the result is the record [d] with its [output_path]
    added; [d] names a stop reason and the length of its comments, and is
    what the output file holds; the checkpoint is gone when the reason is
    [no_more_pages], and otherwise holds the same post, comments, pages and
    stop reason, not marked complete. *)
Definition finalized (self : crawler) (shortcode : string) (result : json)
  (w' : world) : Prop :=
  exists d reason path n,
    result = JDict (dict_set "output_path" (JStr path) d) /\
    dict_lookup "output_path" d = None /\
    dict_get d "stop_reason" = JStr (stop_name reason) /\
    py_len (dict_get d "comments") = Ok n /\
    dict_get d "comment_count" = JInt (Z.of_nat n) /\
    files w' !! path = Some (Doc (JDict d)) /\
    if decide (reason = NoMorePages)
    then load_resume_state self shortcode w' = JNull
    else exists state,
        load_resume_state self shortcode w' = JDict state /\
        dict_get state "complete" = JBool false /\
        dict_get state "stop_reason" = JStr (stop_name reason) /\
        dict_get state "post" = dict_get d "post" /\
        dict_get state "comments" = dict_get d "comments" /\
        dict_get state "pages" = dict_get d "pages".

(** ** The dedup invariant along the loop *)

(** What a piece of the loop establishes of the locals when it returns
    ([Q]) or raises ([E]), from the locals [l] and in whatever world. *)
Definition sound {A} (m : L A) (Q : A -> locals -> Prop) (E : locals -> Prop)
  (l : locals) : Prop :=
  forall w,
    match m l w with
    | (Ok a, l', _) => Q a l'
    | (Exc _, l', _) => E l'
    | (OutOfFuel, _, _) => True
    end.

(** Code that leaves the locals as they are. *)
Definition keeps_locals {A} (m : L A) : Prop := forall l w, (m l w).1.2 = l.

(** The dedup invariant while a comment is being built: [building] are the
    ids of the comment and of the replies gathered for it so far, which are
    seen already and will join the tree when the comment is appended. *)
Definition dedup_with (building : list json) (l : locals) : Prop :=
  exists cs,
    all_comments l = JList cs /\
    NoDup (tree_ids cs ++ building) /\
    Forall (fun v => is_id v = true) (tree_ids cs ++ building) /\
    id_keys (tree_ids cs ++ building) ⊆ seen_comment_ids l.

(** The list under the first [replies] key of a record. *)
Fixpoint reply_list (d : list (string * json)) : list json :=
  match d with
  | [] => []
  | (k, v) :: d' =>
      if String.eqb "replies" k then
        match v with
        | JList rs => rs
        | _ => []
        end
      else reply_list d'
  end.

(** The checkpoint that a crawl of [post_url] would resume from, if there
    is one, is in order. *)
Definition resumable (self : crawler) (post_url : string) (w : world) : Prop :=
  forall shortcode,
    extract_shortcode post_url = Some shortcode ->
    truthy (load_resume_state self shortcode w) = true ->
    checkpoint_ok (load_resume_state self shortcode w).

(** ** Endpoints and the network *)


(** The example crawler with a comments endpoint that has no URL. *)
Definition broken_crawler : crawler :=
  {| post_by_shortcode := None;
     comments :=
       Some {| ep_type := Some "graphql"; ep_method := Some "POST";
               ep_url := None; ep_doc_id := Some "123";
               ep_query_hash := None; ep_params := None;
               ep_variables := None |};
     comment_replies := comment_replies demo_crawler;
     requests_per_minute := requests_per_minute demo_crawler;
     retry_attempts := retry_attempts demo_crawler;
     retry_delay := retry_delay demo_crawler;
     max_comments := max_comments demo_crawler;
     fetch_replies := fetch_replies demo_crawler;
     resume_by_default := resume_by_default demo_crawler;
     comments_first := comments_first demo_crawler;
     replies_first := replies_first demo_crawler;
     save_raw_mode := save_raw_mode demo_crawler;
     page_retry_attempts := page_retry_attempts demo_crawler;
     page_retry_delay := page_retry_delay demo_crawler;
     data_dir := data_dir demo_crawler |}.

(** ** The maximum *)



(** Between two comments, while the loop goes on: there are no more
    comments than seen ids, and the seen ids are fewer than [m] (none at
    all when [m] is less than one). *)
Definition cap_inv (m : Z) (l : locals) : Prop :=
  exists cs,
    all_comments l = JList cs /\
    (length cs <= size (seen_comment_ids l))%nat /\
    Z.of_nat (size (seen_comment_ids l)) < Z.max 1 m /\
    stop_reason l = None.

(** When the loop has stopped at the end of a page or for want of one. *)
Definition cap_done (m : Z) (l : locals) : Prop :=
  exists cs,
    all_comments l = JList cs /\
    (length cs <= size (seen_comment_ids l))%nat /\
    Z.of_nat (size (seen_comment_ids l)) < Z.max 1 m /\
    stop_reason l <> Some MaxReached.





(** ** The configuration loader *)

(** [ConfigLoader._deep_update(base, update)], on the entries of two dicts:
    the entries of [update] are taken in order; an entry whose value is a
    dict, under a key that [base] binds to a dict, is merged into that dict,
    and any other entry is assigned. The result is [base] after the call,
    which changes it in place. *)
Fixpoint deep_update_with (update : json) (base : list (string * json))
  : list (string * json) :=
  match update with
  | JDict entries =>
      (fix items (entries : list (string * json)) (base : list (string * json)) :=
         match entries with
         | [] => base
         | (key, value) :: entries' =>
             items entries'
               (match dict_lookup key base, value with
                | Some (JDict b), JDict _ =>
                    dict_set key (JDict (deep_update_with value b)) base
                | _, _ => dict_set key value base
                end)
         end) entries base
  | _ => base
  end.

Definition deep_update (base update : list (string * json))
  : list (string * json) :=
  deep_update_with (JDict update) base.

(** [key_path.split(".")] *)
Fixpoint split_dots (s : string) : list string :=
  match s with
  | EmptyString => [EmptyString]
  | String c s' =>
      if Ascii.eqb c "." then EmptyString :: split_dots s'
      else
        match split_dots s' with
        | [] => [String c EmptyString]
        | part :: parts => String c part :: parts
        end
  end.

(** The loop of [ConfigLoader.get] over the keys of the path. *)
Fixpoint config_walk (value : json) (keys : list string) (default : json)
  : json :=
  match keys with
  | [] => value
  | key :: rest =>
      match value with
      | JDict d =>
          match dict_lookup key d with
          | Some v => config_walk v rest default
          | None => default
          end
      | _ => default
      end
  end.

(** [ConfigLoader.get(key_path, default)] on the loaded [config]. *)
Definition config_get (config : json) (key_path : string) (default : json)
  : json :=
  config_walk config (split_dots key_path) default.

(** What [_deep_update] leaves under a key that the update binds to
    [value]. *)
Definition merged (base : list (string * json)) (key : string) (value : json)
  : json :=
  match dict_lookup key base, value with
  | Some (JDict b), JDict u => JDict (deep_update b u)
  | _, _ => value
  end.

(** ** The checkpoint as a file *)

(** The store of the crawl keeps documents; here the checkpoint is followed
    down to the bytes of its file: [json.dumps(state, ensure_ascii=False,
    indent=2)], [Path.write_text(..., encoding="utf-8")],
    [Path.read_text(encoding="utf-8")] and [json.loads].

    A [str] is held as the bytes of its UTF-8 form. A lone surrogate, which
    UTF-8 has no form for, is held as the three bytes [ED A0..BF 80..BF] that
    the same scheme would give it; such a [str] is the one that
    [str.encode("utf-8")] refuses. *)

Definition dquote : ascii := Eval cbv in ascii_of_nat 34.

(** *** [json.dumps(v, ensure_ascii=False, indent=2)] *)

Definition hex_digit (n : nat) : ascii :=
  if (n <? 10)%nat then ascii_of_nat (48 + n) else ascii_of_nat (87 + n).

(** One character of a string as the encoder writes it, before [rest]: the
    quote, the backslash and the characters below U+0020 are escaped, every
    other character is written as it is. *)
Definition escape_char (c : ascii) (rest : string) : string :=
  if Ascii.eqb c dquote then String "\" (String dquote rest)
  else if Ascii.eqb c "\" then String "\" (String "\" rest)
  else if Ascii.eqb c "010" then String "\" (String "n" rest)
  else if Ascii.eqb c "013" then String "\" (String "r" rest)
  else if Ascii.eqb c "009" then String "\" (String "t" rest)
  else if Ascii.eqb c "008" then String "\" (String "b" rest)
  else if Ascii.eqb c "012" then String "\" (String "f" rest)
  else if (nat_of_ascii c <? 32)%nat then
    String "\" (String "u" (String "0" (String "0"
      (String (hex_digit (nat_of_ascii c / 16))
         (String (hex_digit (nat_of_ascii c mod 16)) rest)))))
  else String c rest.

Fixpoint escape (s rest : string) : string :=
  match s with
  | EmptyString => rest
  | String c s' => escape_char c (escape s' rest)
  end.

Definition dump_str (s rest : string) : string :=
  String dquote (escape s (String dquote rest)).

Fixpoint indent (level : nat) (rest : string) : string :=
  match level with
  | O => rest
  | S level => String " " (String " " (indent level rest))
  end.

Definition newline (level : nat) (rest : string) : string :=
  String "010" (indent level rest).

(** The text of [v] at nesting depth [level], followed by [rest]. *)
Fixpoint dump (v : json) (level : nat) (rest : string) : string :=
  match v with
  | JNull => "null" +:+ rest
  | JBool true => "true" +:+ rest
  | JBool false => "false" +:+ rest
  | JInt n => pretty n +:+ rest
  | JStr s => dump_str s rest
  | JList [] => "[]" +:+ rest
  | JList l =>
      String "["
        ((fix elems (l : list json) : string :=
            match l with
            | [] => rest
            | x :: l' =>
                newline (S level)
                  (dump x (S level)
                     match l' with
                     | [] => newline level (String "]" rest)
                     | _ => String "," (elems l')
                     end)
            end) l)
  | JDict [] => "{}" +:+ rest
  | JDict d =>
      String "{"
        ((fix members (d : list (string * json)) : string :=
            match d with
            | [] => rest
            | (k, x) :: d' =>
                newline (S level)
                  (dump_str k
                     (String ":" (String " "
                        (dump x (S level)
                           match d' with
                           | [] => newline level (String "}" rest)
                           | _ => String "," (members d')
                           end))))
            end) d)
  end.

(** The elements of a list and the members of a dict as [dump] writes them
    after the opening bracket. *)
Fixpoint dump_elems (level : nat) (rest : string) (l : list json) : string :=
  match l with
  | [] => rest
  | x :: l' =>
      newline (S level)
        (dump x (S level)
           match l' with
           | [] => newline level (String "]" rest)
           | _ => String "," (dump_elems level rest l')
           end)
  end.

Fixpoint dump_members (level : nat) (rest : string)
  (d : list (string * json)) : string :=
  match d with
  | [] => rest
  | (k, x) :: d' =>
      newline (S level)
        (dump_str k
           (String ":" (String " "
              (dump x (S level)
                 match d' with
                 | [] => newline level (String "}" rest)
                 | _ => String "," (dump_members level rest d')
                 end))))
  end.

Definition dumps (v : json) : string := dump v 0 EmptyString.

(** *** UTF-8 *)

Definition continuation (c : ascii) : bool := ascii_between "128" "191" c.

Definition two_bytes (b1 b2 : ascii) : bool :=
  ascii_between "194" "223" b1 && continuation b2.

Definition three_bytes (b1 b2 b3 : ascii) : bool :=
  (Ascii.eqb b1 "224" && ascii_between "160" "191" b2 ||
   ascii_between "225" "236" b1 && continuation b2 ||
   Ascii.eqb b1 "237" && ascii_between "128" "159" b2 ||
   ascii_between "238" "239" b1 && continuation b2) &&
  continuation b3.

Definition four_bytes (b1 b2 b3 b4 : ascii) : bool :=
  (Ascii.eqb b1 "240" && ascii_between "144" "191" b2 ||
   ascii_between "241" "243" b1 && continuation b2 ||
   Ascii.eqb b1 "244" && ascii_between "128" "143" b2) &&
  continuation b3 && continuation b4.

(** The bytes are the UTF-8 form of a text: every character is one of the
    well-formed sequences, none of them a surrogate. *)
Fixpoint utf8_valid (s : string) : bool :=
  match s with
  | EmptyString => true
  | String b1 s1 =>
      if ascii_between "000" "127" b1 then utf8_valid s1
      else
        match s1 with
        | EmptyString => false
        | String b2 s2 =>
            if two_bytes b1 b2 then utf8_valid s2
            else
              match s2 with
              | EmptyString => false
              | String b3 s3 =>
                  if three_bytes b1 b2 b3 then utf8_valid s3
                  else
                    match s3 with
                    | EmptyString => false
                    | String b4 s4 => four_bytes b1 b2 b3 b4 && utf8_valid s4
                    end
              end
        end
  end.

(** [text.encode("utf-8")], or nothing where it raises [UnicodeEncodeError]. *)
Definition utf8_encode (text : string) : option string :=
  if utf8_valid text then Some text else None.

(** [data.decode("utf-8")], or nothing where it raises [UnicodeDecodeError]. *)
Definition utf8_decode (data : string) : option string :=
  if utf8_valid data then Some data else None.

(** The character of code point [n], before [rest]. *)
Definition utf8_of_code (n : N) (rest : string) : string :=
  if (n <? 128)%N then String (ascii_of_N n) rest
  else if (n <? 2048)%N then
    String (ascii_of_N (192 + n / 64))
      (String (ascii_of_N (128 + n mod 64)) rest)
  else if (n <? 65536)%N then
    String (ascii_of_N (224 + n / 4096))
      (String (ascii_of_N (128 + (n / 64) mod 64))
         (String (ascii_of_N (128 + n mod 64)) rest))
  else
    String (ascii_of_N (240 + n / 262144))
      (String (ascii_of_N (128 + (n / 4096) mod 64))
         (String (ascii_of_N (128 + (n / 64) mod 64))
            (String (ascii_of_N (128 + n mod 64)) rest))).

(** *** [json.loads] *)

(** What a step of the decoder comes to: a value, the [JSONDecodeError] it
    raises, a number with a fraction or an exponent (a float, which is not a
    value of this model), or the end of the fuel. *)
Inductive decoded (A : Type) :=
| Got (a : A)
| Bad
| Beyond
| Dry.
Arguments Got {A} a.
Arguments Bad {A}.
Arguments Beyond {A}.
Arguments Dry {A}.

Definition decoded_bind {A B} (r : decoded A) (k : A -> decoded B)
  : decoded B :=
  match r with
  | Got a => k a
  | Bad => Bad
  | Beyond => Beyond
  | Dry => Dry
  end.

Declare Scope decoded_scope.
Delimit Scope decoded_scope with decoded.
Notation "x <-& c ; k" := (decoded_bind c (fun x => k))
  (at level 100, c at next level, right associativity) : decoded_scope.

Definition is_ws (c : ascii) : bool :=
  Ascii.eqb c " " || Ascii.eqb c "009" || Ascii.eqb c "010" ||
  Ascii.eqb c "013".

Fixpoint skip_ws (s : string) : string :=
  match s with
  | EmptyString => EmptyString
  | String c s' => if is_ws c then skip_ws s' else s
  end.

Definition is_digit (c : ascii) : bool := ascii_between "0" "9" c.

Definition digit_value (c : ascii) : N := N.of_nat (nat_of_ascii c - 48).

Definition hex_value (c : ascii) : option N :=
  if is_digit c then Some (digit_value c)
  else if ascii_between "a" "f" c then Some (N.of_nat (nat_of_ascii c - 87))
  else if ascii_between "A" "F" c then Some (N.of_nat (nat_of_ascii c - 55))
  else None.

Definition hex4 (h1 h2 h3 h4 : ascii) : option N :=
  match hex_value h1, hex_value h2, hex_value h3, hex_value h4 with
  | Some a, Some b, Some c, Some d => Some (((a * 16 + b) * 16 + c) * 16 + d)%N
  | _, _, _, _ => None
  end.

Definition unescape (e : ascii) : option ascii :=
  if Ascii.eqb e dquote then Some dquote
  else if Ascii.eqb e "\" then Some "\"%char
  else if Ascii.eqb e "/" then Some "/"%char
  else if Ascii.eqb e "b" then Some "008"%char
  else if Ascii.eqb e "f" then Some "012"%char
  else if Ascii.eqb e "n" then Some "010"%char
  else if Ascii.eqb e "r" then Some "013"%char
  else if Ascii.eqb e "t" then Some "009"%char
  else None.

Definition high_surrogate (n : N) : bool := (55296 <=? n)%N && (n <=? 56319)%N.
Definition low_surrogate (n : N) : bool := (56320 <=? n)%N && (n <=? 57343)%N.

Definition onto (put : string -> string) (r : decoded (string * string))
  : decoded (string * string) :=
  match r with
  | Got (s, rest) => Got (put s, rest)
  | other => other
  end.

(** [py_scanstring] past the opening quote, in strict mode: the string up to
    its closing quote and what follows it. *)
Fixpoint scan_string (s : string) : decoded (string * string) :=
  match s with
  | EmptyString => Bad
  | String c s1 =>
      if Ascii.eqb c dquote then Got (EmptyString, s1)
      else if Ascii.eqb c "\" then
        match s1 with
        | EmptyString => Bad
        | String e s2 =>
            if Ascii.eqb e "u" then
              match s2 with
              | String h1 (String h2 (String h3 (String h4 s6))) =>
                  match hex4 h1 h2 h3 h4 with
                  | None => Bad
                  | Some uni =>
                      if high_surrogate uni then
                        match s6 with
                        | String e1 (String e2 s8) =>
                            if Ascii.eqb e1 "\" && Ascii.eqb e2 "u" then
                              match s8 with
                              | String g1 (String g2 (String g3 (String g4 s12))) =>
                                  match hex4 g1 g2 g3 g4 with
                                  | None => Bad
                                  | Some uni2 =>
                                      if low_surrogate uni2 then
                                        onto
                                          (utf8_of_code
                                             (65536 + (uni - 55296) * 1024
                                              + (uni2 - 56320)))
                                          (scan_string s12)
                                      else
                                        onto (utf8_of_code uni) (scan_string s6)
                                  end
                              | _ => Bad
                              end
                            else onto (utf8_of_code uni) (scan_string s6)
                        | _ => onto (utf8_of_code uni) (scan_string s6)
                        end
                      else onto (utf8_of_code uni) (scan_string s6)
                  end
              | _ => Bad
              end
            else
              match unescape e with
              | Some b => onto (String b) (scan_string s2)
              | None => Bad
              end
        end
      else if (nat_of_ascii c <? 32)%nat then Bad
      else onto (String c) (scan_string s1)
  end.

Fixpoint scan_digits (acc : N) (s : string) : N * string :=
  match s with
  | EmptyString => (acc, EmptyString)
  | String c s' =>
      if is_digit c then scan_digits (acc * 10 + digit_value c) s' else (acc, s)
  end.

Definition starts_digit (s : string) : bool :=
  match s with
  | EmptyString => false
  | String c _ => is_digit c
  end.

(** A fraction [\.[0-9]+] or an exponent [[eE][-+]?[0-9]+] is at the head
    of [s]. *)
Definition float_tail (s : string) : bool :=
  match s with
  | EmptyString => false
  | String c s' =>
      if Ascii.eqb c "." then starts_digit s'
      else if Ascii.eqb c "e" || Ascii.eqb c "E" then
        match s' with
        | EmptyString => false
        | String c' s'' =>
            if Ascii.eqb c' "+" || Ascii.eqb c' "-" then starts_digit s''
            else is_digit c'
        end
      else false
  end.

(** The number at the head of [s]: an optional sign, then [0] alone or a
    digit from 1 to 9 and the digits after it; an [int] unless a fraction or
    an exponent follows. [NaN], [Infinity] and [-Infinity] are floats too. *)
Definition scan_number (s : string) : decoded (Z * string) :=
  let '(neg, s1) :=
    match s with
    | EmptyString => (false, s)
    | String c s' => if Ascii.eqb c "-" then (true, s') else (false, s)
    end in
  match s1 with
  | EmptyString => Bad
  | String c s2 =>
      if is_digit c then
        let '(n, rest) :=
          if Ascii.eqb c "0" then (0%N, s2)
          else scan_digits (digit_value c) s2 in
        if float_tail rest then Beyond
        else Got (if (neg : bool) then - Z.of_N n else Z.of_N n, rest)
      else if startswith s1 "Infinity" || startswith s "NaN" then Beyond
      else Bad
  end.

(** [scan_once], [JSONArray] and [JSONObject]: the value at the head of [s],
    the elements of an array from its first value on, the pairs of an object
    from its first key on. An object is the [dict] of its pairs: of two
    equal keys the first keeps its place and the last its value. *)
Fixpoint parse_value (fuel : nat) (s : string) : decoded (json * string) :=
  match fuel with
  | O => Dry
  | S fuel =>
      match s with
      | EmptyString => Bad
      | String c s' =>
          if Ascii.eqb c dquote then
            (p <-& scan_string s';
             let '(str, rest) := p in Got (JStr str, rest))%decoded
          else if Ascii.eqb c "{" then
            match skip_ws s' with
            | EmptyString => Bad
            | String c1 s1 =>
                if Ascii.eqb c1 "}" then Got (JDict [], s1)
                else
                  (p <-& parse_members fuel (String c1 s1);
                   let '(pairs, rest) := p in
                   Got (JDict (dict_update [] pairs), rest))%decoded
            end
          else if Ascii.eqb c "[" then
            match skip_ws s' with
            | EmptyString => Bad
            | String c1 s1 =>
                if Ascii.eqb c1 "]" then Got (JList [], s1)
                else
                  (p <-& parse_elements fuel (String c1 s1);
                   let '(l, rest) := p in Got (JList l, rest))%decoded
            end
          else
            match strip_prefix "null" s, strip_prefix "true" s,
                  strip_prefix "false" s with
            | Some rest, _, _ => Got (JNull, rest)
            | _, Some rest, _ => Got (JBool true, rest)
            | _, _, Some rest => Got (JBool false, rest)
            | _, _, _ =>
                (p <-& scan_number s;
                 let '(n, rest) := p in Got (JInt n, rest))%decoded
            end
      end
  end
with parse_elements (fuel : nat) (s : string)
  : decoded (list json * string) :=
  match fuel with
  | O => Dry
  | S fuel =>
      (p <-& parse_value fuel s;
       let '(v, rest) := p in
       match skip_ws rest with
       | EmptyString => Bad
       | String c rest' =>
           if Ascii.eqb c "]" then Got ([v], rest')
           else if Ascii.eqb c "," then
             (p <-& parse_elements fuel (skip_ws rest');
              let '(l, rest'') := p in Got (v :: l, rest''))%decoded
           else Bad
       end)%decoded
  end
with parse_members (fuel : nat) (s : string)
  : decoded (list (string * json) * string) :=
  match fuel with
  | O => Dry
  | S fuel =>
      match s with
      | EmptyString => Bad
      | String c s1 =>
          if Ascii.eqb c dquote then
            (p <-& scan_string s1;
             let '(key, rest) := p in
             match skip_ws rest with
             | EmptyString => Bad
             | String c2 rest2 =>
                 if Ascii.eqb c2 ":" then
                   (p <-& parse_value fuel (skip_ws rest2);
                    let '(v, rest3) := p in
                    match skip_ws rest3 with
                    | EmptyString => Bad
                    | String c3 rest4 =>
                        if Ascii.eqb c3 "}" then Got ([(key, v)], rest4)
                        else if Ascii.eqb c3 "," then
                          (p <-& parse_members fuel (skip_ws rest4);
                           let '(d, rest5) := p in
                           Got ((key, v) :: d, rest5))%decoded
                        else Bad
                    end)%decoded
                 else Bad
             end)%decoded
          else Bad
      end
  end.

(** [json.loads(text)]: one value, with nothing but white space around
    it. The fuel outlasts every text ([loads_total]). *)
Definition loads (text : string) : decoded json :=
  (p <-& parse_value (2 * String.length text + 2) (skip_ws text);
   let '(v, rest) := p in
   match skip_ws rest with
   | EmptyString => Got v
   | String _ _ => Bad
   end)%decoded.

(** *** The files *)

(** What every path holds, byte for byte, and the clock. *)
Record disk := {
  stored : gmap string string;
  now : nat;
}.

(** [Path.write_text(text, encoding="utf-8")]: the file is opened for
    writing, and so emptied, before the text is encoded. The line separator
    of the platform is the newline, so that the text is written as it
    is. *)
Definition write_text (path text : string) (d : disk) : res unit * disk :=
  match utf8_encode text with
  | Some data =>
      (Ok (), {| stored := <[path := data]> (stored d); now := now d |})
  | None =>
      (Exc UnicodeEncodeError,
       {| stored := <[path := EmptyString]> (stored d); now := now d |})
  end.

(** The text with every line ending, ["\r\n"] or ["\r"] alone, turned into
    a newline, as a file opened for reading in text mode gives it. *)
Fixpoint universal_newlines (s : string) : string :=
  match s with
  | EmptyString => EmptyString
  | String c s' =>
      if Ascii.eqb c "013" then
        String "010"
          match s' with
          | EmptyString => EmptyString
          | String c' s'' =>
              if Ascii.eqb c' "010" then universal_newlines s''
              else universal_newlines s'
          end
      else String c (universal_newlines s')
  end.

(** [Path.read_text(encoding="utf-8")] on the bytes of a file, or nothing
    where it raises [UnicodeDecodeError]. *)
Definition read_text (data : string) : option string :=
  match utf8_decode data with
  | Some text => Some (universal_newlines text)
  | None => None
  end.

Section DiskStore.
Context `{Clock} (self : crawler).

(** [load_resume_state] on the files: whatever reading and decoding
    raise is caught, and [None] returned. A file that holds a float is
    beyond the values of this model. *)
Definition load_resume_state_disk (shortcode : string) (d : disk)
  : decoded json :=
  match stored d !! resume_path self shortcode with
  | None => Got JNull
  | Some data =>
      match read_text data with
      | None => Got JNull
      | Some text =>
          match loads text with
          | Got state => Got state
          | Bad => Got JNull
          | Beyond => Beyond
          | Dry => Dry
          end
      end
  end.

(** [save_resume_state] on the files. *)
Definition save_resume_state_disk (shortcode : string)
  (post_info comments : json) (seen_ids : gset key)
  (cursor last_cursor page expected_count : json)
  (stop_reason : option stop) (complete : bool) (d : disk)
  : res unit * disk :=
  match py_len comments with
  | Ok n =>
      let state :=
        JDict [("post", post_info);
               ("comment_count", JInt (Z.of_nat n));
               ("comments", comments);
               ("seen_comment_ids", py_list_of_set seen_ids);
               ("cursor", cursor);
               ("last_cursor", last_cursor);
               ("pages", page);
               ("expected_comment_count", expected_count);
               ("stop_reason", json_of_stop stop_reason);
               ("complete", JBool complete);
               ("updated_at", JStr (iso_now (now d) +:+ "Z"))] in
      write_text (resume_path self shortcode) (dumps state)
        {| stored := stored d; now := S (now d) |}
  | Exc e => (Exc e, d)
  | OutOfFuel => (OutOfFuel, d)
  end.

(** [clear_resume_state] on the files. *)
Definition clear_resume_state_disk (shortcode : string) (d : disk) : disk :=
  match stored d !! resume_path self shortcode with
  | Some _ =>
      {| stored := delete (resume_path self shortcode) (stored d);
         now := now d |}
  | None => d
  end.
End DiskStore.

(** The file is not the UTF-8 form of a JSON text: [read_text] raises
    [UnicodeDecodeError] or [json.loads] raises [JSONDecodeError]. *)
Definition invalid (data : string) : Prop :=
  match read_text data with
  | None => True
  | Some text => loads text = Bad
  end.

(** *** The files and the documents *)

(** The bytes [data] are what the store of documents keeps as [f]: a
    document is the value its file decodes to, and a file that does not
    decode is kept as corrupt. *)
Definition holds (data : string) (f : file) : Prop :=
  match f with
  | Doc v => exists text, read_text data = Some text /\ loads text = Got v
  | Corrupt _ => invalid data
  end.

(** The world [w] is the disk [d] seen through the decoder. *)
Definition agrees (d : disk) (w : world) : Prop :=
  now d = clock w /\
  forall path, option_Forall2 holds (stored d !! path) (files w !! path).

(** *** Checkpoints that can be stored *)

(** The keys of every mapping of [v] are distinct, as those of a [dict]
    are. *)
Fixpoint keys_distinct (v : json) : bool :=
  match v with
  | JList l =>
      (fix each (l : list json) : bool :=
         match l with
         | [] => true
         | x :: l' => keys_distinct x && each l'
         end) l
  | JDict d =>
      bool_decide (NoDup d.*1) &&
      (fix each (d : list (string * json)) : bool :=
         match d with
         | [] => true
         | (_, x) :: d' => keys_distinct x && each d'
         end) d
  | _ => true
  end.

(** Every string of [v], keys included, can be encoded: it holds no lone
    surrogate. *)
Fixpoint utf8_json (v : json) : bool :=
  match v with
  | JStr s => utf8_valid s
  | JList l =>
      (fix each (l : list json) : bool :=
         match l with
         | [] => true
         | x :: l' => utf8_json x && each l'
         end) l
  | JDict d =>
      (fix each (d : list (string * json)) : bool :=
         match d with
         | [] => true
         | (k, x) :: d' => utf8_valid k && utf8_json x && each d'
         end) d
  | _ => true
  end.

Definition storable (v : json) : bool := keys_distinct v && utf8_json v.

(** The fuel that decoding the text of [v] takes. *)
Fixpoint cost (v : json) : nat :=
  match v with
  | JList l =>
      S ((fix each (l : list json) : nat :=
            match l with
            | [] => O
            | x :: l' => S (cost x + each l')
            end) l)
  | JDict d =>
      S ((fix each (d : list (string * json)) : nat :=
            match d with
            | [] => O
            | (_, x) :: d' => S (cost x + each d')
            end) d)
  | _ => 1%nat
  end.

Fixpoint cost_elems (l : list json) : nat :=
  match l with
  | [] => O
  | x :: l' => S (cost x + cost_elems l')
  end.

Fixpoint cost_members (d : list (string * json)) : nat :=
  match d with
  | [] => O
  | (_, x) :: d' => S (cost x + cost_members d')
  end.

(** A number starts with [c]. *)
Definition number_head (c : ascii) : bool := is_digit c || Ascii.eqb c "-".

(** No carriage return is in [s]. *)
Fixpoint cr_free (s : string) : bool :=
  match s with
  | EmptyString => true
  | String c s' => negb (Ascii.eqb c "013") && cr_free s'
  end.

(** A number can end before [s]: no digit, fraction or exponent is at its
    head. *)
Definition number_end (s : string) : bool :=
  negb (starts_digit s) && negb (float_tail s).

(** * Properties *)

Lemma json_induction (P : json -> Prop) :
  P JNull -> (forall b, P (JBool b)) -> (forall n, P (JInt n)) ->
  (forall s, P (JStr s)) ->
  (forall l, Forall P l -> P (JList l)) ->
  (forall d, Forall (fun kv => P kv.2) d -> P (JDict d)) ->
  forall v, P v.
Proof.
  intros HN HB HI HS HL HD. fix IH 1.
  intros [ | b | n | s | l | d];
    [apply HN | apply HB | apply HI | apply HS | apply HL | apply HD].
  - induction l as [ | x l IHl]; constructor; [apply IH | apply IHl].
  - induction d as [ | [k x] d IHd]; constructor; [apply IH | apply IHd].
Qed.

Lemma rendered_ok_list l :
  rendered_ok (JList l) <-> Forall (fun x => x <> JNull /\ rendered_ok x) l.
Proof.
  induction l as [ | x l IH]; simpl.
  - split; auto.
  - rewrite Forall_cons. simpl in IH. rewrite IH. tauto.
Qed.

Lemma rendered_ok_dict d :
  rendered_ok (JDict d) <-> Forall (fun kv => kv.2 <> JNull /\ rendered_ok kv.2) d.
Proof.
  induction d as [ | [k x] d IH]; simpl.
  - split; auto.
  - rewrite Forall_cons. simpl in IH. rewrite IH. tauto.
Qed.

Lemma name_char_not_close c : is_name_char c = true -> c <> "}"%char.
Proof. intros Hc ->. vm_compute in Hc. discriminate. Qed.

Lemma name_then_close_sound s seen :
  name_then_close s seen = true ->
  exists name post,
    s = name +:+ String "}" post /\ all_name_chars name = true /\
    (seen = true \/ name <> EmptyString).
Proof.
  revert seen. induction s as [ | c s IH]; intros seen; simpl; [discriminate | ].
  destruct (is_name_char c) eqn:Hc.
  - intros Hs. destruct (IH _ Hs) as (name & post & -> & Hn & _).
    exists (String c name), post. simpl. rewrite Hc, Hn. split_and!; auto.
  - intros [Hclose ->]%andb_true_iff. apply Ascii.eqb_eq in Hclose as ->.
    exists EmptyString, s. auto.
Qed.

Lemma name_then_close_complete name post seen :
  all_name_chars name = true -> (seen = true \/ name <> EmptyString) ->
  name_then_close (name +:+ String "}" post) seen = true.
Proof.
  revert seen. induction name as [ | c name IH]; intros seen; simpl.
  - intros _ [-> | []]; auto.
  - intros [Hc Hn]%andb_true_iff _. rewrite Hc. destruct name; apply IH; auto.
Qed.

Lemma has_placeholder_spec s : has_placeholder s = true <-> placeholder_in s.
Proof.
  split.
  - induction s as [ | c s IH]; simpl; [discriminate | ].
    intros [[Hc Hs]%andb_true_iff | Hs]%orb_true_iff.
    + apply Ascii.eqb_eq in Hc as ->.
      destruct (name_then_close_sound _ _ Hs) as (name & post & -> & Hn & [? | Hne]);
        [discriminate | ].
      by exists EmptyString, name, post.
    + destruct (IH Hs) as (pre & name & post & -> & Hne & Hn).
      by exists (String c pre), name, post.
  - intros (pre & name & post & -> & Hne & Hn).
    induction pre as [ | c pre IH]; simpl.
    + rewrite name_then_close_complete; auto.
    + rewrite IH. apply orb_true_r.
Qed.

Section TemplateFacts.
Context `{PyLib}.

Lemma render_string_ok s variables : rendered_ok (render_string s variables).
Proof.
  unfold render_string. destruct (substitute s variables) as [s' | ]; simpl; auto.
  destruct (has_placeholder s') eqn:Hp; simpl; auto.
  rewrite <- has_placeholder_spec, Hp. discriminate.
Qed.

Lemma dict_set_entries (P : json -> Prop) k v d :
  P v -> Forall (fun kv => P kv.2) d -> Forall (fun kv => P kv.2) (dict_set k v d).
Proof.
  intros Hv. induction 1 as [ | [k' v'] d Hx Hd IH]; simpl.
  - by constructor.
  - destruct (String.eqb k k'); constructor; auto.
Qed.

Lemma render_template_list l variables :
  render_template (JList l) variables =
  JList (drop_null (map (fun x => render_template x variables) l)).
Proof.
  simpl. f_equal. induction l as [ | x l IH]; [done | ].
  rewrite map_cons, IH. cbn [drop_null].
  by destruct (render_template x variables).
Qed.

Lemma render_template_dict d variables :
  render_template (JDict d) variables =
  JDict (fold_left
           (fun rendered kv =>
              match render_template kv.2 variables with
              | JNull => rendered
              | rv => dict_set kv.1 rv rendered
              end) d []).
Proof.
  simpl. f_equal. generalize (@nil (string * json)) as acc.
  induction d as [ | [k x] d IH]; intros acc; [done | ].
  cbn [fold_left fst snd].
  destruct (render_template x variables) eqn:Hr; by rewrite IH.
Qed.

Lemma dict_set_fresh k v (d : list (string * json)) :
  k ∉ d.*1 -> dict_set k v d = d ++ [(k, v)].
Proof.
  induction d as [ | [k' v'] d IH]; simpl; [done | ].
  intros [Hne Hk]%not_elem_of_cons.
  destruct (String.eqb k k') eqn:Hkk; [by apply String.eqb_eq in Hkk | ].
  by rewrite IH.
Qed.

Lemma drop_null_entries_keys k (d : list (string * json)) :
  k ∈ (drop_null_entries d).*1 -> k ∈ d.*1.
Proof.
  induction d as [ | [k' v'] d IH]; simpl; [done | ].
  destruct v'; simpl; rewrite ?elem_of_cons; intuition.
Qed.

Lemma render_template_entries d variables :
  NoDup d.*1 ->
  render_template (JDict d) variables =
  JDict (drop_null_entries
           (map (fun kv => (kv.1, render_template kv.2 variables)) d)).
Proof.
  intros Hd. rewrite render_template_dict. f_equal.
  set (entries d :=
         drop_null_entries
           (map (fun kv : string * json =>
                   (kv.1, render_template kv.2 variables)) d)).
  enough (Hgen : forall acc,
             (forall k, k ∈ d.*1 -> k ∉ acc.*1) ->
             fold_left
               (fun rendered (kv : string * json) =>
                  match render_template kv.2 variables with
                  | JNull => rendered
                  | rv => dict_set kv.1 rv rendered
                  end) d acc = acc ++ entries d)
    by (apply (Hgen []); intros k _; apply not_elem_of_nil).
  induction d as [ | [k x] d IH]; intros acc Hacc.
  - by rewrite app_nil_r.
  - apply NoDup_cons in Hd as [Hk Hd].
    assert (Hfresh : k ∉ acc.*1) by (apply Hacc; left).
    assert (Hrest : forall v k', k' ∈ d.*1 -> k' ∉ (acc ++ [(k, v)]).*1).
    { intros v k' Hk'. rewrite fmap_app, elem_of_app. intros [Hin | Hin].
      - by apply (Hacc k'); [right | ].
      - apply list_elem_of_singleton in Hin. simpl in Hin. by subst k'. }
    unfold entries. cbn [fold_left map fst snd drop_null_entries].
    fold (entries d).
    destruct (render_template x variables) eqn:Hr;
      rewrite ?dict_set_fresh by done;
      rewrite IH; try done; try (by apply Hrest);
      try (intros k' Hk'; apply Hacc; by right);
      by rewrite <- app_assoc.
Qed.

Lemma render_string_dropped s variables :
  render_template (JStr s) variables = JNull <-> dropped_leaf variables s.
Proof.
  unfold dropped_leaf. simpl. unfold render_string.
  destruct (substitute s variables) as [s' | ]; [ | done].
  rewrite <- has_placeholder_spec. by destruct (has_placeholder s').
Qed.

Lemma render_string_kept s s' variables :
  substitute s variables = Some s' -> ~ placeholder_in s' ->
  render_template (JStr s) variables = JStr s'.
Proof.
  intros Hs Hp. simpl. unfold render_string. rewrite Hs.
  rewrite <- has_placeholder_spec in Hp. by destruct (has_placeholder s').
Qed.

Lemma render_template_ok value variables :
  rendered_ok (render_template value variables).
Proof.
  induction value as [ | b | n | s | l IH | d IH] using json_induction;
    try exact I.
  - apply render_string_ok.
  - rewrite render_template_list. apply rendered_ok_list.
    induction IH as [ | x l Hx Hl IHl]; [constructor | ].
    rewrite map_cons. cbn [drop_null].
    destruct (render_template x variables) eqn:Hr; auto;
      constructor; auto; split; auto; discriminate.
  - rewrite render_template_dict. apply rendered_ok_dict.
    assert (Hacc : Forall (fun kv : string * json =>
              kv.2 <> JNull /\ rendered_ok kv.2) []) by constructor.
    revert Hacc. generalize (@nil (string * json)) as acc.
    induction IH as [ | [k x] d Hx Hd IHd]; intros acc Hacc; [done | ].
    cbn [fold_left fst snd] in *. apply IHd.
    destruct (render_template x variables) eqn:Hr; auto;
      apply (dict_set_entries (fun v => v <> JNull /\ rendered_ok v));
      auto; split; auto; discriminate.
Qed.

(** C8. [render_template] drops what it cannot resolve, and nothing else.
    For every binding of the variables:
    - a string leaf is rendered as [None] exactly when it is dropped (a
      variable it names is bound to [None], or its text still holds a
      placeholder after the substitutions), and is the substituted text
      otherwise;
    - the rendering of a sequence is the sequence of the renderings of its
      elements, in order, without those that are [None];
    - the rendering of a mapping (its keys distinct, as those of a [dict]
      are) holds, in order and under their own keys, the renderings of its
      values, without the keys whose rendering is [None]; the keys
      themselves are copied as they are;
    - [None], booleans and integers are rendered as themselves;
    - no string value of the rendered output holds a placeholder, and no
      entry of it is [None]. *)
Theorem render_template_dropping_safe (variables : list (string * json)) :
  (forall s, render_template (JStr s) variables = JNull <->
             dropped_leaf variables s) /\
  (forall s s', substitute s variables = Some s' -> ~ placeholder_in s' ->
                render_template (JStr s) variables = JStr s') /\
  (forall l, render_template (JList l) variables =
             JList (drop_null (map (fun x => render_template x variables) l))) /\
  (forall d, NoDup d.*1 ->
             render_template (JDict d) variables =
             JDict (drop_null_entries
                      (map (fun kv => (kv.1, render_template kv.2 variables)) d))) /\
  (render_template JNull variables = JNull /\
   (forall b, render_template (JBool b) variables = JBool b) /\
   (forall n, render_template (JInt n) variables = JInt n)) /\
  (forall value, rendered_ok (render_template value variables)).
Proof.
  split_and!.
  - intros s. apply render_string_dropped.
  - intros s s'. apply render_string_kept.
  - intros l. apply render_template_list.
  - intros d. apply render_template_entries.
  - done.
  - done.
  - done.
  - intros value. apply render_template_ok.
Qed.
End TemplateFacts.

(** The variables of a comments request: the media id is bound, the cursor
    of the first page is [None], and one name is not bound at all. The keys
    [after] and the first tag are omitted, the rest is rendered in place. *)
Lemma render_template_dropping_safe_witness :
  let variables := [("media_id", JStr "42"); ("after", JNull)] in
  @render_template demo_lib
    (JDict [("id", JStr "{media_id}"); ("after", JStr "{after}");
            ("tags", JList [JStr "{unknown}"; JStr "k"]); ("first", JInt 50)])
    variables
  = JDict [("id", JStr "42"); ("tags", JList [JStr "k"]); ("first", JInt 50)].
Proof.
  intros variables.
  destruct (@render_template_dropping_safe demo_lib variables)
    as (_ & _ & _ & Hdict & _).
  rewrite Hdict; [reflexivity | ].
  cbn [fmap list_fmap fst].
  apply (bool_decide_unpack (NoDup ["id"; "after"; "tags"; "first"])).
  vm_compute. reflexivity.
Defined.

(** The keys of a mapping are not rendered: a key that holds a placeholder
    is in the output as it was, whether its name is bound or not, so the
    output of [render_template] can hold the text of a placeholder. *)
Lemma render_template_keeps_key_text :
  @render_template demo_lib (JDict [("{cursor}", JStr "x")])
    [("cursor", JStr "abc")]
  = JDict [("{cursor}", JStr "x")] /\
  placeholder_in "{cursor}".
Proof.
  split; [reflexivity | ].
  by exists EmptyString, "cursor", EmptyString.
Qed.


Lemma requests_app t1 t2 : requests (t1 ++ t2) = (requests t1 + requests t2)%nat.
Proof. unfold requests. by rewrite List.filter_app, length_app. Qed.

Lemma requests_single e : requests [e] = if is_request e then 1%nat else 0%nat.
Proof. by destruct e. Qed.

Section ExecutorFacts.
Context `{PyLib} (self : crawler).

Lemma rate_limit_check_pending w : pending (rate_limit_check self w) = pending w.
Proof. unfold rate_limit_check. by destruct (_ <=? _). Qed.


Lemma rate_limit_check_requests w :
  requests (trace (rate_limit_check self w)) = requests (trace w).
Proof.
  unfold rate_limit_check. destruct (_ <=? _); [done | ].
  simpl. rewrite requests_app. unfold requests at 2. simpl. lia.
Qed.

Lemma save_raw_response_pending label status data w :
  pending (save_raw_response self label status data w) = pending w.
Proof. unfold save_raw_response. by destruct (raw_saved _ _). Qed.


Lemma save_raw_response_requests label status data w :
  requests (trace (save_raw_response self label status data w))
  = requests (trace w).
Proof.
  unfold save_raw_response. destruct (raw_saved _ _); [ | done].
  simpl. rewrite requests_app. unfold requests at 2. simpl. lia.
Qed.



(** Whatever the events, the call sends at most one request for each
    attempt, consumes events only, and raises nothing but the interrupt it
    met. *)
Lemma retry_loop_bound method url params data attempts :
  forall w r w',
    retry_loop self method url params data attempts w = (r, w') ->
    (requests (trace w') <= requests (trace w) + length attempts)%nat /\
    (length (pending w') <= length (pending w))%nat /\
    files w' = files w /\ clock w' = clock w /\
    (r = Exc KeyboardInterrupt /\ EvInterrupt ∈ pending w \/
     exists j, r = Ok j /\
       (truthy j = true -> (length (pending w') < length (pending w))%nat)).
Proof.
  induction attempts as [ | attempt attempts IH]; intros w r w' Hrun.
  - simpl in Hrun. injection Hrun as <- <-. simpl.
    split_and!; [lia | lia | done | done | ]. right. by eexists.
  - cbn [retry_loop] in Hrun.
    set (w0 := log (ERequest method url params data) (rate_limit_check self w))
      in Hrun.
    assert (Hw0 : pending w0 = pending w /\ files w0 = files w /\
                  clock w0 = clock w /\
                  requests (trace w0) = S (requests (trace w))).
    { subst w0. simpl. rewrite rate_limit_check_pending, requests_app,
        rate_limit_check_requests, requests_single. simpl.
      unfold rate_limit_check. destruct (_ <=? _); split_and!; auto; lia. }
    destruct Hw0 as (Hp0 & Hf0 & Hc0 & Hr0). clearbody w0.
    assert (Hl0 : length (pending w0) = length (pending w)) by congruence.
    unfold next_event in Hrun.
    destruct (pending w0) as [ | ev rest] eqn:Hpw.
    + (* the script is used up: a transport failure *)
      match type of Hrun with
      | retry_loop _ _ _ _ _ _ ?w1 = _ => apply (IH w1) in Hrun
      end.
      destruct Hrun as (Hr & Hp & Hf & Hc & Hres).
      assert (Hlen : length (pending w) = 0%nat) by done.
      assert (Hlen0 : length (pending w0) = 0%nat) by (by rewrite Hpw).
      destruct (attempt <? retry_attempts self); simpl in *;
        rewrite ?requests_app, ?requests_single in Hr; simpl in Hr;
        (split_and!; [lia | lia | congruence | congruence | ]);
        (destruct Hres as [[-> Hin] | (j & -> & Hj)];
         [rewrite Hpw in Hin; by apply elem_of_nil in Hin
         | right; exists j; split; [done | intros Ht; specialize (Hj Ht); lia]]).
    + destruct ev as [ | | status text parsed].
      * match type of Hrun with
        | retry_loop _ _ _ _ _ _ ?w1 = _ => apply (IH w1) in Hrun
        end.
        destruct Hrun as (Hr & Hp & Hf & Hc & Hres).
        assert (Hlen : length (pending w) = S (length rest)) by done.
        destruct (attempt <? retry_attempts self); simpl in *;
          rewrite ?requests_app, ?requests_single in Hr; simpl in Hr;
          (split_and!; [lia | lia | congruence | congruence | ]);
          (destruct Hres as [[-> Hin] | (j & -> & Hj)];
           [left; split; [done | rewrite <- Hp0; apply elem_of_cons; by right]
           | right; exists j; split; [done | intros Ht; specialize (Hj Ht); lia]]).
      * injection Hrun as <- <-. simpl.
        split_and!; [lia | rewrite <- Hp0; simpl; lia | done | done | ].
        left. split; [done | ]. rewrite <- Hp0. apply elem_of_cons; by left.
      * set (payload := match parsed with
                        | Some j => j
                        | None => JDict [("error", JStr text)]
                        end) in Hrun.
        set (w1 := save_raw_response self "response" status payload
                     {| pending := rest; trace := trace w0;
                        files := files w0; clock := clock w0 |}) in Hrun.
        assert (Hw1 : pending w1 = rest /\ files w1 = files w /\
                      clock w1 = clock w /\
                      requests (trace w1) = S (requests (trace w))).
        { subst w1. rewrite save_raw_response_pending,
            save_raw_response_requests. simpl.
          unfold save_raw_response. destruct (raw_saved _ _); simpl; auto. }
        destruct Hw1 as (Hp1 & Hf1 & Hc1 & Hr1). clearbody w1.
        assert (Hlen : length (pending w) = S (length rest)) by done.
        destruct (status =? 200).
        { injection Hrun as <- <-. simpl.
          split_and!; [lia | rewrite Hp1; lia | done | done | ].
          right. exists payload. split; [done | ]. rewrite Hp1. lia. }
        destruct (retriable status && (attempt <? retry_attempts self)).
        { match type of Hrun with
          | retry_loop _ _ _ _ _ _ ?w2 = _ => apply (IH w2) in Hrun
          end.
          destruct Hrun as (Hr & Hp & Hf & Hc & Hres). simpl in *.
          rewrite requests_app, requests_single in Hr. simpl in Hr.
          rewrite Hp1 in Hp.
          split_and!; [lia | lia | congruence | congruence | ].
          destruct Hres as [[-> Hin] | (j & -> & Hj)].
          - left. split; [done | ]. rewrite <- Hp0, <- Hp1.
            apply elem_of_cons; by right.
          - right. exists j. split; [done | ]. intros Ht.
            specialize (Hj Ht). lia. }
        injection Hrun as <- <-. simpl.
        split_and!; [lia | rewrite Hp1; lia | done | done | ].
        right. exists JNull. split; [done | discriminate].
Qed.

End ExecutorFacts.



Lemma json_of_key_of v k : key_of v = Some k -> json_of_key k = v.
Proof. destruct v; simpl; intros; by simplify_eq. Qed.

Lemma seen_has_plain k s : key_twin k = None -> seen_has k s = bool_decide (k ∈ s).
Proof. unfold seen_has. intros ->. apply orb_false_r. Qed.

Lemma seen_add_plain k s : key_twin k = None -> seen_add k s = {[k]} ∪ s.
Proof.
  intros Hk. unfold seen_add. rewrite seen_has_plain by done.
  case_bool_decide; [set_solver | done].
Qed.



Section StoreFacts.
Context `{Clock} (self : crawler).

Lemma load_after_clear shortcode w :
  load_resume_state self shortcode (clear_resume_state self shortcode w) = JNull.
Proof.
  unfold load_resume_state, clear_resume_state.
  destruct (files w !! resume_path self shortcode) eqn:Hf; simpl.
  - by rewrite lookup_delete_eq.
  - by rewrite Hf.
Qed.
End StoreFacts.

(** ** Path lookups *)

Lemma deep_get_null path : deep_get JNull path = JNull.
Proof. by destruct path. Qed.

(** X1. looking up a path in two legs is looking up the whole path: a leg
    that fails gives [None], and [None] has nothing below it. *)
Theorem deep_get_app (data : json) (path1 path2 : list path_key) :
  deep_get data (path1 ++ path2) = deep_get (deep_get data path1) path2.
Proof.
  revert data. induction path1 as [ | key path1 IH]; intros data; [done | ].
  cbn [app deep_get].
  destruct data as [ | | | | l | d], key as [k | i];
    try (by rewrite deep_get_null).
  - destruct (_ && _); [apply IH | by rewrite deep_get_null].
  - destruct (dict_lookup k d); [apply IH | by rewrite deep_get_null].
Qed.

(** X2. [pick_first_path] gives [None] exactly when every path leads to
    [None], and otherwise the value of the first path that does not. *)
Theorem pick_first_path_first (data : json) (paths : list (list path_key)) :
  (pick_first_path data paths = JNull <->
   Forall (fun path => deep_get data path = JNull) paths) /\
  (pick_first_path data paths <> JNull ->
   exists before path after,
     paths = before ++ path :: after /\
     Forall (fun p => deep_get data p = JNull) before /\
     deep_get data path = pick_first_path data paths).
Proof.
  induction paths as [ | path paths [IHnull IHfirst]]; simpl.
  - split; [split; auto | done].
  - destruct (deep_get data path) eqn:Hv.
    + split.
      * rewrite IHnull. split; [by constructor | by inversion 1].
      * intros Hne. destruct (IHfirst Hne) as (before & p & after & -> & Hb & Hp).
        exists (path :: before), p, after. split_and!; auto.
    + split; [split; [done | inversion 1; congruence] | ].
      intros _. exists [], path, paths. by split_and!.
    + split; [split; [done | inversion 1; congruence] | ].
      intros _. exists [], path, paths. by split_and!.
    + split; [split; [done | inversion 1; congruence] | ].
      intros _. exists [], path, paths. by split_and!.
    + split; [split; [done | inversion 1; congruence] | ].
      intros _. exists [], path, paths. by split_and!.
    + split; [split; [done | inversion 1; congruence] | ].
      intros _. exists [], path, paths. by split_and!.
Qed.

(** ** Shortcodes *)

Lemma index_of_bound c s i :
  index_of c s = Some i -> 0 <= i < Z.of_nat (String.length s).
Proof.
  revert i. induction s as [ | a s IH]; intros i; simpl; [done | ].
  destruct (Ascii.eqb a c); [intros; simplify_eq; lia | ].
  destruct (index_of c s) as [j | ]; intros; simplify_eq/=.
  specialize (IH j eq_refl). lia.
Qed.

Lemma decode_from_app acc s1 s2 :
  decode_from acc (s1 +:+ s2) = decode_from acc s1 ≫= fun a => decode_from a s2.
Proof.
  revert acc. induction s1 as [ | c s1 IH]; intros acc; [done | ].
  change (String c s1 +:+ s2) with (String c (s1 +:+ s2)). cbn [decode_from].
  destruct (index_of c alphabet); [apply IH | done].
Qed.

Lemma decode_from_value acc s v :
  decode_from acc s = Some v ->
  exists v0, decode_from 0 s = Some v0 /\
             v = acc * 64 ^ Z.of_nat (String.length s) + v0 /\
             0 <= v0 < 64 ^ Z.of_nat (String.length s).
Proof.
  revert acc v. induction s as [ | c s IH]; intros acc v; cbn [decode_from String.length].
  - intros; simplify_eq. exists 0. split_and!; auto; lia.
  - destruct (index_of c alphabet) as [i | ] eqn:Hi; [ | done].
    apply index_of_bound in Hi. change (Z.of_nat (String.length alphabet)) with 64 in Hi.
    intros Hv. destruct (IH _ _ Hv) as (v0 & H0 & -> & Hb).
    destruct (decode_from (0 * 64 + i) s) as [v1 | ] eqn:H1.
    + destruct (IH _ _ H1) as (v0' & H0' & -> & _). simplify_eq.
      eexists. split; [reflexivity | ].
      rewrite Nat2Z.inj_succ, Z.pow_succ_r by lia. split; nia.
    + exfalso. clear -H0 H1.
      assert (Hnone : forall a b, decode_from a s = None -> decode_from b s = None).
      { clear. induction s as [ | c s IH]; intros a b; cbn [decode_from]; [done | ].
        destruct (index_of c alphabet); eauto. }
      by rewrite (Hnone _ 0 H1) in H0.
Qed.

Lemma decode_from_none acc s :
  decode_from acc s = None <->
  exists c, c ∈ chars s /\ index_of c alphabet = None.
Proof.
  revert acc. unfold chars. induction s as [ | c s IH]; intros acc; cbn [decode_from String.list_ascii_of_string].
  - split; [done | ]. intros (c & Hc & _). by apply elem_of_nil in Hc.
  - destruct (index_of c alphabet) eqn:Hi.
    + rewrite IH. split; intros (c' & Hc & Hn).
      * exists c'. split; [by apply elem_of_cons; right | done].
      * apply elem_of_cons in Hc as [-> | Hc]; [congruence | eauto].
    + split; [ | done]. intros _. exists c. split; [apply elem_of_cons; by left | done].
Qed.

(** X3. a shortcode has no media id exactly when one of its characters is
    outside the 64-character alphabet. *)
Theorem shortcode_to_media_id_none (shortcode : string) :
  shortcode_to_media_id shortcode = None <->
  exists c, c ∈ chars shortcode /\ index_of c alphabet = None.
Proof.
  unfold shortcode_to_media_id. rewrite <- (decode_from_none 0).
  destruct (decode_from 0 shortcode); simpl; split; congruence.
Qed.

(** X4. the media id is the shortcode read as a number in base 64, most
    significant character first: the number of [s1 ++ s2] is that of [s1]
    shifted by the length of [s2], plus that of [s2], and each number lies
    below 64 to the length. *)
Theorem shortcode_number_positional (s1 s2 : string) :
  decode_from 0 (s1 +:+ s2)
  = (n1 ← decode_from 0 s1; n2 ← decode_from 0 s2;
     Some (n1 * 64 ^ Z.of_nat (String.length s2) + n2)) /\
  (forall n, decode_from 0 s1 = Some n ->
             0 <= n < 64 ^ Z.of_nat (String.length s1)).
Proof.
  split.
  - rewrite decode_from_app. destruct (decode_from 0 s1) as [n1 | ]; simpl; [ | done].
    destruct (decode_from n1 s2) as [v | ] eqn:Hv.
    + destruct (decode_from_value _ _ _ Hv) as (v0 & -> & -> & _). done.
    + apply decode_from_none in Hv. apply (decode_from_none 0) in Hv. by rewrite Hv.
  - intros n Hn. destruct (decode_from_value _ _ _ Hn) as (v0 & H0 & -> & Hb).
    simplify_eq. lia.
Qed.

(** ** Post URLs *)

Lemma str_app_cons c s t : String c s +:+ t = String c (s +:+ t).
Proof. reflexivity. Qed.

Lemma str_app_assoc s t u : (s +:+ t) +:+ u = s +:+ (t +:+ u).
Proof.
  induction s as [ | c s IH]; [done | ]. by rewrite !str_app_cons, IH.
Qed.

Lemma strip_prefix_sound p s r : strip_prefix p s = Some r -> s = p +:+ r.
Proof.
  revert s. induction p as [ | a p IH]; intros s; simpl; [by intros [= ->] | ].
  destruct s as [ | b s]; [done | ].
  destruct (Ascii.eqb a b) eqn:Hab; [ | done].
  apply Ascii.eqb_eq in Hab as ->. intros Hs. by rewrite (IH _ Hs).
Qed.

Lemma strip_prefix_app p r : strip_prefix p (p +:+ r) = Some r.
Proof. induction p as [ | a p IH]; simpl; [done | ]. by rewrite Ascii.eqb_refl. Qed.

Lemma take_code_split r :
  exists rest,
    r = take_code r +:+ rest /\ no_delim (take_code r) = true /\
    match rest with
    | EmptyString => True
    | String c _ => is_delim c = true
    end.
Proof.
  induction r as [ | c r (rest & Hr & Hn & Hd)]; simpl.
  - by exists EmptyString.
  - fold (is_delim c). destruct (is_delim c) eqn:Hc.
    + by exists (String c r).
    + exists rest. split_and!.
      * change (String c (take_code r) +:+ rest)
          with (String c (take_code r +:+ rest)).
        by rewrite <- Hr.
      * simpl. fold (is_delim c). by rewrite Hc, Hn.
      * done.
Qed.

Lemma take_code_app code rest :
  no_delim code = true ->
  match rest with
  | EmptyString => True
  | String c _ => is_delim c = true
  end ->
  take_code (code +:+ rest) = code.
Proof.
  induction code as [ | c code IH]; simpl.
  - intros _. destruct rest as [ | c rest]; [done | ]. simpl.
    fold (is_delim c). by intros ->.
  - fold (is_delim c). intros [Hc Hn]%andb_true_iff Hrest.
    apply negb_true_iff in Hc. rewrite Hc, IH; auto.
Qed.

Lemma match_post_url_here_sound s code :
  match_post_url_here s = Some code -> post_url_match s code.
Proof.
  unfold match_post_url_here.
  destruct (strip_prefix "instagram.com/" s) as [rest | ] eqn:Hs; [ | done].
  apply strip_prefix_sound in Hs as ->.
  assert (Hkind : forall kind r,
            strip_prefix (kind +:+ "/") rest = Some r ->
            kind ∈ ["p"; "reel"; "tv"] ->
            match take_code r with
            | EmptyString => None
            | String c t => Some (String c t)
            end = Some code ->
            post_url_match ("instagram.com/" +:+ rest) code).
  { intros kind r Hr Hk Hc. apply strip_prefix_sound in Hr as ->.
    destruct (take_code_split r) as (tail & Hsplit & Hn & Hd).
    destruct (take_code r) as [ | c t] eqn:Ht; [done | ]. injection Hc as <-.
    exists EmptyString, kind, tail. split_and!; auto.
    by rewrite str_app_assoc, <- Hsplit. }
  destruct (strip_prefix "p/" rest) as [r | ] eqn:Hp.
  { apply (Hkind "p" r Hp). set_solver. }
  destruct (strip_prefix "reel/" rest) as [r | ] eqn:Hr.
  { apply (Hkind "reel" r Hr). set_solver. }
  destruct (strip_prefix "tv/" rest) as [r | ] eqn:Ht; [ | done].
  apply (Hkind "tv" r Ht). set_solver.
Qed.

Lemma match_post_url_here_complete kind code rest :
  kind ∈ ["p"; "reel"; "tv"] ->
  code <> EmptyString -> no_delim code = true ->
  match rest with
  | EmptyString => True
  | String c _ => is_delim c = true
  end ->
  match_post_url_here ("instagram.com/" +:+ kind +:+ "/" +:+ code +:+ rest)
  = Some code.
Proof.
  intros Hk Hne Hn Hd. unfold match_post_url_here.
  rewrite strip_prefix_app.
  assert (Hcode : match take_code (code +:+ rest) with
                  | EmptyString => None
                  | String c t => Some (String c t)
                  end = Some code).
  { rewrite take_code_app by done. by destruct code. }
  apply elem_of_cons in Hk as [-> | Hk]; [exact Hcode | ].
  apply elem_of_cons in Hk as [-> | Hk]; [exact Hcode | ].
  apply list_elem_of_singleton in Hk as ->. exact Hcode.
Qed.

Lemma extract_shortcode_sound post_url code :
  extract_shortcode post_url = Some code -> post_url_match post_url code.
Proof.
  revert code. induction post_url as [ | c url IH]; intros code;
    cbn [extract_shortcode];
    destruct (match_post_url_here _) as [found | ] eqn:Hm;
    intros He; simplify_eq; try (by apply match_post_url_here_sound).
  destruct (IH _ He) as (pre & kind & rest & -> & ?).
  by exists (String c pre), kind, rest.
Qed.

(** X5. [extract_shortcode] gives a code only where the URL holds
    [instagram.com/p/], [/reel/] or [/tv/] followed by that code, which is
    not empty, has none of [/], [?] and [#] and runs up to the next of them
    or to the end; and it gives nothing exactly when the URL holds no such
    part. *)
Theorem extract_shortcode_spec (post_url : string) :
  (forall code, extract_shortcode post_url = Some code ->
                post_url_match post_url code) /\
  (extract_shortcode post_url = None <->
   ~ exists code, post_url_match post_url code).
Proof.
  split; [apply extract_shortcode_sound | ]. split.
  - intros Hnone (code & pre & kind & rest & -> & Hk & Hne & Hn & Hd).
    induction pre as [ | c pre IH].
    + change (EmptyString +:+ ?s) with s in Hnone.
      destruct ("instagram.com/" +:+ kind +:+ "/" +:+ code +:+ rest) eqn:Hs;
        cbn [extract_shortcode] in Hnone;
        rewrite <- Hs, match_post_url_here_complete in Hnone; done.
    + change (String c pre +:+ ?s) with (String c (pre +:+ s)) in Hnone.
      cbn [extract_shortcode] in Hnone.
      destruct (match_post_url_here _); [done | auto].
  - intros Hno. destruct (extract_shortcode post_url) as [code | ] eqn:He; [ | done].
    exfalso. apply Hno. exists code. by apply extract_shortcode_sound.
Qed.

(** ** The response navigator *)

(** X6. [find_connection_in_data] scans the entries of [data] in order: it
    gives [None] exactly when no entry has a dict for value under a key that
    ends with one of the suffixes, and otherwise the value of the first such
    entry. *)
Theorem first_suffix_match_first (items : list (string * json))
  (suffixes : list string) :
  (first_suffix_match items suffixes = JNull <->
   Forall (fun kv => connection_entry suffixes kv = false) items) /\
  (first_suffix_match items suffixes <> JNull ->
   exists before kv after,
     items = before ++ kv :: after /\
     Forall (fun e => connection_entry suffixes e = false) before /\
     connection_entry suffixes kv = true /\
     first_suffix_match items suffixes = kv.2).
Proof.
  induction items as [ | [key value] items [IHnull IHfirst]]; simpl.
  - split; [split; auto | done].
  - unfold connection_entry at 1 3. simpl.
    destruct (is_dict value && existsb (endswith key) suffixes) eqn:Hq.
    + split.
      * split; [ | inversion 1; simplify_eq/=; congruence].
        intros ->. by apply andb_true_iff in Hq as [? _].
      * intros _. by exists [], (key, value), items.
    + split.
      * rewrite IHnull. split; [by constructor | by inversion 1].
      * intros Hne. destruct (IHfirst Hne) as (before & kv & after & -> & Hb & Hk & Hv).
        exists ((key, value) :: before), kv, after. split_and!; auto.
Qed.

Section NavigatorFacts.

Lemma first_connection_not_dict payload candidates :
  is_dict payload = false ->
  Forall (fun path => exists rest, path = PKey "data" :: rest) candidates ->
  first_connection payload candidates = None.
Proof.
  intros Hp. induction 1 as [ | path candidates [rest ->] _ IH]; [done | ].
  cbn [first_connection].
  assert (deep_get payload (PKey "data" :: rest) = JNull) as ->
    by (by destruct payload).
  exact IH.
Qed.

Lemma comment_candidates_data :
  Forall (fun path => exists rest, path = PKey "data" :: rest) comment_candidates.
Proof. repeat constructor; by eexists. Qed.

Lemma reply_candidates_data :
  Forall (fun path => exists rest, path = PKey "data" :: rest) reply_candidates.
Proof. repeat constructor; by eexists. Qed.

Lemma scanned_connection_dict d suffixes :
  exists found, scanned_connection (JDict d) suffixes = Ok found.
Proof.
  unfold scanned_connection, find_connection_in_data. simpl.
  destruct (dict_get_or d "data" JNull); simpl; eauto.
  destruct (first_suffix_match _ _) as [ | | | | | [ | ] ]; eauto.
Qed.

Lemma scanned_connection_not_dict v suffixes :
  is_dict v = false -> scanned_connection v suffixes = Exc AttributeError.
Proof. by destruct v. Qed.

(** X7. on a payload that is a dict the two extractors always return their
    three values, however the dict is shaped; on a payload that is not a
    dict both raise [AttributeError], from the [payload.get] of the scan. *)
Theorem connection_extractors_on_payload (payload : json) :
  (is_dict payload = true ->
   (exists parts, extract_comment_connection payload = Ok parts) /\
   (exists parts, extract_reply_connection payload = Ok parts)) /\
  (is_dict payload = false ->
   extract_comment_connection payload = Exc AttributeError /\
   extract_reply_connection payload = Exc AttributeError).
Proof.
  split.
  - destruct payload as [ | | | | | d]; try done. intros _.
    assert (Hc : exists parts, extract_comment_connection (JDict d) = Ok parts).
    { unfold extract_comment_connection.
      destruct (first_connection _ _); [eauto | ].
      destruct (scanned_connection_dict d ["__comments__connection"]) as [found ->].
      simpl. destruct found; eauto. }
    split; [exact Hc | ].
    unfold extract_reply_connection.
    destruct (first_connection _ _); [eauto | ].
    destruct (scanned_connection_dict d
                ["__replies__connection"; "__comments__replies__connection"])
      as [found ->].
    simpl. destruct found; [eauto | ].
    destruct (scanned_connection_dict d ["__child_comments__connection"])
      as [found ->].
    simpl. destruct found; eauto.
  - intros Hp.
    assert (Hc : extract_comment_connection payload = Exc AttributeError).
    { unfold extract_comment_connection.
      rewrite first_connection_not_dict
        by auto using comment_candidates_data.
      by rewrite scanned_connection_not_dict. }
    split; [exact Hc | ].
    unfold extract_reply_connection.
    rewrite first_connection_not_dict by auto using reply_candidates_data.
    by rewrite scanned_connection_not_dict.
Qed.

Lemma first_connection_no_data d candidates :
  dict_lookup "data" d = None ->
  Forall (fun path => exists rest, path = PKey "data" :: rest) candidates ->
  first_connection (JDict d) candidates = None.
Proof.
  intros Hd. induction 1 as [ | path candidates [rest ->] _ IH]; [done | ].
  cbn [first_connection deep_get]. by rewrite Hd.
Qed.

(** X8. a payload without a [data] key matches no shape: both extractors
    return no edges, an empty page info and no count. *)
Theorem connection_extractors_without_data (d : list (string * json)) :
  dict_lookup "data" d = None ->
  extract_comment_connection (JDict d) = Ok (JList [], JDict [], JNull) /\
  extract_reply_connection (JDict d) = Ok (JList [], JDict [], JNull).
Proof.
  intros Hd.
  assert (Hscan : forall suffixes, scanned_connection (JDict d) suffixes = Ok None).
  { intros suffixes. unfold scanned_connection, find_connection_in_data. simpl.
    unfold dict_get_or. by rewrite Hd. }
  assert (Hc : extract_comment_connection (JDict d) = Ok (JList [], JDict [], JNull)).
  { unfold extract_comment_connection.
    rewrite first_connection_no_data, Hscan;
      [done | done | apply comment_candidates_data]. }
  split; [exact Hc | ].
  unfold extract_reply_connection.
  rewrite first_connection_no_data, !Hscan;
    [ | done | apply reply_candidates_data].
  simpl. exact Hc.
Qed.

Lemma endswith_differs key suffix other :
  endswith key suffix = true -> endswith other suffix = false ->
  String.eqb other key = false.
Proof.
  intros Hk Ho. destruct (String.eqb other key) eqn:He; [ | done].
  apply String.eqb_eq in He as ->. congruence.
Qed.

(** X9. a connection under a key that is not one of the fixed paths is still
    found when the key ends with [__comments__connection]: the payload
    [{"data": {key: connection}}] yields the parts of the connection. *)
Theorem comment_connection_by_suffix (key : string)
  (connection : list (string * json)) :
  endswith key "__comments__connection" = true ->
  connection <> [] ->
  extract_comment_connection (JDict [("data", JDict [(key, JDict connection)])])
  = Ok (connection_parts connection).
Proof.
  intros Hkey Hne. destruct connection as [ | kv connection]; [done | ].
  assert (H1 := endswith_differs key _ "xdt_shortcode_media" Hkey eq_refl).
  assert (H2 := endswith_differs key _ "shortcode_media" Hkey eq_refl).
  unfold extract_comment_connection, comment_candidates.
  cbn [first_connection deep_get dict_lookup]. rewrite ?H1, ?H2.
  change (String.eqb "data" "data") with true. cbn [dict_lookup].
  destruct (String.eqb "xdt_api__v1__media__media_id__comments__connection" key);
    [done | ].
  rewrite ?H1, ?H2. cbn [deep_get].
  unfold scanned_connection, find_connection_in_data. simpl.
  unfold dict_get_or. simpl. by rewrite Hkey.
Qed.
End NavigatorFacts.

(** A payload of an error response, without [data]. *)
Lemma connection_extractors_without_data_witness :
  let d := [("status", JStr "fail"); ("message", JStr "login_required")] in
  dict_lookup "data" d = None /\
  extract_comment_connection (JDict d) = Ok (JList [], JDict [], JNull) /\
  extract_reply_connection (JDict d) = Ok (JList [], JDict [], JNull).
Proof.
  intros d. split; [reflexivity | ].
  apply (connection_extractors_without_data d). reflexivity.
Defined.

(** The key of the specification's example. *)
Lemma comment_connection_by_suffix_witness :
  let connection :=
    [("edges", JList [demo_edge "17900000000000001"]);
     ("page_info", JDict [("has_next_page", JBool false)]);
     ("count", JInt 1)] in
  (endswith "x1y2z__comments__connection" "__comments__connection" = true /\
   connection <> []) /\
  extract_comment_connection
    (JDict [("data", JDict [("x1y2z__comments__connection", JDict connection)])])
  = Ok (connection_parts connection).
Proof.
  intros connection. split; [split; [reflexivity | discriminate] | ].
  apply (comment_connection_by_suffix "x1y2z__comments__connection"
           connection); [reflexivity | discriminate].
Defined.

(** ** The comment parser *)

Section ParserFacts.
Context `{PyLib}.

Lemma parse_user_shape node user :
  parse_user node = Ok user ->
  exists id username full_name is_verified,
    user = JDict [("id", id); ("username", username);
                  ("full_name", full_name); ("is_verified", is_verified)].
Proof.
  unfold parse_user. destruct (py_or _ _); intros; simplify_eq. eauto 10.
Qed.

(** X10. [parse_comment_node] raises [AttributeError] on a node that is not
    a dict; a record it returns has the nine keys of a comment in their
    order, no replies yet, an id that is [None] or a string, [None] exactly
    when [node.get("id") or node.get("pk")] is, a reply count that is [0]
    or truthy, never [None], and [is_author] false whenever the owner of
    the post is not known. *)
Theorem parse_comment_node_shape (node post_owner_id : json) :
  (is_dict node = false ->
   parse_comment_node node post_owner_id = Exc AttributeError) /\
  (forall parsed,
     parse_comment_node node post_owner_id = Ok parsed ->
     exists n id text created_at like_count gif_url user is_author reply_count,
       node = JDict n /\
       parsed = JDict [("id", id); ("text", text); ("created_at", created_at);
                       ("like_count", like_count); ("gif_url", gif_url);
                       ("user", user); ("is_author", JBool is_author);
                       ("reply_count", reply_count); ("replies", JList [])] /\
       is_id id = true /\
       (id = JNull <-> py_or (dict_get n "id") (dict_get n "pk") = JNull) /\
       (reply_count = JInt 0 \/ truthy reply_count = true) /\
       (truthy post_owner_id = false -> is_author = false)).
Proof.
  split; [by destruct node | ].
  intros parsed. destruct node as [ | | | | | n]; try done.
  unfold parse_comment_node, res_bind.
  destruct (parse_timestamp _) as [created_at | | ]; [ | done | done].
  destruct (parse_user n) as [user | | ] eqn:Hu; [ | done | done].
  destruct (parse_user_shape _ _ Hu) as (uid & un & fn & iv & ->).
  cbn [py_get py_get_or]. intros [= <-].
  do 9 eexists. split; [reflexivity | ]. split; [reflexivity | ].
  split_and!.
  - by destruct (py_or (dict_get n "id") (dict_get n "pk")).
  - by destruct (py_or (dict_get n "id") (dict_get n "pk")).
  - unfold py_or. destruct (truthy _) eqn:Ht; [by right | by left].
  - by intros ->.
Qed.
End ParserFacts.

(** The node of the repository's first parsing test. *)
Lemma parse_comment_node_shape_witness :
  let node :=
    JDict [("id", JInt 123); ("comment_text", JStr "hello");
           ("created_at", JInt 1700000000);
           ("edge_liked_by", JDict [("count", JInt 7)]);
           ("owner", JDict [("id", JStr "42"); ("username", JStr "tester")]);
           ("child_comment_count", JInt 2)] in
  exists parsed,
    @parse_comment_node demo_lib node (JStr "42") = Ok parsed /\
    exists n id text created_at like_count gif_url user is_author reply_count,
      node = JDict n /\
      parsed = JDict [("id", id); ("text", text); ("created_at", created_at);
                      ("like_count", like_count); ("gif_url", gif_url);
                      ("user", user); ("is_author", JBool is_author);
                      ("reply_count", reply_count); ("replies", JList [])] /\
      is_id id = true /\
      (id = JNull <-> py_or (dict_get n "id") (dict_get n "pk") = JNull) /\
      (reply_count = JInt 0 \/ truthy reply_count = true) /\
      (truthy (JStr "42") = false -> is_author = false).
Proof.
  intros node. eexists. split; [vm_compute; reflexivity | ].
  apply (proj2 (@parse_comment_node_shape demo_lib node (JStr "42"))).
  vm_compute. reflexivity.
Defined.

(** ** Requests *)

Lemma dict_lookup_set k v d : dict_lookup k (dict_set k v d) = Some v.
Proof.
  induction d as [ | [k' v'] d IH]; simpl.
  - by rewrite String.eqb_refl.
  - destruct (String.eqb k k') eqn:Hk; simpl; by rewrite ?String.eqb_refl, ?Hk.
Qed.

Section RequestFacts.
Context `{PyLib}.

(** X11. [build_request] raises [ValueError] exactly when the endpoint has
    no url or an empty one. Otherwise it returns that url and the method in
    upper case, [POST] by default; a [GET] request carries no body, its
    fields being folded into the query; a GraphQL request that is not a
    [GET] carries no query, and its body holds the variables, when there
    are any, encoded as one string. *)
Theorem build_request_shape (e : endpoint) (variables : json) :
  (build_request e variables = Exc (ValueError "Endpoint URL missing") <->
   ep_url e = None \/ ep_url e = Some EmptyString) /\
  (forall method url params data,
     build_request e variables = Ok (method, url, params, data) ->
     ep_url e = Some url /\ url <> EmptyString /\
     method = str_upper (default "POST" (ep_method e)) /\
     (method = "GET" -> data = []) /\
     (method <> "GET" -> default "graphql" (ep_type e) = "graphql" ->
      params = [] /\
      (truthy variables = true ->
       dict_lookup "variables" data = Some (JStr (json_dumps variables))))).
Proof.
  unfold build_request.
  destruct (ep_url e) as [[ | c url] | ] eqn:Hurl.
  - split; [split; auto | done].
  - split.
    { split; [ | intros [? | ?]; done].
      repeat case_match; done. }
    intros method u params data.
    destruct (String.eqb (default "graphql" (ep_type e)) "graphql") eqn:Hty.
    + destruct (String.eqb (str_upper _) "GET") eqn:Hm; intros [= <- <- <- <-].
      * apply String.eqb_eq in Hm. split_and!; auto. by rewrite Hm.
      * apply String.eqb_neq in Hm. split_and!; auto; [done | ].
        intros _ _. split; [done | ]. intros ->. apply dict_lookup_set.
    + apply String.eqb_neq in Hty.
      destruct (String.eqb (str_upper _) "GET") eqn:Hm; intros [= <- <- <- <-].
      * apply String.eqb_eq in Hm. split_and!; auto. by rewrite Hm.
      * apply String.eqb_neq in Hm. split_and!; auto; done.
  - split; [split; auto | done].
Qed.
End RequestFacts.

(** The comments endpoint of the example configuration, sent as a [POST]. *)
Lemma build_request_shape_witness :
  let e := demo_endpoint "https://example.test/comments" in
  let variables := JDict [("shortcode", JStr "ABC"); ("first", JInt 20)] in
  exists data,
    @build_request demo_lib e variables
    = Ok ("POST", "https://example.test/comments", [], data) /\
    dict_lookup "variables" data = Some (JStr (@json_dumps demo_lib variables)).
Proof.
  intros e variables. eexists. split; [vm_compute; reflexivity | ].
  destruct (proj2 (@build_request_shape demo_lib e variables)
              "POST" "https://example.test/comments" []
              [("doc_id", JStr "123"); ("variables", JStr "<variables>")]
              eq_refl)
    as (_ & _ & _ & _ & Hbody).
  destruct (Hbody ltac:(discriminate) eq_refl) as [_ Hvars].
  exact (Hvars eq_refl).
Defined.

(** ** The world under the requests of the crawler *)

Lemma file_effects_app t1 t2 :
  file_effects (t1 ++ t2) = file_effects t1 ++ file_effects t2.
Proof. apply List.filter_app. Qed.

Lemma quiet_refl w : quiet w w.
Proof. by split_and!. Qed.

Lemma quiet_trans w1 w2 w3 : quiet w1 w2 -> quiet w2 w3 -> quiet w1 w3.
Proof.
  intros (Hf1 & Hc1 & Hp1 & Ht1) (Hf2 & Hc2 & Hp2 & Ht2).
  split_and!; [congruence | congruence | lia | congruence].
Qed.

Lemma quiet_log e w : is_file_effect e = false -> quiet w (log e w).
Proof.
  intros He. split_and!; simpl; auto.
  rewrite file_effects_app. unfold file_effects at 2. simpl. rewrite He.
  apply app_nil_r.
Qed.

Section WorldFacts.
Context `{PyLib} (self : crawler).

Lemma quiet_rate_limit_check w : quiet w (rate_limit_check self w).
Proof.
  unfold rate_limit_check. destruct (_ <=? _);
    [apply quiet_refl | by apply quiet_log].
Qed.

Lemma quiet_save_raw_response label status data w :
  quiet w (save_raw_response self label status data w).
Proof.
  unfold save_raw_response. destruct (raw_saved _ _);
    [by apply quiet_log | apply quiet_refl].
Qed.

Lemma quiet_next_event w ev w' : next_event w = (ev, w') -> quiet w w'.
Proof.
  unfold next_event. destruct (pending w) as [ | ev' rest] eqn:Hp;
    intros; simplify_eq.
  - apply quiet_refl.
  - split_and!; simpl; auto. rewrite Hp. simpl. lia.
Qed.

Lemma retry_loop_quiet method url params data attempts :
  forall w r w',
    retry_loop self method url params data attempts w = (r, w') -> quiet w w'.
Proof.
  induction attempts as [ | attempt attempts IH]; intros w r w' Hrun.
  - simpl in Hrun. simplify_eq. apply quiet_refl.
  - cbn [retry_loop] in Hrun.
    destruct (next_event _) as [ev w1] eqn:Hne.
    assert (Hq1 : quiet w w1).
    { apply (quiet_trans _ (rate_limit_check self w));
        [apply quiet_rate_limit_check | ].
      apply (quiet_trans _ (log (ERequest method url params data)
                               (rate_limit_check self w)));
        [by apply quiet_log | by eapply quiet_next_event]. }
    destruct ev as [ | | status text parsed].
    + apply IH in Hrun. eapply quiet_trans; [exact Hq1 | ].
      eapply quiet_trans; [ | exact Hrun].
      destruct (_ <? _); [by apply quiet_log | apply quiet_refl].
    + by simplify_eq.
    + assert (Hq2 := quiet_save_raw_response "response" status
                       match parsed with
                       | Some j => j
                       | None => JDict [("error", JStr text)]
                       end w1).
      destruct (status =? 200); [simplify_eq; by eapply quiet_trans | ].
      destruct (retriable status && (attempt <? retry_attempts self));
        [ | simplify_eq; by eapply quiet_trans].
      apply IH in Hrun. eapply quiet_trans; [exact Hq1 | ].
      eapply quiet_trans; [exact Hq2 | ].
      eapply quiet_trans; [ | exact Hrun]. by apply quiet_log.
Qed.

(** The events a call consumed are a prefix of the pending ones, at most
    one for each attempt. *)
Lemma retry_loop_consumes method url params data attempts :
  forall w r w',
    retry_loop self method url params data attempts w = (r, w') ->
    exists used,
      pending w = used ++ pending w' /\ (length used <= length attempts)%nat.
Proof.
  induction attempts as [ | attempt attempts IH]; intros w r w' Hrun.
  - simpl in Hrun. simplify_eq. by exists [].
  - cbn [retry_loop] in Hrun. unfold next_event in Hrun. simpl in Hrun.
    rewrite rate_limit_check_pending in Hrun.
    destruct (pending w) as [ | ev rest] eqn:Hp.
    + apply IH in Hrun as (used & Hu & Hlen).
      assert (pending w = used ++ pending w') as Hw.
      { rewrite Hp. rewrite <- Hu. by destruct (_ <? _); simpl;
          rewrite ?rate_limit_check_pending. }
      exists used. rewrite <- Hp. split; [done | simpl; lia].
    + destruct ev as [ | | status text parsed].
      * apply IH in Hrun as (used & Hu & Hlen).
        exists (EvExn :: used). split; [ | simpl; lia].
        simpl. f_equal. rewrite <- Hu. by destruct (_ <? _).
      * simplify_eq. by exists [EvInterrupt]; split; [ | simpl; lia].
      * destruct (status =? 200).
        { simplify_eq. exists [EvResp status text parsed].
          rewrite save_raw_response_pending. split; [done | simpl; lia]. }
        destruct (retriable status && (attempt <? retry_attempts self)).
        { apply IH in Hrun as (used & Hu & Hlen).
          exists (EvResp status text parsed :: used). split; [ | simpl; lia].
          simpl in *. rewrite save_raw_response_pending in Hu. simpl in Hu.
          by rewrite <- Hu. }
        simplify_eq. exists [EvResp status text parsed].
        rewrite save_raw_response_pending. split; [done | simpl; lia].
Qed.

Lemma attempts_upto_length n : length (attempts_upto n) = Z.to_nat n.
Proof. unfold attempts_upto. by rewrite length_map, length_seq. Qed.

Lemma fetched_refl w : fetched self w (Ok JNull) w.
Proof.
  split_and!; [apply quiet_refl | by exists []; split; [ | simpl; lia] | lia | done].
Qed.

Lemma request_with_retry_fetched method url params data w r w' :
  request_with_retry self method url params data w = (r, w') -> fetched self w r w'.
Proof.
  intros Hrun. unfold request_with_retry in Hrun. split_and!.
  - by eapply retry_loop_quiet.
  - apply retry_loop_consumes in Hrun. by rewrite attempts_upto_length in Hrun.
  - apply retry_loop_bound in Hrun as (Hr & _). by rewrite attempts_upto_length in Hr.
  - apply retry_loop_bound in Hrun as (_ & _ & _ & _ & [[-> _] | (j & -> & Hj)]); auto.
Qed.

Lemma send_fetched e variables w r w' :
  send self e variables w = (r, w') -> fetched self w r w'.
Proof.
  unfold send.
  destruct (build_request e variables) as [[[[m u] p] d] | err | ] eqn:Hb.
  - apply request_with_retry_fetched.
  - intros; simplify_eq.
    assert (err = ValueError "Endpoint URL missing") as ->.
    { unfold build_request in Hb. repeat case_match; by simplify_eq. }
    split_and!; [apply quiet_refl | by exists []; split; [ | simpl; lia] | lia | auto].
  - unfold build_request in Hb. repeat case_match; simplify_eq.
Qed.

End WorldFacts.

(** ** Paths of the store *)

Lemma str_length_app s t :
  String.length (s +:+ t) = (String.length s + String.length t)%nat.
Proof.
  induction s as [ | c s IH]; [done | ].
  rewrite str_app_cons. simpl. by rewrite IH.
Qed.

Lemma str_app_inv_r s1 s2 t : s1 +:+ t = s2 +:+ t -> s1 = s2.
Proof.
  revert s2. induction s1 as [ | c s1 IH]; intros [ | c2 s2] Heq; [done | | | ].
  - apply (f_equal String.length) in Heq.
    rewrite !str_length_app in Heq. simpl in Heq. lia.
  - apply (f_equal String.length) in Heq.
    rewrite !str_length_app in Heq. simpl in Heq. lia.
  - rewrite !str_app_cons in Heq. injection Heq as -> Heq. f_equal. by apply IH.
Qed.

Section StorePaths.
Context `{Clock} (self : crawler).

Lemma resume_path_inj shortcode1 shortcode2 :
  resume_path self shortcode1 = resume_path self shortcode2 ->
  shortcode1 = shortcode2.
Proof.
  unfold resume_path. intros Heq.
  apply (inj (String.app _)) in Heq. apply (inj (String.app _)) in Heq.
  by apply str_app_inv_r in Heq.
Qed.

(** X13. the checkpoints of two posts do not touch each other: for
    shortcodes as [extract_shortcode] gives them (without [/], so that each
    names one file of the directory), saving or clearing the checkpoint of
    one leaves what is loaded for any other as it was. *)
Theorem checkpoints_independent (shortcode1 shortcode2 : string)
  (post_info comments : json) (seen_ids : gset key)
  (cursor last_cursor page expected_count : json) (reason : option stop)
  (complete : bool) (w : world) :
  no_delim shortcode1 = true -> no_delim shortcode2 = true ->
  shortcode1 <> shortcode2 ->
  load_resume_state self shortcode2
    (save_resume_state self shortcode1 post_info comments seen_ids cursor
       last_cursor page expected_count reason complete w).2
  = load_resume_state self shortcode2 w /\
  load_resume_state self shortcode2 (clear_resume_state self shortcode1 w)
  = load_resume_state self shortcode2 w.
Proof.
  intros _ _ Hne.
  assert (Hpath : resume_path self shortcode1 <> resume_path self shortcode2)
    by (intros Heq; by apply resume_path_inj in Heq).
  split.
  - unfold save_resume_state, load_resume_state.
    destruct (py_len comments); simpl; [ | done | done].
    by rewrite lookup_insert_ne.
  - unfold clear_resume_state, load_resume_state.
    destruct (files w !! resume_path self shortcode1); simpl; [ | done].
    by rewrite lookup_delete_ne.
Qed.

Lemma output_path_differs shortcode stamp :
  stamp <> "resume" ->
  data_dir self +:+ "/ig_comments/" +:+ shortcode +:+ "_" +:+ stamp +:+ ".json"
  <> resume_path self shortcode.
Proof.
  intros Hstamp Heq. unfold resume_path in Heq.
  do 3 apply (inj (String.app _)) in Heq.
  change "_resume.json" with ("_" +:+ "resume" +:+ ".json") in Heq.
  apply (inj (String.app _)) in Heq. by apply str_app_inv_r in Heq.
Qed.

End StorePaths.

(** Two posts, the checkpoint of the first one written and cleared. *)
Lemma checkpoints_independent_witness :
  let w := demo_world [] in
  (no_delim "ABC" = true /\ no_delim "XYZ" = true /\ "ABC" <> "XYZ") /\
  load_resume_state demo_crawler "XYZ"
    (@save_resume_state demo_clock demo_crawler "ABC" (JDict []) (JList []) ∅
       JNull JNull (JInt 0) JNull None false w).2
  = load_resume_state demo_crawler "XYZ" w /\
  load_resume_state demo_crawler "XYZ" (clear_resume_state demo_crawler "ABC" w)
  = load_resume_state demo_crawler "XYZ" w.
Proof.
  intros w. split; [by split_and! | ].
  apply (@checkpoints_independent demo_clock demo_crawler "ABC" "XYZ");
    [reflexivity | reflexivity | discriminate].
Defined.


(** ** Identity resolution *)

Lemma pretty_N_go_nonempty x s : s <> EmptyString -> pretty_N_go x s <> EmptyString.
Proof.
  revert s. induction (N.lt_wf_0 x) as [x _ IH]; intros s Hs.
  destruct (decide (x = 0)%N) as [-> | Hx]; [by rewrite pretty_N_go_0 | ].
  rewrite pretty_N_go_step by lia. apply IH; [ | done].
  apply N.div_lt; lia.
Qed.

Lemma pretty_Z_truthy (n : Z) : 0 <= n -> truthy (JStr (pretty n)) = true.
Proof.
  intros Hn. simpl. apply negb_true_iff, String.eqb_neq.
  destruct n as [ | p | p]; [done | | lia].
  unfold pretty, pretty_Z, pretty, pretty_positive, pretty, pretty_N.
  destruct (decide _); [done | ].
  rewrite pretty_N_go_step by lia. by apply pretty_N_go_nonempty.
Qed.

Section IdentityFacts.
Context `{PyLib} (self : crawler).

(** X15. while the lookup endpoint is not configured, a shortcode over the
    alphabet is resolved by decoding alone: no request is sent, the world
    stays as it is, and the media id is the decimal form of the decoded
    number. *)
Theorem resolve_media_id_offline (shortcode : string) (n : Z) (w : world) :
  unconfigured (post_by_shortcode self) = true ->
  decode_from 0 shortcode = Some n ->
  resolve_media_id self shortcode w
  = (Ok (JStr (pretty n), JDict [("media_id", JStr (pretty n))]), w).
Proof.
  intros Hu Hn. unfold resolve_media_id, shortcode_to_media_id.
  rewrite Hu, Hn. cbn [fmap option_fmap option_map from_option].
  rewrite pretty_Z_truthy; [done | ].
  destruct (decode_from_value _ _ _ Hn) as (v0 & _ & Hv & Hb). lia.
Qed.

Lemma retry_loop_network_down method url params data attempts :
  forall w,
    Forall (eq EvExn) (pending w) ->
    (retry_loop self method url params data attempts w).1 = Ok JNull.
Proof.
  induction attempts as [ | attempt attempts IH]; intros w Hp; [done | ].
  cbn [retry_loop]. unfold next_event. simpl.
  rewrite rate_limit_check_pending.
  destruct (pending w) as [ | ev rest] eqn:Hw.
  - apply IH. destruct (_ <? _); simpl;
      rewrite rate_limit_check_pending, Hw; constructor.
  - inversion Hp as [ | ? ? <- Hrest]. apply IH.
    by destruct (_ <? _).
Qed.

(** X16. with the lookup endpoint configured and the network down (every
    attempt fails in transport), [resolve_media_id] gives no media id and
    an empty post record, whatever the shortcode: it does not fall back on
    decoding it. No checkpoint or output is touched. *)
Theorem resolve_media_id_network_down (e : endpoint) (shortcode : string)
  (w : world) :
  post_by_shortcode self = Some e ->
  unconfigured (Some e) = false ->
  (exists c url, ep_url e = Some (String c url)) ->
  Forall (eq EvExn) (pending w) ->
  exists w',
    resolve_media_id self shortcode w = (Ok (JNull, JDict []), w') /\
    quiet w w'.
Proof.
  intros He Hu (c & url & Hurl) Hp. unfold resolve_media_id.
  rewrite He, Hu. unfold send, build_request. rewrite Hurl.
  destruct (String.eqb _ "graphql"); destruct (String.eqb _ "GET");
    unfold request_with_retry;
    match goal with
    | |- context [retry_loop _ ?m ?u ?p ?d ?a w] =>
        pose proof (retry_loop_network_down m u p d a w Hp) as Hr;
        destruct (retry_loop self m u p d a w) as [r w'] eqn:Hrun
    end; simpl in Hr; subst r; exists w';
    (split; [done | by eapply retry_loop_quiet]).
Qed.
End IdentityFacts.

(** The shortcode of the repository's test, with no lookup endpoint. *)
Lemma resolve_media_id_offline_witness :
  (unconfigured (post_by_shortcode demo_crawler) = true /\
   decode_from 0 "ABC123xyz" = Some 4593314372787) /\
  @resolve_media_id demo_lib demo_crawler "ABC123xyz" (demo_world [])
  = (Ok (JStr (pretty 4593314372787),
         JDict [("media_id", JStr (pretty 4593314372787))]), demo_world []).
Proof.
  split; [split; vm_compute; reflexivity | ].
  apply (@resolve_media_id_offline demo_lib demo_crawler "ABC123xyz"
           4593314372787 (demo_world [])); vm_compute; reflexivity.
Defined.

(** The example crawler with a lookup endpoint, and three attempts that all
    fail in transport. *)
Lemma resolve_media_id_network_down_witness :
  let e := demo_endpoint "https://example.test/post" in
  let w := demo_world [EvExn; EvExn; EvExn] in
  (post_by_shortcode lookup_crawler = Some e /\ unconfigured (Some e) = false /\
   (exists c url, ep_url e = Some (String c url)) /\
   Forall (eq EvExn) (pending w)) /\
  exists w',
    @resolve_media_id demo_lib lookup_crawler "ABC123xyz" w
    = (Ok (JNull, JDict []), w') /\
    quiet w w'.
Proof.
  intros e w.
  assert (Hurl : exists c url, ep_url e = Some (String c url)) by (by eexists _, _).
  assert (Hw : Forall (eq EvExn) (pending w)) by (by repeat constructor).
  split; [by split_and! | ].
  by apply (@resolve_media_id_network_down demo_lib lookup_crawler e "ABC123xyz" w).
Defined.

(** ** Rules for the code of the loop *)

Lemma wp_bind {A B} (m : L A) (k : A -> L B) Q E l w :
  wp m (fun a l' w' => wp (k a) Q E l' w') E l w -> wp (bind m k) Q E l w.
Proof. unfold wp, bind. by destruct (m l w) as [[[a | e | ] l'] w']. Qed.

Lemma wp_mono {A} (m : L A) (Q Q' : A -> locals -> world -> Prop)
  (E E' : exn -> locals -> world -> Prop) l w :
  wp m Q E l w ->
  (forall a l' w', Q a l' w' -> Q' a l' w') ->
  (forall e l' w', E e l' w' -> E' e l' w') ->
  wp m Q' E' l w.
Proof. unfold wp. destruct (m l w) as [[[a | e | ] l'] w']; auto. Qed.

Lemma stopped_plain n e l w :
  (length (pending w) <= n)%nat -> e <> StopIteration -> stopped n e l w.
Proof. by split. Qed.

Lemma stopped_le n n' e l w : (n <= n')%nat -> stopped n e l w -> stopped n' e l w.
Proof. intros Hn [Hp He]. split; [lia | done]. Qed.

(** A steady head of a sequence: what follows starts with no more events
    pending. *)
Lemma wp_bind_steady {A B} (m : L A) (k : A -> L B) n Q l w :
  steady m -> (length (pending w) <= n)%nat ->
  (forall a l' w', (length (pending w') <= n)%nat -> wp (k a) Q (stopped n) l' w') ->
  wp (bind m k) Q (stopped n) l w.
Proof.
  intros Hm Hn Hk. apply wp_bind. eapply wp_mono; [apply Hm | | ].
  - intros a l' w' Hw. apply Hk. unfold within in Hw. lia.
  - intros e l' w'. by apply stopped_le.
Qed.

Lemma steady_bind {A B} (m : L A) (k : A -> L B) :
  steady m -> (forall a, steady (k a)) -> steady (bind m k).
Proof.
  intros Hm Hk l w. apply wp_bind_steady; [done | done | ].
  intros a l' w' Hw. eapply wp_mono; [apply Hk | | ].
  - unfold within. intros; lia.
  - intros e l'' w''. by apply stopped_le.
Qed.

Lemma steady_ret {A} (a : A) : steady (ret a).
Proof. intros l w. unfold wp, within, ret. lia. Qed.

Lemma steady_get {A} (field : locals -> A) : steady (get field).
Proof. intros l w. unfold wp, within, get. lia. Qed.

Lemma steady_update f : steady (update f).
Proof. intros l w. unfold wp, within, update. lia. Qed.

Lemma steady_lift {A} (r : res A) : plain r -> steady (lift r).
Proof.
  intros Hr l w. unfold wp, lift, within.
  destruct r; [lia | by apply stopped_plain | done].
Qed.

Lemma steady_raise {A} e : e <> StopIteration -> steady (@raise A e).
Proof. intros He l w. unfold wp, raise. by apply stopped_plain. Qed.

Lemma steady_io {A} (f : world -> res A * world) :
  (forall w, plain (f w).1 /\ (length (pending (f w).2) <= length (pending w))%nat) ->
  steady (io f).
Proof.
  intros Hf l w. unfold wp, io, within. destruct (Hf w) as [Hr Hp].
  destruct (f w) as [[a | e | ] w']; simpl in *; [lia | by apply stopped_plain | done].
Qed.

Lemma steady_for_each {A} (body : A -> L unit) items :
  (forall x, steady (body x)) -> steady (for_each body items).
Proof.
  intros Hb. induction items as [ | x items IH]; [apply steady_ret | ].
  cbn [for_each]. apply steady_bind; auto.
Qed.

Ltac steady_step :=
  lazymatch goal with
  | |- steady (bind _ _) => apply steady_bind; [ | intros ? ]
  | |- steady (ret _) => apply steady_ret
  | |- steady (get _) => apply steady_get
  | |- steady (update _) => apply steady_update
  | |- steady (lift _) => apply steady_lift
  | |- steady (raise _) => by apply steady_raise
  | |- steady (if ?b then _ else _) => destruct b eqn:?
  | |- steady (match ?x with _ => _ end) => destruct x eqn:?
  end.

(** ** Pure code raises errors of its own *)

Lemma plain_py_get_or v k dflt : plain (py_get_or v k dflt).
Proof. by destruct v. Qed.

Lemma plain_py_get v k : plain (py_get v k).
Proof. apply plain_py_get_or. Qed.

Lemma plain_py_len v : plain (py_len v).
Proof. by destruct v. Qed.

Lemma plain_py_iter v : plain (py_iter v).
Proof. by destruct v. Qed.

Lemma plain_py_gt v n : plain (py_gt v n).
Proof. by destruct v. Qed.

Lemma plain_py_append l x : plain (py_append l x).
Proof. by destruct l. Qed.

Lemma plain_py_succ n : plain (py_succ n).
Proof. by destruct n. Qed.

Lemma plain_bind {A B} (r : res A) (f : A -> res B) :
  plain r -> (forall a, plain (f a)) -> plain (res_bind r f).
Proof. destruct r; simpl; auto. Qed.

Lemma plain_extract_comment_connection payload :
  plain (extract_comment_connection payload).
Proof.
  destruct (is_dict payload) eqn:Hp.
  - destruct payload as [ | | | | | d]; try done.
    unfold extract_comment_connection.
    destruct (first_connection _ _); [done | ].
    destruct (scanned_connection_dict d ["__comments__connection"]) as [found ->].
    simpl. by destruct found.
  - unfold extract_comment_connection.
    rewrite first_connection_not_dict by auto using comment_candidates_data.
    by rewrite scanned_connection_not_dict.
Qed.

Lemma plain_extract_reply_connection payload :
  plain (extract_reply_connection payload).
Proof.
  destruct (is_dict payload) eqn:Hp.
  - destruct payload as [ | | | | | d]; try done.
    unfold extract_reply_connection.
    destruct (first_connection _ _); [done | ].
    destruct (scanned_connection_dict d
                ["__replies__connection"; "__comments__replies__connection"])
      as [found ->].
    simpl. destruct found; [done | ].
    destruct (scanned_connection_dict d ["__child_comments__connection"])
      as [found ->].
    simpl. destruct found; [done | ].
    apply plain_extract_comment_connection.
  - unfold extract_reply_connection.
    rewrite first_connection_not_dict by auto using reply_candidates_data.
    by rewrite scanned_connection_not_dict.
Qed.

Section PlainParsing.
Context `{PyLib} (Hlib : plain_lib).

Lemma plain_parse_timestamp value : plain (parse_timestamp value).
Proof.
  destruct value as [ | b | n | s | l | d]; try done; simpl;
    (apply plain_bind; [apply Hlib | done]).
Qed.

Lemma plain_parse_user node : plain (parse_user node).
Proof. unfold parse_user. by destruct (py_or _ _). Qed.

Lemma plain_parse_comment_node node post_owner_id :
  plain (parse_comment_node node post_owner_id).
Proof.
  destruct node as [ | | | | | n]; try done.
  unfold parse_comment_node.
  apply plain_bind; [apply plain_parse_timestamp | intros created_at].
  apply plain_bind; [apply plain_parse_user | intros user].
  apply plain_bind; [apply plain_py_get | done].
Qed.
End PlainParsing.

(** ** The pieces of the loop are steady *)

Section FetchFacts.
Context `{PyLib} (self : crawler).

Lemma fetch_comments_page_fetched shortcode media_id cursor w r w' :
  fetch_comments_page self shortcode media_id cursor w = (r, w') ->
  fetched self w r w'.
Proof.
  unfold fetch_comments_page.
  destruct (unconfigured _); [intros [= <- <-]; apply fetched_refl | ].
  destruct (comments self) as [e | ]; [ | intros [= <- <-]; apply fetched_refl].
  apply send_fetched.
Qed.

Lemma fetch_comment_replies_fetched comment_id cursor media_id w r w' :
  fetch_comment_replies self comment_id cursor media_id w = (r, w') ->
  fetched self w r w'.
Proof.
  unfold fetch_comment_replies.
  destruct (unconfigured _); [intros [= <- <-]; apply fetched_refl | ].
  destruct (comment_replies self) as [e | ]; [ | intros [= <- <-]; apply fetched_refl].
  apply send_fetched.
Qed.

(** What the loop needs of a fetch. *)
Lemma fetched_progress w r w' :
  fetched self w r w' ->
  plain r /\ (length (pending w') <= length (pending w))%nat /\
  (forall j, r = Ok j -> truthy j = true ->
             (length (pending w') < length (pending w))%nat).
Proof.
  intros ((_ & _ & Hp & _) & _ & _ & Hr). split_and!; [ | done | ].
  - destruct r as [j | e | ]; [done | | done].
    destruct Hr as [-> | ->]; done.
  - intros j -> Hj. auto.
Qed.
End FetchFacts.

Section LoopFacts.
Context `{PyLib} `{Clock} (Hlib : plain_lib) (self : crawler).
Context (shortcode : string) (media_id post_info : json).
Context (max_comments_arg : option Z).

Local Ltac steady_go :=
  repeat (first [ progress cbv zeta | steady_step ];
          try solve [ auto using plain_py_get, plain_py_get_or, plain_py_len,
                        plain_py_iter, plain_py_gt, plain_py_append,
                        plain_py_succ, plain_extract_comment_connection,
                        plain_extract_reply_connection,
                        plain_parse_comment_node ]).

Lemma add_reply_steady parsed_id replies reply_edge :
  steady (add_reply post_info parsed_id replies reply_edge).
Proof. unfold add_reply. steady_go. Qed.

Lemma add_replies_steady parsed_id reply_edges :
  forall replies, steady (add_replies post_info parsed_id replies reply_edges).
Proof.
  induction reply_edges as [ | reply_edge rest IH]; intros replies;
    cbn [add_replies]; [apply steady_ret | ].
  apply steady_bind; [apply add_reply_steady | auto].
Qed.

Lemma inline_replies_steady parsed_id reply_edges :
  steady (inline_replies post_info parsed_id reply_edges).
Proof.
  unfold inline_replies. steady_go. apply add_replies_steady.
Qed.

Lemma wp_ret_within {A} (a : A) n E l w :
  (length (pending w) <= n)%nat -> wp (ret a) (within n) E l w.
Proof. done. Qed.

Lemma reply_loop_steady fuel :
  forall parsed_id reply_cursor last_reply_cursor replies n l w,
    (length (pending w) < fuel)%nat -> (length (pending w) <= n)%nat ->
    wp (reply_loop self media_id post_info fuel parsed_id reply_cursor
          last_reply_cursor replies)
       (within n) (stopped n) l w.
Proof.
  induction fuel as [ | fuel IH];
    intros parsed_id reply_cursor last_reply_cursor replies n l w Hfuel Hn; [lia | ].
  cbn [reply_loop]. apply wp_bind. unfold wp at 1, io.
  destruct (fetch_comment_replies _ _ _ _ _) as [r w1] eqn:Hf.
  apply fetch_comment_replies_fetched, fetched_progress in Hf as (Hplain & Hle & Hlt).
  destruct r as [j | e | ]; [ | apply stopped_plain; [lia | done] | done].
  destruct (truthy j) eqn:Hj; [ | apply wp_ret_within; lia].
  specialize (Hlt j eq_refl Hj).
  apply (wp_mono _ (within (length (pending w1))) _
           (stopped (length (pending w1))));
    [ | unfold within; intros; lia
      | intros e l' w'; apply stopped_le; lia ].
  apply wp_bind_steady;
    [apply steady_lift, plain_extract_reply_connection | lia
    | intros [[reply_edges2 reply_page2] count] l2 w2 Hw2].
  apply wp_bind_steady;
    [apply steady_lift, plain_py_iter | lia | intros items l3 w3 Hw3].
  apply wp_bind_steady;
    [apply add_replies_steady | lia | intros replies' l4 w4 Hw4].
  apply wp_bind_steady;
    [apply steady_lift, plain_py_get | lia | intros more l5 w5 Hw5].
  destruct (truthy more); [ | by apply wp_ret_within].
  apply wp_bind_steady;
    [apply steady_lift, plain_py_get | lia | intros next l6 w6 Hw6].
  destruct (_ || _); [by apply wp_ret_within | ].
  apply IH; lia.
Qed.

Lemma reply_fueled_steady parsed_id reply_cursor last_reply_cursor replies :
  steady (bind reply_fuel
            (fun fuel => reply_loop self media_id post_info fuel parsed_id
                           reply_cursor last_reply_cursor replies)).
Proof.
  intros l w. apply wp_bind. unfold wp at 1, reply_fuel.
  apply reply_loop_steady; lia.
Qed.

Lemma fetched_replies_steady parsed_id reply_count reply_page replies :
  steady (fetched_replies self media_id post_info parsed_id reply_count
            reply_page replies).
Proof.
  unfold fetched_replies.
  repeat first [ apply reply_fueled_steady
               | steady_step; try solve [auto using plain_py_get, plain_py_gt] ].
Qed.

Lemma append_comment_steady parsed :
  steady (append_comment self max_comments_arg parsed).
Proof.
  unfold append_comment.
  apply steady_bind; [apply steady_get | intros comments].
  apply steady_bind; [apply steady_lift, plain_py_append | intros comments'].
  apply steady_bind; [apply steady_update | intros _].
  apply steady_bind; [apply steady_get | intros seen].
  destruct (max_hit _ _ _); [ | apply steady_ret].
  intros l w. unfold wp, bind, update, raise. split; [simpl; lia | done].
Qed.

Lemma process_edge_steady edge :
  steady (process_edge self media_id post_info max_comments_arg edge).
Proof.
  unfold process_edge.
  repeat first [ progress cbv zeta
               | apply inline_replies_steady
               | apply fetched_replies_steady
               | apply append_comment_steady
               | steady_step;
                 try solve [auto using plain_py_get, plain_parse_comment_node] ].
Qed.

Lemma checkpoint_steady : steady (checkpoint self shortcode post_info).
Proof.
  intros l w. unfold wp, checkpoint, save_resume_state.
  destruct (py_len (all_comments l)) as [n | e | ] eqn:Hlen; simpl.
  - unfold within. simpl. lia.
  - apply stopped_plain; [lia | ].
    pose proof (plain_py_len (all_comments l)) as Hp. by rewrite Hlen in Hp.
  - pose proof (plain_py_len (all_comments l)) as Hp. by rewrite Hlen in Hp.
Qed.
End LoopFacts.

(** ** A pass of the loop *)

Section PassFacts.
Context `{PyLib} `{Clock} (Hlib : plain_lib) (self : crawler).
Context (shortcode : string) (media_id post_info : json).
Context (max_comments_arg : option Z).

Lemma page_fetch_progress current_cursor attempts :
  forall payload w r w',
    truthy payload = false ->
    page_fetch self shortcode media_id current_cursor attempts payload w = (r, w') ->
    plain r /\ (length (pending w') <= length (pending w))%nat /\
    (forall j, r = Ok j -> truthy j = true ->
               (length (pending w') < length (pending w))%nat).
Proof.
  induction attempts as [ | attempt attempts IH]; intros payload w r w' Hpay Hrun.
  - simpl in Hrun. simplify_eq. split_and!; [done | done | ].
    intros j [= <-]. congruence.
  - cbn [page_fetch] in Hrun.
    destruct (fetch_comments_page _ _ _ _ _) as [r1 w1] eqn:Hf.
    apply fetch_comments_page_fetched, fetched_progress in Hf as (Hplain & Hle & Hlt).
    destruct r1 as [j1 | e | ]; [ | by simplify_eq | done].
    destruct (truthy j1) eqn:Hj1.
    + simplify_eq. split_and!; [done | done | ]. intros j [= <-] _. eauto.
    + apply IH in Hrun as (Hr & Hle2 & Hlt2); [ | done].
      assert (Hsame : forall b : bool,
                pending (if b then log (ESleep (page_retry_delay self * (attempt + 1))) w1
                         else w1) = pending w1) by (by intros []).
      rewrite Hsame in Hle2. split_and!; [done | lia | ].
      intros j Hj Ht. specialize (Hlt2 j Hj Ht). rewrite Hsame in Hlt2. lia.
Qed.

Lemma wp_leave reason n E l w :
  (length (pending w) <= n)%nat ->
  wp (bind (update (set_stop_reason (Some reason))) (fun _ => ret Break))
     (pass_post n) E l w.
Proof. intros Hn. unfold wp, bind, update, ret, pass_post. simpl. eauto. Qed.

Lemma page_end_pass current_cursor page_info n l w :
  (length (pending w) <= n)%nat ->
  wp (page_end self shortcode post_info current_cursor page_info)
     (pass_post n) (stopped n) l w.
Proof.
  intros Hn. unfold page_end.
  apply wp_bind_steady;
    [apply steady_lift, plain_py_get | lia | intros more l1 w1 Hw1].
  destruct (truthy more); [ | by apply wp_leave].
  apply wp_bind_steady; [apply steady_update | lia | intros _ l2 w2 Hw2].
  apply wp_bind_steady;
    [apply steady_lift, plain_py_get | lia | intros next_cursor l3 w3 Hw3].
  apply wp_bind_steady; [apply steady_update | lia | intros _ l4 w4 Hw4].
  destruct (truthy next_cursor); [ | by apply wp_leave].
  apply wp_bind_steady; [apply steady_get | lia | intros last l5 w5 Hw5].
  destruct (py_eq next_cursor last); [by apply wp_leave | ].
  apply wp_bind_steady; [apply steady_update | lia | intros _ l6 w6 Hw6].
  apply wp_bind_steady; [apply checkpoint_steady | lia | intros _ l7 w7 Hw7].
  unfold wp, ret, pass_post. by split.
Qed.

Lemma process_page_pass current_cursor payload n l w :
  (length (pending w) <= n)%nat ->
  wp (process_page self shortcode media_id post_info max_comments_arg
        current_cursor payload)
     (pass_post n) (stopped n) l w.
Proof.
  intros Hn. unfold process_page.
  apply wp_bind_steady; [apply steady_update | lia | intros _ l1 w1 Hw1].
  apply wp_bind_steady; [apply steady_get | lia | intros page_now l2 w2 Hw2].
  apply wp_bind_steady;
    [apply steady_lift, plain_py_succ | lia | intros page_next l3 w3 Hw3].
  apply wp_bind_steady; [apply steady_update | lia | intros _ l4 w4 Hw4].
  apply wp_bind_steady;
    [apply steady_lift, plain_extract_comment_connection | lia
    | intros [[edges page_info] count] l5 w5 Hw5].
  apply wp_bind_steady; [apply steady_get | lia | intros known l6 w6 Hw6].
  apply wp_bind_steady;
    [destruct known; first [apply steady_update | apply steady_ret] | lia
    | intros _ l7 w7 Hw7].
  apply wp_bind_steady;
    [apply steady_lift, plain_py_len | lia | intros len l8 w8 Hw8].
  apply wp_bind_steady;
    [apply steady_lift, plain_py_iter | lia | intros items l9 w9 Hw9].
  apply wp_bind_steady;
    [apply steady_for_each; intros edge; by apply process_edge_steady | lia
    | intros _ l10 w10 Hw10].
  by apply page_end_pass.
Qed.

(** A pass that goes on lowers the measure; a pass that leaves the loop
    has set the stop reason. *)
Lemma iteration_pass l w :
  wp (iteration self shortcode media_id post_info max_comments_arg)
     (fun what l' w' =>
        (length (pending w') <= length (pending w))%nat /\
        match what with
        | Next => (measure l' w' < measure l w)%nat
        | Break => is_Some (stop_reason l')
        end)
     (stopped (length (pending w))) l w.
Proof.
  unfold iteration. apply wp_bind. unfold wp at 1, get.
  apply wp_bind. unfold wp at 1, io.
  destruct (page_fetch _ _ _ _ _ _ _) as [r w1] eqn:Hf.
  apply page_fetch_progress in Hf as (Hplain & Hle & Hlt); [ | done].
  destruct r as [payload | e | ]; [ | by apply stopped_plain | done].
  destruct (truthy payload) eqn:Hpay.
  - specialize (Hlt payload eq_refl Hpay).
    eapply wp_mono;
      [apply (process_page_pass _ _ (length (pending w1))); lia | | ].
    + intros what l' w' [Hw' Hb]. split; [lia | ].
      destruct what; [ | auto]. unfold measure.
      destruct (backtrack_used l'), (backtrack_used l); lia.
    + intros e l' w'. apply stopped_le. lia.
  - unfold fetch_failed, wp, bind, get, update, ret. simpl.
    destruct (can_backtrack (cursor l) l) eqn:Hback; simpl.
    + split; [done | ]. unfold measure. simpl.
      unfold can_backtrack in Hback.
      apply andb_true_iff in Hback as [_ Hused]. apply negb_true_iff in Hused.
      rewrite Hused. lia.
    + split; [done | eauto].
Qed.

Lemma crawl_loop_ends fuel :
  forall l w,
    (measure l w < fuel)%nat ->
    wp (crawl_loop self shortcode media_id post_info max_comments_arg fuel)
       (fun _ l' w' =>
          is_Some (stop_reason l') /\
          (length (pending w') <= length (pending w))%nat)
       (stopped (length (pending w))) l w.
Proof.
  induction fuel as [ | fuel IH]; intros l w Hfuel; [lia | ].
  cbn [crawl_loop]. apply wp_bind.
  eapply wp_mono; [apply iteration_pass | | done].
  intros what l' w' [Hle Hwhat]. destruct what.
  - eapply wp_mono; [apply IH; lia | | ].
    + intros _ l'' w'' [Hs Hle']. split; [done | lia].
    + intros e l'' w''. by apply stopped_le.
  - unfold wp, ret. by split.
Qed.

(** The guarded loop ends with a stop reason, or with an error that is
    neither the interrupt nor [StopIteration]. *)
Lemma guarded_loop_ends l w :
  wp (guarded_loop self shortcode media_id post_info max_comments_arg
        (loop_fuel w))
     (fun _ l' w' =>
        is_Some (stop_reason l') /\
        (length (pending w') <= length (pending w))%nat)
     (fun e _ _ => e <> StopIteration /\ e <> KeyboardInterrupt) l w.
Proof.
  pose proof (crawl_loop_ends (loop_fuel w) l w) as Hloop.
  unfold wp, guarded_loop in *.
  destruct (crawl_loop _ _ _ _ _ _ l w) as [[[[] | e | ] l'] w'].
  - apply Hloop. unfold measure, loop_fuel. destruct (backtrack_used l); lia.
  - assert (Hs : stopped (length (pending w)) e l' w').
    { apply Hloop. unfold measure, loop_fuel. destruct (backtrack_used l); lia. }
    destruct Hs as [Hle Hstop].
    destruct e; try (by split); simpl; eauto.
  - apply Hloop. unfold measure, loop_fuel. destruct (backtrack_used l); lia.
Qed.
End PassFacts.

(** ** The whole crawl *)

Lemma plain_set_of_items items : forall s, plain (set_of_items items s).
Proof.
  induction items as [ | v items IH]; intros s; simpl; [done | ].
  destruct (key_of v); [apply IH | done].
Qed.

Lemma plain_py_set v : plain (py_set v).
Proof.
  unfold py_set. apply plain_bind; [apply plain_py_iter | intros items].
  apply plain_set_of_items.
Qed.

Lemma plain_resumed_locals resume_state : plain (resumed_locals resume_state).
Proof.
  unfold resumed_locals.
  repeat (apply plain_bind;
          [first [apply plain_py_get | apply plain_py_get_or | apply plain_py_set]
          | intros ?]).
  done.
Qed.

Section CrawlFacts.
Context `{PyLib} `{Clock} (Hlib : plain_lib) (self : crawler).

Lemma plain_resume_choice shortcode resume w :
  plain (resume_choice self shortcode resume w).
Proof.
  unfold resume_choice. destruct resume; [ | done].
  destruct (truthy _); [ | done].
  apply plain_bind; [apply plain_py_get | done].
Qed.

Lemma plain_post_info_of payload : plain (post_info_of payload).
Proof.
  unfold post_info_of.
  apply plain_bind; [by apply plain_parse_timestamp | done].
Qed.

Lemma plain_resolve_media_id shortcode w :
  plain (resolve_media_id self shortcode w).1.
Proof.
  unfold resolve_media_id. destruct (unconfigured _).
  - destruct (truthy _); [done | ].
    unfold resolve_media_id_from_html, next_event. simpl.
    destruct (pending w) as [ | [ | | status text parsed] rest]; simpl; try done.
    by destruct (status =? 200).
  - destruct (post_by_shortcode self) as [e | ]; [ | done].
    destruct (send _ _ _ _) as [r w1] eqn:Hs.
    apply send_fetched, fetched_progress in Hs as (Hplain & _).
    destruct r as [payload | err | ]; [ | done | done].
    destruct (truthy payload); [ | done].
    pose proof (plain_post_info_of payload) as Hp.
    by destruct (post_info_of payload).
Qed.

Lemma finalize_run shortcode post_info l w :
  finalize self shortcode post_info l w =
  match py_len (all_comments l) with
  | Ok n =>
      let d := result_fields post_info n (clock w) l in
      let path :=
        data_dir self +:+ "/ig_comments/" +:+ shortcode +:+ "_"
        +:+ stamp_now (S (clock w)) +:+ ".json" in
      let w1 := write_file path (JDict d) (tick (tick w).2).2 in
      (Ok (JDict (dict_set "output_path" (JStr path) d)), l,
       if complete (stop_reason l)
       then clear_resume_state self shortcode w1
       else (save_resume_state self shortcode post_info (all_comments l)
               (seen_comment_ids l) (cursor l) (last_cursor l) (page l)
               (total_count l) (stop_reason l) false w1).2)
  | Exc e => (Exc e, l, w)
  | OutOfFuel => (OutOfFuel, l, w)
  end.
Proof.
  unfold finalize, bind, get, lift, io, act, ret, checkpoint, save_output,
    save_resume_state.
  destruct (py_len (all_comments l)) as [n | e | ] eqn:Hlen; [ | done | done].
  simpl. destruct (complete (stop_reason l)); simpl; [done | ].
  by rewrite Hlen.
Qed.

Lemma plain_run_crawl shortcode media_id post_info max_comments_arg l w :
  plain (run_crawl self shortcode media_id post_info max_comments_arg l w).1.1.
Proof.
  unfold run_crawl, bind.
  pose proof (guarded_loop_ends Hlib self shortcode media_id post_info
                max_comments_arg l w) as Hloop.
  unfold wp in Hloop.
  destruct (guarded_loop _ _ _ _ _ _ l w) as [[[[] | e | ] l1] w1];
    [ | by destruct Hloop | done].
  rewrite finalize_run.
  pose proof (plain_py_len (all_comments l1)) as Hlen.
  by destruct (py_len (all_comments l1)).
Qed.
End CrawlFacts.

Section CrawlTheorems.
Context `{PyLib} `{Clock} (self : crawler).

Lemma run_crawl_finalized shortcode media_id post_info max_comments_arg
  l w result l' w' :
  plain_lib -> (forall t, stamp_now t <> "resume") ->
  run_crawl self shortcode media_id post_info max_comments_arg l w
  = (Ok result, l', w') ->
  finalized self shortcode result w'.
Proof.
  intros Hlib Hstamp. unfold run_crawl, bind.
  pose proof (guarded_loop_ends Hlib self shortcode media_id post_info
                max_comments_arg l w) as Hloop.
  unfold wp in Hloop.
  destruct (guarded_loop _ _ _ _ _ _ l w) as [[[[] | e | ] l1] w1];
    [ | done | done].
  destruct Hloop as [[reason Hreason] _]. rewrite finalize_run.
  destruct (py_len (all_comments l1)) as [n | e | ] eqn:Hlen; [ | done | done].
  cbv zeta. intros Heq. injection Heq as <- <- <-.
  set (path := data_dir self +:+ "/ig_comments/" +:+ shortcode +:+ "_"
               +:+ stamp_now (S (clock w1)) +:+ ".json").
  assert (Hpath : path <> resume_path self shortcode)
    by (apply output_path_differs, Hstamp).
  exists (result_fields post_info n (clock w1) l1), reason, path, n.
  split_and!; [done | done | | done | done | | ].
  - unfold result_fields, dict_get, dict_get_or. simpl. by rewrite Hreason.
  - destruct (complete (stop_reason l1)).
    + unfold clear_resume_state.
      destruct (files _ !! resume_path self shortcode); simpl.
      * rewrite lookup_delete_ne by done. by rewrite lookup_insert_eq.
      * by rewrite lookup_insert_eq.
    + unfold save_resume_state. rewrite Hlen. simpl.
      rewrite lookup_insert_ne by done. by rewrite lookup_insert_eq.
  - rewrite Hreason. unfold complete. destruct (decide (reason = NoMorePages)) as [-> | Hne].
    + rewrite bool_decide_eq_true_2 by done.
      match goal with
      | |- context [clear_resume_state _ _ ?x] => generalize x; intros w2
      end.
      unfold clear_resume_state, load_resume_state.
      destruct (files w2 !! resume_path self shortcode) eqn:Hf; simpl.
      * by rewrite lookup_delete_eq.
      * by rewrite Hf.
    + rewrite bool_decide_eq_false_2 by congruence.
      unfold save_resume_state, load_resume_state. rewrite Hlen. simpl.
      rewrite lookup_insert_eq. eexists. split; [reflexivity | ].
      by split_and!.
Qed.

(** X17. a crawl ends. Whatever the URL, the options and the responses that
    are pending, [crawl_post_comments] returns or raises an exception; the
    [while True] loops stop for lack of responses at the latest, and the
    [StopIteration] of the maximum never leaves the function. The
    conversion of timestamps is assumed to return or to raise an error of
    its own. *)
Theorem crawl_post_comments_ends (post_url : string)
  (max_comments_arg : option Z) (resume : option bool) (w : world) :
  plain_lib ->
  plain (crawl_post_comments self post_url max_comments_arg resume w).1.
Proof.
  intros Hlib. unfold crawl_post_comments.
  destruct (extract_shortcode post_url) as [shortcode | ]; [ | done].
  pose proof (plain_resume_choice self shortcode
                (default (resume_by_default self) resume) w) as Hc.
  destruct (resume_choice _ _ _ _) as [resume_state | e | ]; [ | done | done].
  destruct (truthy resume_state).
  - match goal with
    | |- context [match ?x with Ok _ => _ | Exc _ => _ | OutOfFuel => _ end] =>
        assert (Hp : plain x);
        [ | destruct x as [[[post stored] l] | e | ]; [ | done | done] ]
    end.
    { apply plain_bind; [apply plain_py_get_or | intros post].
      apply plain_bind; [apply plain_py_get | intros stored].
      apply plain_bind; [apply plain_resumed_locals | done]. }
    match goal with
    | |- context [run_crawl ?a ?b ?c ?d ?e ?f ?g] =>
        pose proof (plain_run_crawl Hlib a b c d e f g) as Hr;
        by destruct (run_crawl a b c d e f g) as [[r l'] w']
    end.
  - pose proof (plain_resolve_media_id Hlib self shortcode w) as Hm.
    destruct (resolve_media_id self shortcode w) as [[[mid post] | e | ] w1];
      [ | done | done].
    destruct post; try done.
    match goal with
    | |- context [run_crawl ?a ?b ?c ?d ?e ?f ?g] =>
        pose proof (plain_run_crawl Hlib a b c d e f g) as Hr;
        by destruct (run_crawl a b c d e f g) as [[r l'] w']
    end.
Qed.

(** X18. what a crawl that returns leaves behind. The result names one of
    the six stop reasons and the length of its comments; the output file
    holds the result as it was before [output_path] was added to it; the
    checkpoint of the post is gone when the reason is [no_more_pages], and
    otherwise holds the post, the comments, the pages and the stop reason
    of the result, not marked complete. *)
Theorem crawl_result_finalized (post_url : string)
  (max_comments_arg : option Z) (resume : option bool) (w : world)
  (result : json) (w' : world) :
  plain_lib -> (forall t, stamp_now t <> "resume") ->
  crawl_post_comments self post_url max_comments_arg resume w = (Ok result, w') ->
  exists shortcode,
    extract_shortcode post_url = Some shortcode /\
    finalized self shortcode result w'.
Proof.
  intros Hlib Hstamp. unfold crawl_post_comments.
  destruct (extract_shortcode post_url) as [shortcode | ]; [ | done].
  intros Hrun. exists shortcode. split; [done | ].
  destruct (resume_choice _ _ _ _) as [resume_state | e | ]; [ | done | done].
  destruct (truthy resume_state).
  - match type of Hrun with
    | context [match ?x with Ok _ => _ | Exc _ => _ | OutOfFuel => _ end] =>
        destruct x as [[[post stored] l] | e | ]; [ | done | done]
    end.
    destruct (run_crawl _ _ _ _ _ _ _) as [[r l'] w''] eqn:Hc.
    injection Hrun as -> ->. by eapply run_crawl_finalized.
  - destruct (resolve_media_id self shortcode w) as [[[mid post] | e | ] w1];
      [ | done | done].
    destruct post; try done.
    destruct (run_crawl _ _ _ _ _ _ _) as [[r l'] w''] eqn:Hc.
    injection Hrun as -> ->. by eapply run_crawl_finalized.
Qed.
End CrawlTheorems.

Lemma demo_lib_plain : @plain_lib demo_lib.
Proof. by intros n. Qed.

Lemma demo_clock_stamp t : @stamp_now demo_clock t <> "resume".
Proof.
  intros Heq. change (String "S" (pretty t) = "resume") in Heq. discriminate.
Qed.

(** A post of one page with one comment. *)
Lemma crawl_post_comments_ends_witness :
  let w := demo_world [demo_ok (demo_page [demo_edge "17900000000000001"] false JNull)] in
  @plain_lib demo_lib /\
  plain (@crawl_post_comments demo_lib demo_clock demo_crawler
           "https://www.instagram.com/p/ABC123xyz/" None None w).1.
Proof.
  intros w. split; [apply demo_lib_plain | ].
  apply (@crawl_post_comments_ends demo_lib demo_clock demo_crawler
           "https://www.instagram.com/p/ABC123xyz/" None None w).
  apply demo_lib_plain.
Defined.

(** The same post, crawled to its last page. *)
Lemma crawl_result_finalized_witness :
  let w := demo_world [demo_ok (demo_page [demo_edge "17900000000000001"] false JNull)] in
  let post_url := "https://www.instagram.com/p/ABC123xyz/" in
  (@plain_lib demo_lib /\ forall t, @stamp_now demo_clock t <> "resume") /\
  exists result w',
    @crawl_post_comments demo_lib demo_clock demo_crawler post_url None None w
    = (Ok result, w') /\
    exists shortcode,
      extract_shortcode post_url = Some shortcode /\
      finalized demo_crawler shortcode result w'.
Proof.
  intros w post_url.
  split; [split; [apply demo_lib_plain | apply demo_clock_stamp] | ].
  destruct (@crawl_post_comments demo_lib demo_clock demo_crawler post_url
              None None w) as [r w'] eqn:Hrun.
  assert (Hok : exists result, r = Ok result).
  { apply (f_equal fst) in Hrun. simpl in Hrun. subst r.
    vm_compute. by eexists. }
  destruct Hok as [result ->]. exists result, w'. split; [reflexivity | ].
  exact (@crawl_result_finalized demo_lib demo_clock demo_crawler post_url
           None None w result w' demo_lib_plain demo_clock_stamp Hrun).
Defined.

(** ** Rules for what the loop does to its locals *)

Lemma sound_bind {A B} (m : L A) (k : A -> L B) Q E l :
  sound m (fun a l' => sound (k a) Q E l') E l -> sound (bind m k) Q E l.
Proof.
  intros Hm w. specialize (Hm w). unfold bind.
  destruct (m l w) as [[[a | e | ] l'] w']; [apply Hm | done | done].
Qed.

Lemma sound_mono {A} (m : L A) (Q Q' : A -> locals -> Prop) (E E' : locals -> Prop) l :
  sound m Q E l ->
  (forall a l', Q a l' -> Q' a l') -> (forall l', E l' -> E' l') ->
  sound m Q' E' l.
Proof.
  intros Hm HQ HE w. specialize (Hm w).
  destruct (m l w) as [[[a | e | ] l'] w']; auto.
Qed.

Lemma sound_ret {A} (a : A) (Q : A -> locals -> Prop) E l : Q a l -> sound (ret a) Q E l.
Proof. by intros HQ w. Qed.

Lemma sound_raise {A} e (Q : A -> locals -> Prop) (E : locals -> Prop) l :
  E l -> sound (raise e) Q E l.
Proof. by intros HE w. Qed.

Lemma sound_update (f : locals -> locals) (Q : unit -> locals -> Prop) E l :
  Q () (f l) -> sound (update f) Q E l.
Proof. by intros HQ w. Qed.

Lemma sound_bind_update {B} (f : locals -> locals) (k : unit -> L B) Q E l :
  sound (k ()) Q E (f l) -> sound (bind (update f) k) Q E l.
Proof. intros Hk. by apply sound_bind, sound_update. Qed.

Lemma sound_bind_get {A B} (field : locals -> A) (k : A -> L B) Q E l :
  sound (k (field l)) Q E l -> sound (bind (get field) k) Q E l.
Proof. intros Hk. apply sound_bind. by intros w. Qed.

Lemma sound_bind_lift {A B} (r : res A) (k : A -> L B) Q (E : locals -> Prop) l :
  E l -> (forall a, r = Ok a -> sound (k a) Q E l) ->
  sound (bind (lift r) k) Q E l.
Proof.
  intros HE Hk. apply sound_bind. intros w. unfold lift.
  destruct r; [by apply Hk | done | done].
Qed.

Lemma sound_bind_same {A B} (m : L A) (k : A -> L B) Q (E : locals -> Prop) l :
  keeps_locals m -> E l -> (forall a, sound (k a) Q E l) ->
  sound (bind m k) Q E l.
Proof.
  intros Hm HE Hk. apply sound_bind. intros w. specialize (Hm l w).
  destruct (m l w) as [[[a | e | ] l'] w']; simpl in Hm; subst; auto.
Qed.

Lemma keeps_io {A} (f : world -> res A * world) : keeps_locals (io f).
Proof. intros l w. unfold io. by destruct (f w). Qed.

Lemma keeps_reply_fuel : keeps_locals reply_fuel.
Proof. by intros l w. Qed.

Lemma keeps_checkpoint `{Clock} self shortcode post_info :
  keeps_locals (checkpoint self shortcode post_info).
Proof. intros l w. unfold checkpoint. by destruct (save_resume_state _ _ _ _ _ _ _ _ _ _ _ _). Qed.

(** ** Ids of records and of trees *)

Lemma tree_ids_app cs1 cs2 : tree_ids (cs1 ++ cs2) = tree_ids cs1 ++ tree_ids cs2.
Proof. apply flat_map_app. Qed.

Lemma comment_ids_dict d :
  comment_ids (JDict d) = dict_get d "id" :: tree_ids (reply_list d).
Proof.
  cbn -[String.eqb]. f_equal. induction d as [ | [k v] d IH]; [done | ].
  cbn -[String.eqb]. destruct (String.eqb "replies" k); [ | exact IH].
  by destruct v.
Qed.

Lemma is_id_key v :
  is_id v = true -> exists k, key_of v = Some k /\ key_twin k = None.
Proof. destruct v; try done; intros _; by eexists. Qed.

Lemma id_keys_app ids1 ids2 : id_keys (ids1 ++ ids2) = id_keys ids1 ∪ id_keys ids2.
Proof. unfold id_keys. rewrite omap_app, list_to_set_app_L. done. Qed.

Lemma id_keys_elem v k ids : v ∈ ids -> key_of v = Some k -> k ∈ id_keys ids.
Proof.
  intros Hv Hk. unfold id_keys. apply elem_of_list_to_set, list_elem_of_omap.
  by exists v.
Qed.

Section RecordFacts.
Context `{PyLib}.

Lemma parse_comment_node_record node post_owner_id parsed :
  parse_comment_node node post_owner_id = Ok parsed ->
  exists id text created_at like_count gif_url user is_author reply_count,
    parsed = JDict [("id", id); ("text", text); ("created_at", created_at);
                    ("like_count", like_count); ("gif_url", gif_url);
                    ("user", user); ("is_author", is_author);
                    ("reply_count", reply_count); ("replies", JList [])] /\
    is_id id = true.
Proof.
  destruct node as [ | | | | | n]; try done.
  unfold parse_comment_node, res_bind.
  destruct (parse_timestamp _) as [created_at | | ]; [ | done | done].
  destruct (parse_user n) as [user | | ] eqn:Hu; [ | done | done].
  destruct (parse_user_shape _ _ Hu) as (uid & un & fn & iv & ->).
  cbn [py_get py_get_or]. intros [= <-].
  do 8 eexists. split; [reflexivity | ].
  by destruct (py_or (dict_get n "id") (dict_get n "pk")).
Qed.
End RecordFacts.

(** ** The invariant under the steps of the loop *)

Lemma dedup_with_same building l l' :
  all_comments l' = all_comments l ->
  seen_comment_ids l' = seen_comment_ids l ->
  dedup_with building l -> dedup_with building l'.
Proof.
  intros Hc Hs (cs & Hcs & Hnd & Hid & Hsub). exists cs.
  rewrite Hc, Hs. by split_and!.
Qed.

Lemma dedup_with_drop building l : dedup_with building l -> dedup_with [] l.
Proof.
  intros (cs & Hcs & Hnd & Hid & Hsub). exists cs. rewrite app_nil_r.
  split_and!; [done | by apply NoDup_app in Hnd as [? _]
              | by apply Forall_app in Hid as [? _] | ].
  rewrite id_keys_app in Hsub. set_solver.
Qed.

Lemma dedup_with_inv l : dedup_with [] l <-> dedup_inv l.
Proof.
  unfold dedup_with, dedup_inv.
  split; intros (cs & H); exists cs; by rewrite app_nil_r in *.
Qed.

(** A new id joins what is being built. *)
Lemma dedup_with_add building v k l :
  dedup_with building l -> is_id v = true -> key_of v = Some k ->
  seen_has k (seen_comment_ids l) = false ->
  dedup_with (building ++ [v]) (set_seen (seen_add k (seen_comment_ids l)) l).
Proof.
  intros (cs & Hcs & Hnd & Hid & Hsub) Hv Hk Hseen. exists cs.
  destruct (is_id_key v Hv) as (k' & Hk' & Htwin). simplify_eq.
  rewrite seen_has_plain in Hseen by done. apply bool_decide_eq_false in Hseen.
  rewrite app_assoc. simpl. split_and!; [done | | | ].
  - apply NoDup_app. split_and!; [done | | apply NoDup_singleton].
    intros x Hx ->%list_elem_of_singleton. apply Hseen, Hsub.
    by eapply id_keys_elem.
  - apply Forall_app. split; [done | by repeat constructor].
  - rewrite seen_add_plain by done. rewrite id_keys_app.
    unfold id_keys at 2. simpl. rewrite Hk. simpl. set_solver.
Qed.

(** The comment that was being built joins the tree. *)
Lemma dedup_with_append building parsed cs l :
  dedup_with building l -> comment_ids parsed = building ->
  all_comments l = JList cs ->
  dedup_with [] (set_all_comments (JList (cs ++ [parsed])) l).
Proof.
  intros (cs' & Hcs & Hnd & Hid & Hsub) Hids Hl. simplify_eq.
  exists (cs' ++ [parsed]). simpl.
  rewrite tree_ids_app, app_nil_r.
  assert (tree_ids [parsed] = comment_ids parsed) as ->
    by (unfold tree_ids; simpl; apply app_nil_r).
  split_and!; [congruence | done | done | done].
Qed.

(** ** The loop keeps the dedup invariant *)

Lemma keeps_ret {A} (a : A) : keeps_locals (ret a).
Proof. by intros l w. Qed.

Lemma keeps_lift {A} (r : res A) : keeps_locals (lift r).
Proof. by intros l w. Qed.

Lemma keeps_bind {A B} (m : L A) (k : A -> L B) :
  keeps_locals m -> (forall a, keeps_locals (k a)) -> keeps_locals (bind m k).
Proof.
  intros Hm Hk l w. specialize (Hm l w). unfold bind.
  destruct (m l w) as [[[a | e | ] l'] w']; simpl in *; subst; [apply Hk | done | done].
Qed.

Section DedupLoop.
Context `{PyLib} `{Clock} (self : crawler).
Context (shortcode : string) (media_id post_info : json).
Context (max_comments_arg : option Z).

Lemma add_reply_dedup parent parsed_id replies reply_edge l :
  dedup_with (parent :: tree_ids replies) l ->
  sound (add_reply post_info parsed_id replies reply_edge)
    (fun rs l' => dedup_with (parent :: tree_ids rs) l') (dedup_with []) l.
Proof.
  intros Hinv. assert (HE := dedup_with_drop _ _ Hinv).
  unfold add_reply. cbv zeta.
  destruct (truthy (node_of reply_edge)); [ | by apply sound_ret].
  apply sound_bind_lift; [done | intros owner _].
  apply sound_bind_lift; [done | intros reply Hparse].
  apply parse_comment_node_record in Hparse
    as (id & text & created & likes & gif & user & auth & rc & -> & Hid).
  cbn. apply sound_bind_get.
  destruct (is_id_key id Hid) as (k & Hk & Htwin). rewrite Hk.
  destruct (truthy id && negb (seen_has k (seen_comment_ids l))) eqn:Hc;
    [ | by apply sound_ret].
  apply andb_true_iff in Hc as [_ Hns]. apply negb_true_iff in Hns.
  apply sound_bind_update, sound_ret.
  rewrite tree_ids_app.
  by apply (dedup_with_add (parent :: tree_ids replies) id k l).
Qed.

Lemma add_replies_dedup parent parsed_id reply_edges :
  forall replies l,
    dedup_with (parent :: tree_ids replies) l ->
    sound (add_replies post_info parsed_id replies reply_edges)
      (fun rs l' => dedup_with (parent :: tree_ids rs) l') (dedup_with []) l.
Proof.
  induction reply_edges as [ | reply_edge rest IH]; intros replies l Hinv;
    cbn [add_replies]; [by apply sound_ret | ].
  apply sound_bind.
  eapply sound_mono; [by apply add_reply_dedup | | done].
  intros rs l' Hrs. by apply IH.
Qed.

Lemma reply_loop_dedup parent fuel :
  forall parsed_id reply_cursor last_reply_cursor replies l,
    dedup_with (parent :: tree_ids replies) l ->
    sound (reply_loop self media_id post_info fuel parsed_id reply_cursor
             last_reply_cursor replies)
      (fun rs l' => dedup_with (parent :: tree_ids rs) l') (dedup_with []) l.
Proof.
  induction fuel as [ | fuel IH];
    intros parsed_id reply_cursor last_reply_cursor replies l Hinv;
    [by intros w | ].
  assert (HE := dedup_with_drop _ _ Hinv). cbn [reply_loop].
  apply sound_bind_same; [apply keeps_io | done | intros payload].
  destruct (truthy payload); [ | by apply sound_ret].
  apply sound_bind_lift;
    [done | intros [[reply_edges2 reply_page2] count] _].
  apply sound_bind_lift; [done | intros items _].
  apply sound_bind.
  eapply sound_mono; [by apply add_replies_dedup | | done].
  intros rs l' Hrs. assert (HE' := dedup_with_drop _ _ Hrs).
  apply sound_bind_lift; [done | intros more _].
  destruct (truthy more); [ | by apply sound_ret].
  apply sound_bind_lift; [done | intros next _].
  destruct (_ || _); [by apply sound_ret | by apply IH].
Qed.

Lemma inline_replies_dedup parent parsed_id reply_edges l :
  dedup_with [parent] l ->
  sound (inline_replies post_info parsed_id reply_edges)
    (fun rs l' => dedup_with (parent :: tree_ids rs) l') (dedup_with []) l.
Proof.
  intros Hinv. assert (HE := dedup_with_drop _ _ Hinv). unfold inline_replies.
  destruct (truthy reply_edges); [ | by apply sound_ret].
  apply sound_bind_lift; [done | intros items _].
  by apply add_replies_dedup.
Qed.

Lemma fetched_replies_dedup parent parsed_id reply_count reply_page replies l :
  dedup_with (parent :: tree_ids replies) l ->
  sound (fetched_replies self media_id post_info parsed_id reply_count
           reply_page replies)
    (fun rs l' => dedup_with (parent :: tree_ids rs) l') (dedup_with []) l.
Proof.
  intros Hinv. assert (HE := dedup_with_drop _ _ Hinv). unfold fetched_replies.
  destruct parsed_id as [ | | | id | | ]; try (by apply sound_ret).
  destruct (_ && _); [ | by apply sound_ret].
  apply sound_bind_lift; [done | intros more _].
  apply sound_bind_same; [ | done | intros need].
  { destruct more; [apply keeps_ret | ].
    apply keeps_bind; [apply keeps_lift | intros has; apply keeps_ret]. }
  destruct need; [ | by apply sound_ret].
  apply sound_bind_lift; [done | intros has _].
  apply sound_bind_same; [ | done | intros reply_cursor].
  { destruct (truthy has); [apply keeps_lift | apply keeps_ret]. }
  apply sound_bind_same; [apply keeps_reply_fuel | done | intros fuel].
  by apply reply_loop_dedup.
Qed.

Lemma append_comment_dedup building parsed l :
  dedup_with building l -> comment_ids parsed = building ->
  sound (append_comment self max_comments_arg parsed)
    (fun _ l' => dedup_with [] l') (dedup_with []) l.
Proof.
  intros Hinv Hids. assert (HE := dedup_with_drop _ _ Hinv).
  unfold append_comment. apply sound_bind_get.
  destruct Hinv as (cs & Hcs & Hrest). rewrite Hcs. cbn [py_append].
  apply sound_bind_lift; [done | intros comments [= <-]].
  assert (Hnew : dedup_with [] (set_all_comments (JList (cs ++ [parsed])) l)).
  { eapply dedup_with_append; [ | done | done]. by exists cs. }
  apply sound_bind_update, sound_bind_get.
  destruct (max_hit _ _ _); [ | by apply sound_ret].
  apply sound_bind_update, sound_raise.
  by eapply dedup_with_same; [ | | exact Hnew].
Qed.

Lemma process_edge_dedup edge l :
  dedup_with [] l ->
  sound (process_edge self media_id post_info max_comments_arg edge)
    (fun _ l' => dedup_with [] l') (dedup_with []) l.
Proof.
  intros Hinv. unfold process_edge. cbv zeta.
  destruct (truthy (node_of edge)); [ | by apply sound_ret].
  apply sound_bind_lift; [done | intros owner _].
  apply sound_bind_lift; [done | intros parsed Hparse].
  apply parse_comment_node_record in Hparse
    as (id & text & created & likes & gif & user & auth & rc & -> & Hid).
  destruct (node_of edge) as [ | | | | | n]; try (by apply sound_raise).
  cbn [dict_get dict_get_or dict_lookup String.eqb Ascii.eqb Bool.eqb].
  apply sound_bind_get.
  destruct (is_id_key id Hid) as (k & Hk & Htwin). rewrite Hk.
  destruct (seen_has k (seen_comment_ids l)) eqn:Hseen; [by apply sound_ret | ].
  apply sound_bind_update.
  pose proof (dedup_with_add [] id k l Hinv Hid Hk Hseen) as Hnow.
  destruct (extract_replies_from_node n) as [reply_edges reply_page].
  apply sound_bind.
  eapply sound_mono; [by apply (inline_replies_dedup id) | | done].
  intros rs l1 Hrs. apply sound_bind.
  eapply sound_mono; [by apply (fetched_replies_dedup id) | | done].
  intros rs' l2 Hrs'.
  eapply append_comment_dedup; [exact Hrs' | ].
  by rewrite comment_ids_dict.
Qed.

Lemma for_each_dedup edges :
  forall l,
    dedup_with [] l ->
    sound (for_each (process_edge self media_id post_info max_comments_arg) edges)
      (fun _ l' => dedup_with [] l') (dedup_with []) l.
Proof.
  induction edges as [ | edge edges IH]; intros l Hinv; cbn [for_each];
    [by apply sound_ret | ].
  apply sound_bind.
  eapply sound_mono; [by apply process_edge_dedup | | done].
  intros u l' Hl'. by apply IH.
Qed.
End DedupLoop.

(** ** The crawl keeps the dedup invariant *)

Ltac same_inv H :=
  first [ exact H | eapply dedup_with_same; [ | | exact H]; reflexivity ].

Lemma dict_get_or_list d k cs dflt :
  dict_get_or d k JNull = JList cs -> dict_get_or d k dflt = JList cs.
Proof. unfold dict_get_or. by destruct (dict_lookup k d). Qed.

Lemma set_of_items_has items :
  forall s s',
    set_of_items items s = Ok s' ->
    s ⊆ s' /\
    forall v k, v ∈ items -> key_of v = Some k -> key_twin k = None -> k ∈ s'.
Proof.
  induction items as [ | x items IH]; intros s s' Hrun; simpl in Hrun.
  - simplify_eq. split; [done | ]. intros v k Hv. by apply elem_of_nil in Hv.
  - destruct (key_of x) as [kx | ] eqn:Hx; [ | done].
    apply IH in Hrun as [Hsub Hall].
    assert (Hgrow : s ⊆ seen_add kx s)
      by (unfold seen_add; destruct (seen_has kx s); set_solver).
    split; [set_solver | ].
    intros v k [-> | Hv]%elem_of_cons Hk Htwin; [ | by eapply Hall].
    simplify_eq. apply Hsub. rewrite seen_add_plain by done. set_solver.
Qed.

Section DedupCrawl.
Context `{PyLib} `{Clock} (self : crawler).
Context (shortcode : string) (media_id post_info : json).
Context (max_comments_arg : option Z).

Lemma page_end_dedup current_cursor page_info l :
  dedup_with [] l ->
  sound (page_end self shortcode post_info current_cursor page_info)
    (fun _ l' => dedup_with [] l') (dedup_with []) l.
Proof.
  intros Hinv. unfold page_end.
  apply sound_bind_lift; [done | intros more _].
  destruct (truthy more);
    [ | apply sound_bind_update, sound_ret; same_inv Hinv].
  apply sound_bind_update.
  apply sound_bind_lift; [same_inv Hinv | intros next_cursor _].
  apply sound_bind_update.
  destruct (truthy next_cursor);
    [ | apply sound_bind_update, sound_ret; same_inv Hinv].
  apply sound_bind_get.
  destruct (py_eq _ _);
    [apply sound_bind_update, sound_ret; same_inv Hinv | ].
  apply sound_bind_update.
  apply sound_bind_same; [apply keeps_checkpoint | same_inv Hinv | intros u].
  apply sound_ret. same_inv Hinv.
Qed.

Lemma process_page_dedup current_cursor payload l :
  dedup_with [] l ->
  sound (process_page self shortcode media_id post_info max_comments_arg
           current_cursor payload)
    (fun _ l' => dedup_with [] l') (dedup_with []) l.
Proof.
  intros Hinv. unfold process_page.
  apply sound_bind_update, sound_bind_get.
  apply sound_bind_lift; [same_inv Hinv | intros page_next _].
  apply sound_bind_update.
  apply sound_bind_lift;
    [same_inv Hinv | intros [[edges page_info] count] _].
  apply sound_bind_get, sound_bind.
  apply (sound_mono _ (fun _ l' => dedup_with [] l') _ (dedup_with [])).
  - match goal with
    | |- sound (match ?known with _ => _ end) _ _ _ =>
        destruct known; first [apply sound_update | apply sound_ret];
        same_inv Hinv
    end.
  - intros u l1 H1.
    apply sound_bind_lift; [done | intros len _].
    apply sound_bind_lift; [done | intros items _].
    apply sound_bind.
    eapply sound_mono; [by apply for_each_dedup | | done].
    intros u' l2 H2. by apply page_end_dedup.
  - done.
Qed.

Lemma iteration_dedup l :
  dedup_with [] l ->
  sound (iteration self shortcode media_id post_info max_comments_arg)
    (fun _ l' => dedup_with [] l') (dedup_with []) l.
Proof.
  intros Hinv. unfold iteration. apply sound_bind_get.
  apply sound_bind_same; [apply keeps_io | done | intros payload].
  destruct (truthy payload); [by apply process_page_dedup | ].
  unfold fetch_failed. apply sound_bind_get.
  destruct (can_backtrack _ _).
  - apply sound_bind_get. do 2 apply sound_bind_update.
    apply sound_ret. same_inv Hinv.
  - apply sound_bind_update, sound_ret. same_inv Hinv.
Qed.

Lemma crawl_loop_dedup fuel :
  forall l,
    dedup_with [] l ->
    sound (crawl_loop self shortcode media_id post_info max_comments_arg fuel)
      (fun _ l' => dedup_with [] l') (dedup_with []) l.
Proof.
  induction fuel as [ | fuel IH]; intros l Hinv; [by intros w | ].
  cbn [crawl_loop]. apply sound_bind.
  eapply sound_mono; [by apply iteration_dedup | | done].
  intros what l' Hl'. destruct what; [by apply IH | by apply sound_ret].
Qed.

Lemma guarded_loop_dedup fuel l :
  dedup_with [] l ->
  sound (guarded_loop self shortcode media_id post_info max_comments_arg fuel)
    (fun _ l' => dedup_with [] l') (fun _ => True) l.
Proof.
  intros Hinv w. pose proof (crawl_loop_dedup fuel l Hinv w) as Hloop.
  unfold guarded_loop.
  destruct (crawl_loop _ _ _ _ _ _ l w) as [[[[] | e | ] l'] w']; [done | | done].
  destruct e; try done; same_inv Hloop.
Qed.
End DedupCrawl.

Section DedupTheorem.
Context `{PyLib} `{Clock} (self : crawler).

Lemma checkpoint_ok_saved shortcode post_info l n w :
  dedup_with [] l -> py_len (all_comments l) = Ok n ->
  checkpoint_ok
    (load_resume_state self shortcode
       (save_resume_state self shortcode post_info (all_comments l)
          (seen_comment_ids l) (cursor l) (last_cursor l) (page l)
          (total_count l) (stop_reason l) false w).2).
Proof.
  intros (cs & Hcs & Hnd & Hid & Hsub) Hlen. rewrite app_nil_r in *.
  unfold save_resume_state, load_resume_state. rewrite Hlen. simpl.
  rewrite lookup_insert_eq.
  exists cs, (map json_of_key (elements (seen_comment_ids l))).
  split_and!; [by rewrite Hcs | done | done | ].
  apply Forall_forall. intros v Hv.
  assert (Hv' : is_id v = true) by (by eapply Forall_forall in Hid).
  split; [done | ].
  destruct (is_id_key v Hv') as (k & Hk & _).
  apply list_elem_of_fmap. exists k. split; [by rewrite (json_of_key_of v k) | ].
  apply elem_of_elements, Hsub. by eapply id_keys_elem.
Qed.

Lemma run_crawl_dedup shortcode media_id post_info max_comments_arg
  l w result l' w' :
  dedup_with [] l ->
  run_crawl self shortcode media_id post_info max_comments_arg l w
  = (Ok result, l', w') ->
  (exists cs,
     py_get result "comments" = Ok (JList cs) /\
     NoDup (tree_ids cs) /\ Forall (fun v => is_id v = true) (tree_ids cs)) /\
  (truthy (load_resume_state self shortcode w') = true ->
   checkpoint_ok (load_resume_state self shortcode w')).
Proof.
  intros Hinv. unfold run_crawl, bind.
  pose proof (guarded_loop_dedup self shortcode media_id post_info
                max_comments_arg (loop_fuel w) l Hinv w) as Hloop.
  destruct (guarded_loop _ _ _ _ _ _ l w) as [[[[] | e | ] l1] w1];
    [ | done | done].
  rewrite finalize_run.
  destruct (py_len (all_comments l1)) as [n | e | ] eqn:Hlen; [ | done | done].
  cbv zeta. intros Heq. injection Heq as <- <- <-. split.
  - destruct Hloop as (cs & Hcs & Hnd & Hid & _). rewrite app_nil_r in *.
    exists cs. split_and!; [ | done | done].
    unfold result_fields. cbn. by rewrite Hcs.
  - destruct (complete (stop_reason l1)).
    + by rewrite load_after_clear.
    + intros _. by eapply checkpoint_ok_saved.
Qed.

Lemma resumed_locals_dedup resume_state l :
  checkpoint_ok resume_state ->
  resumed_locals resume_state = Ok l -> dedup_with [] l.
Proof.
  intros (cs & ids & Hcs & Hids & Hnd & Hall).
  destruct resume_state as [ | | | | | d]; try done.
  simpl in Hcs, Hids. injection Hcs as Hcs. injection Hids as Hids.
  unfold resumed_locals. cbn [py_get_or py_get res_bind].
  fold (dict_get d "comments") in Hcs. fold (dict_get d "seen_comment_ids") in Hids.
  unfold dict_get in Hcs, Hids.
  rewrite (dict_get_or_list _ _ _ _ Hcs), (dict_get_or_list _ _ _ _ Hids).
  unfold py_set. cbn [py_iter res_bind].
  destruct (set_of_items ids ∅) as [seen | | ] eqn:Hset; [ | done | done].
  intros [= <-]. exists cs. simpl. rewrite app_nil_r.
  apply set_of_items_has in Hset as [_ Hhas].
  split_and!; [done | done | | ].
  - eapply Forall_impl; [exact Hall | ]. by intros v [? _].
  - intros k Hk. apply elem_of_list_to_set, list_elem_of_omap in Hk
      as (v & Hv & Hkv).
    eapply Forall_forall in Hall as [Hid Hin]; [ | exact Hv].
    destruct (is_id_key v Hid) as (k' & Hk' & Htwin). simplify_eq.
    by eapply Hhas.
Qed.

(** X19. a crawl keeps its comments free of duplicates. When the checkpoint
    it may resume from is in order (each id of its comment tree, replies
    included, appears once and is listed among its seen ids), the comments
    of the result hold each id once, top-level comments and replies
    together, each id being [None] or a string; and the checkpoint it
    leaves behind, if any, is in order again. *)
Theorem crawl_keeps_dedup (post_url : string) (max_comments_arg : option Z)
  (resume : option bool) (w : world) (result : json) (w' : world) :
  resumable self post_url w ->
  crawl_post_comments self post_url max_comments_arg resume w = (Ok result, w') ->
  (exists cs,
     py_get result "comments" = Ok (JList cs) /\
     NoDup (tree_ids cs) /\ Forall (fun v => is_id v = true) (tree_ids cs)) /\
  resumable self post_url w'.
Proof.
  intros Hres. unfold crawl_post_comments.
  destruct (extract_shortcode post_url) as [shortcode | ] eqn:Hcode; [ | done].
  specialize (Hres shortcode Hcode).
  assert (Hgoal : forall media_id post_info l l' w0,
            dedup_with [] l ->
            run_crawl self shortcode media_id post_info max_comments_arg l w0
            = (Ok result, l', w') ->
            (exists cs,
               py_get result "comments" = Ok (JList cs) /\
               NoDup (tree_ids cs) /\
               Forall (fun v => is_id v = true) (tree_ids cs)) /\
            resumable self post_url w').
  { intros media_id post_info l l' w0 Hinv Hrun.
    apply run_crawl_dedup in Hrun as [Hcs Hck]; [ | done].
    split; [done | ]. intros sc Hsc. by simplify_eq. }
  unfold resume_choice.
  destruct (default (resume_by_default self) resume).
  - destruct (truthy (load_resume_state self shortcode w)) eqn:Hstate.
    + specialize (Hres eq_refl).
      destruct (py_get _ "complete") as [done_flag | | ]; [ | done | done].
      cbn [res_bind]. destruct (truthy done_flag).
      * cbn [truthy].
        destruct (resolve_media_id self shortcode w) as [[[mid post] | e | ] w1];
          [ | done | done].
        destruct post; try done.
        destruct (run_crawl _ _ _ _ _ _ _) as [[r l'] w''] eqn:Hc.
        intros [= -> ->]. eapply Hgoal; [ | exact Hc].
        exists []. by split_and!; [ | constructor | | ].
      * rewrite Hstate.
        destruct (py_get_or _ "post" _) as [post | | ]; [ | done | done].
        cbn [res_bind].
        destruct (py_get post "media_id") as [stored | | ]; [ | done | done].
        cbn [res_bind].
        destruct (resumed_locals _) as [l0 | | ] eqn:Hl0; [ | done | done].
        cbn [res_bind].
        destruct (run_crawl _ _ _ _ _ _ _) as [[r l'] w''] eqn:Hc.
        intros [= -> ->]. eapply Hgoal; [ | exact Hc].
        by eapply resumed_locals_dedup.
    + rewrite Hstate.
      destruct (resolve_media_id self shortcode w) as [[[mid post] | e | ] w1];
        [ | done | done].
      destruct post; try done.
      destruct (run_crawl _ _ _ _ _ _ _) as [[r l'] w''] eqn:Hc.
      intros [= -> ->]. eapply Hgoal; [ | exact Hc].
      exists []. by split_and!; [ | constructor | | ].
  - cbn [truthy].
    destruct (resolve_media_id self shortcode w) as [[[mid post] | e | ] w1];
      [ | done | done].
    destruct post; try done.
    destruct (run_crawl _ _ _ _ _ _ _) as [[r l'] w''] eqn:Hc.
    intros [= -> ->]. eapply Hgoal; [ | exact Hc].
    exists []. by split_and!; [ | constructor | | ].
Qed.
End DedupTheorem.

(** Two pages that share a comment: the second page repeats the id
    [17900000000000002] of the first. *)
Lemma crawl_keeps_dedup_witness :
  let w :=
    demo_world
      [demo_ok (demo_page [demo_edge "17900000000000001";
                           demo_edge "17900000000000002"] true (JStr "c1"));
       demo_ok (demo_page [demo_edge "17900000000000002";
                           demo_edge "17900000000000003"] false JNull)] in
  let post_url := "https://www.instagram.com/p/ABC123xyz/" in
  resumable demo_crawler post_url w /\
  exists result w',
    @crawl_post_comments demo_lib demo_clock demo_crawler post_url None None w
    = (Ok result, w') /\
    (exists cs,
       py_get result "comments" = Ok (JList cs) /\
       NoDup (tree_ids cs) /\ Forall (fun v => is_id v = true) (tree_ids cs)) /\
    resumable demo_crawler post_url w'.
Proof.
  intros w post_url.
  assert (Hres : resumable demo_crawler post_url w).
  { intros shortcode _ Hstate. unfold load_resume_state in Hstate.
    simpl in Hstate. by rewrite lookup_empty in Hstate. }
  split; [exact Hres | ].
  destruct (@crawl_post_comments demo_lib demo_clock demo_crawler post_url
              None None w) as [r w'] eqn:Hrun.
  assert (Hok : exists result, r = Ok result).
  { apply (f_equal fst) in Hrun. simpl in Hrun. subst r.
    vm_compute. by eexists. }
  destruct Hok as [result ->]. exists result, w'. split; [reflexivity | ].
  exact (@crawl_keeps_dedup demo_lib demo_clock demo_crawler post_url
           None None w result w' Hres Hrun).
Defined.

(** ** A crawl without network, and a crawl without URL *)

Section Down.
Context `{PyLib} `{Clock} (self : crawler).









End Down.

Section ValueErrors.
Context `{PyLib} `{Clock} (self : crawler).

Lemma range_succ n : 0 <= n -> exists rest, range (n + 1) = 0 :: rest.
Proof.
  intros Hn. unfold range. rewrite Z2Nat.inj_add by lia.
  rewrite Nat.add_comm. simpl. by eexists.
Qed.

(** X21. the two [ValueError]s of a crawl. A URL without shortcode is
    rejected before anything is done. A comments endpoint that is
    configured but has no URL makes a fresh crawl raise at its first page,
    after the media id was resolved and before any page is requested or
    any file written: the error is not turned into a stop reason. *)
Theorem crawl_value_errors (post_url : string) (max_comments_arg : option Z)
  (w : world) :
  (forall resume,
     extract_shortcode post_url = None ->
     crawl_post_comments self post_url max_comments_arg resume w
     = (Exc (ValueError "Invalid Instagram post URL"), w)) /\
  (forall shortcode e media_id post w1,
     extract_shortcode post_url = Some shortcode ->
     resolve_media_id self shortcode w = (Ok (media_id, JDict post), w1) ->
     comments self = Some e -> unconfigured (Some e) = false ->
     ep_url e = None \/ ep_url e = Some EmptyString ->
     0 <= page_retry_attempts self ->
     crawl_post_comments self post_url max_comments_arg (Some false) w
     = (Exc (ValueError "Endpoint URL missing"), w1)).
Proof.
  split.
  - intros resume Hcode. unfold crawl_post_comments. by rewrite Hcode.
  - intros shortcode e media_id post w1 Hcode Hres Hc Hu Hurl Hretry.
    unfold crawl_post_comments. rewrite Hcode.
    cbn [default resume_choice truthy]. rewrite Hres.
    unfold run_crawl, bind at 1, guarded_loop, loop_fuel.
    replace (2 * length (pending w1) + 2)%nat
      with (S (2 * length (pending w1) + 1)) by lia.
    cbn [crawl_loop]. unfold bind at 1, iteration, bind at 1, get at 1.
    cbn [cursor fresh_locals]. unfold bind at 1, io.
    destruct (range_succ _ Hretry) as [rest ->]. cbn [page_fetch].
    unfold fetch_comments_page. rewrite Hc, Hu. unfold send, build_request.
    by destruct Hurl as [-> | ->].
Qed.
End ValueErrors.


(** The example crawler with a comments endpoint that lacks its URL. *)
Lemma crawl_value_errors_witness :
  let w := demo_world [] in
  let post_url := "https://www.instagram.com/p/ABC123xyz/" in
  @crawl_post_comments demo_lib demo_clock broken_crawler post_url None
    (Some false) w
  = (Exc (ValueError "Endpoint URL missing"), w).
Proof.
  intros w post_url.
  refine (proj2 (@crawl_value_errors demo_lib demo_clock broken_crawler post_url
                   None w)
            "ABC123xyz" _ (JStr "4593314372787")
            [("media_id", JStr "4593314372787")] w _ _ eq_refl _ _ _).
  - reflexivity.
  - vm_compute. reflexivity.
  - reflexivity.
  - by left.
  - vm_compute. discriminate.
Defined.

(** ** The maximum of comments *)








Lemma cap_inv_done m l : cap_inv m l -> cap_done m l.
Proof.
  intros (cs & Hcs & Hlen & Hm & Hn). exists cs.
  split_and!; [done | done | done | by rewrite Hn].
Qed.








Section Growing.
Context `{PyLib} `{Clock} (self : crawler).
Context (shortcode : string) (media_id post_info : json).





End Growing.



Section Capped.
Context `{PyLib} `{Clock} (self : crawler).
Context (shortcode : string) (media_id post_info : json).
Context (max_comments_arg : option Z) (m : Z).
Context (Hmax : max_comments_eff self max_comments_arg = Some m).
Context (Hm : m <> 0).













End Capped.

Section CapTheorem.
Context `{PyLib} `{Clock} (self : crawler).

End CapTheorem.


(** ** The configuration loader *)

Lemma deep_update_nil base : deep_update base [] = base.
Proof. done. Qed.

Lemma deep_update_cons base key value update :
  deep_update base ((key, value) :: update)
  = deep_update (dict_set key (merged base key value) base) update.
Proof.
  unfold deep_update, merged. cbn -[dict_set dict_lookup]. f_equal.
  destruct (dict_lookup key base) as [[ | | | | | b] | ]; try done.
  by destruct value.
Qed.

Lemma dict_lookup_set_ne k k' v d :
  k <> k' -> dict_lookup k (dict_set k' v d) = dict_lookup k d.
Proof.
  intros Hne. induction d as [ | [k0 v0] d IH]; simpl.
  - by apply String.eqb_neq in Hne as ->.
  - destruct (String.eqb k' k0) eqn:Hk0; simpl.
    + apply String.eqb_eq in Hk0 as ->.
      by apply String.eqb_neq in Hne as ->.
    + by rewrite IH.
Qed.

Lemma dict_lookup_absent key (d : list (string * json)) :
  key ∉ d.*1 -> dict_lookup key d = None.
Proof.
  induction d as [ | [k v] d IH]; [done | ]. simpl.
  intros Hk. apply not_elem_of_cons in Hk as [Hne Hd].
  apply String.eqb_neq in Hne as ->. auto.
Qed.

Lemma dict_lookup_deep_update key update :
  forall base,
    NoDup update.*1 ->
    dict_lookup key (deep_update base update)
    = match dict_lookup key update with
      | Some value => Some (merged base key value)
      | None => dict_lookup key base
      end.
Proof.
  induction update as [ | [k v] update IH]; intros base Hnd; [done | ].
  apply NoDup_cons in Hnd as [Hk Hnd]. rewrite deep_update_cons, IH by done.
  cbn [dict_lookup]. destruct (String.eqb key k) eqn:Hkey.
  - apply String.eqb_eq in Hkey as ->.
    by rewrite dict_lookup_absent, dict_lookup_set.
  - apply String.eqb_neq in Hkey.
    destruct (dict_lookup key update) as [value | ] eqn:Hu.
    + unfold merged. by rewrite dict_lookup_set_ne.
    + by rewrite dict_lookup_set_ne.
Qed.

(** X23. the configuration file wins over the defaults, key by key. After
    [_deep_update(base, update)], with the keys of [update] distinct as
    those of a JSON object are, looking a path up gives: under a first key
    that [update] lacks, what [base] gave; under a key that both bind to
    dicts, the lookup of the rest in the merge of the two; under any other
    key of [update], the lookup of the rest in the value of [update]. *)
Theorem config_priority (base update : list (string * json)) (key : string)
  (rest : list string) (default : json) :
  NoDup update.*1 ->
  config_walk (JDict (deep_update base update)) (key :: rest) default
  = match dict_lookup key update with
    | None => config_walk (JDict base) (key :: rest) default
    | Some value =>
        match dict_lookup key base, value with
        | Some (JDict b), JDict u =>
            config_walk (JDict (deep_update b u)) rest default
        | _, _ => config_walk value rest default
        end
    end.
Proof.
  intros Hnd. cbn [config_walk]. rewrite dict_lookup_deep_update by done.
  destruct (dict_lookup key update) as [value | ]; [ | done].
  unfold merged. destruct (dict_lookup key base) as [[ | | | | | b] | ]; try done.
  by destruct value.
Qed.

(** The defaults of two settings, and a file that sets one of them. *)
Lemma config_priority_witness :
  let base :=
    [("instagram",
      JDict [("settings",
              JDict [("retry_attempts", JInt 3); ("max_comments", JInt 400)])])] in
  let update :=
    [("instagram", JDict [("settings", JDict [("max_comments", JInt 50)])])] in
  NoDup update.*1 /\
  config_get (JDict (deep_update base update)) "instagram.settings.max_comments"
    JNull = JInt 50 /\
  config_get (JDict (deep_update base update)) "instagram.settings.retry_attempts"
    JNull = JInt 3.
Proof.
  intros base update.
  assert (Hnd : NoDup update.*1) by (apply NoDup_singleton).
  split; [exact Hnd | ].
  pose proof (config_priority base update "instagram"
                ["settings"; "max_comments"] JNull Hnd) as H1.
  pose proof (config_priority base update "instagram"
                ["settings"; "retry_attempts"] JNull Hnd) as H2.
  unfold config_get.
  change (split_dots "instagram.settings.max_comments")
    with ["instagram"; "settings"; "max_comments"].
  change (split_dots "instagram.settings.retry_attempts")
    with ["instagram"; "settings"; "retry_attempts"].
  split; [rewrite H1 | rewrite H2]; vm_compute; reflexivity.
Defined.

(** ** Writing and reading JSON text *)

Lemma str_app_String c s t : String c s +:+ t = String c (s +:+ t).
Proof. reflexivity. Qed.

(** *** Strings *)

Lemma scan_string_escape_char c tail :
  scan_string (escape_char c tail) = onto (String c) (scan_string tail).
Proof. destruct c as [[] [] [] [] [] [] [] []]; reflexivity. Qed.

Lemma scan_string_escape s rest :
  scan_string (escape s (String dquote rest)) = Got (s, rest).
Proof.
  induction s as [ | c s IH]; [reflexivity | ].
  cbn [escape]. by rewrite scan_string_escape_char, IH.
Qed.

(** *** Numbers *)

Lemma pretty_N_char_digit d :
  (d < 10)%N ->
  is_digit (pretty_N_char d) = true /\
  digit_value (pretty_N_char d) = d /\
  (d <> 0%N -> Ascii.eqb (pretty_N_char d) "0" = false).
Proof.
  intros Hd.
  destruct d as [ | p]; [by split_and! | ].
  do 4 (destruct p as [p | p | ]; try lia; try (by split_and!)).
Qed.

Lemma pretty_N_go_app x : forall s rest,
  pretty_N_go x s +:+ rest = pretty_N_go x (s +:+ rest).
Proof.
  induction (N.lt_wf_0 x) as [x _ IH]; intros s rest.
  destruct (decide (x = 0)%N) as [-> | Hx]; [by rewrite !pretty_N_go_0 | ].
  rewrite (pretty_N_go_step x s), (pretty_N_go_step x (s +:+ rest)) by lia.
  rewrite IH by (apply N.div_lt; lia). done.
Qed.

Lemma scan_digits_pretty x : forall acc s,
  exists acc',
    (acc = 0%N -> acc' = x) /\
    scan_digits acc (pretty_N_go x s) = scan_digits acc' s.
Proof.
  induction (N.lt_wf_0 x) as [x _ IH]; intros acc s.
  destruct (decide (x = 0)%N) as [-> | Hx].
  { exists acc. by rewrite pretty_N_go_0. }
  rewrite pretty_N_go_step by lia.
  destruct (IH (x `div` 10)%N ltac:(apply N.div_lt; lia) acc
              (String (pretty_N_char (x `mod` 10)) s)) as (acc1 & Hacc1 & ->).
  destruct (pretty_N_char_digit (x `mod` 10)%N) as (Hdig & Hval & _).
  { apply N.mod_lt. lia. }
  exists (acc1 * 10 + x `mod` 10)%N. split.
  - intros Hacc. rewrite (Hacc1 Hacc).
    rewrite (N.div_mod x 10) at 3 by lia. lia.
  - cbn [scan_digits]. by rewrite Hdig, Hval.
Qed.

Lemma pretty_N_go_head x : forall s,
  x <> 0%N ->
  exists c s',
    pretty_N_go x s = String c s' /\
    is_digit c = true /\ Ascii.eqb c "0" = false.
Proof.
  induction (N.lt_wf_0 x) as [x _ IH]; intros s Hx.
  rewrite pretty_N_go_step by lia.
  destruct (decide (x `div` 10 = 0)%N) as [Hdiv | Hdiv].
  - rewrite Hdiv, pretty_N_go_0.
    destruct (pretty_N_char_digit (x `mod` 10)%N) as (Hdig & _ & Hnz).
    { apply N.mod_lt. lia. }
    eexists _, _. split_and!; [done | done | ].
    apply Hnz. intros Hmod.
    pose proof (N.div_mod x 10 ltac:(lia)). lia.
  - apply IH; [apply N.div_lt; lia | done].
Qed.

Lemma scan_digits_end n s : starts_digit s = false -> scan_digits n s = (n, s).
Proof. destruct s as [ | c s]; [done | ]. simpl. by intros ->. Qed.

Lemma scan_unsigned (x : N) rest :
  x <> 0%N -> starts_digit rest = false ->
  exists c s',
    pretty_N_go x rest = String c s' /\
    is_digit c = true /\ Ascii.eqb c "0" = false /\
    scan_digits (digit_value c) s' = (x, rest).
Proof.
  intros Hx Hrest.
  destruct (pretty_N_go_head x rest Hx) as (c & s' & Hhead & Hdig & Hnz).
  exists c, s'. split_and!; [done | done | done | ].
  destruct (scan_digits_pretty x 0 rest) as (acc' & Hacc & Hscan).
  rewrite (Hacc eq_refl), Hhead in Hscan. cbn [scan_digits] in Hscan.
  rewrite Hdig in Hscan. rewrite N.mul_0_l, N.add_0_l in Hscan.
  by rewrite Hscan, scan_digits_end.
Qed.

Lemma digit_not_minus c : is_digit c = true -> Ascii.eqb c "-" = false.
Proof. destruct c as [[] [] [] [] [] [] [] []]; by vm_compute. Qed.

Lemma scan_number_pretty (n : Z) rest :
  number_end rest = true ->
  scan_number (pretty n +:+ rest) = Got (n, rest).
Proof.
  intros [Hdig Hfloat]%andb_true_iff.
  apply negb_true_iff in Hdig. apply negb_true_iff in Hfloat.
  destruct n as [ | p | p].
  - change (pretty 0 +:+ rest) with (String "0" rest).
    unfold scan_number. cbn. by rewrite Hfloat.
  - change (pretty (Z.pos p)) with (pretty_N_go (N.pos p) "").
    rewrite pretty_N_go_app. change ("" +:+ rest) with rest.
    destruct (scan_unsigned (N.pos p) rest) as (c & s' & -> & Hc & Hnz & Hscan);
      [done | done | ].
    unfold scan_number. rewrite (digit_not_minus c Hc), Hc, Hnz, Hscan, Hfloat.
    done.
  - change (pretty (Z.neg p) +:+ rest)
      with (String "-" (pretty_N_go (N.pos p) "" +:+ rest)).
    rewrite pretty_N_go_app. change ("" +:+ rest) with rest.
    destruct (scan_unsigned (N.pos p) rest) as (c & s' & Hhead & Hc & Hnz & Hscan);
      [done | done | ].
    unfold scan_number. cbn [Ascii.eqb Bool.eqb]. rewrite Hhead.
    rewrite Hc, Hnz, Hscan, Hfloat. done.
Qed.

(** *** Values *)

Lemma skip_ws_indent level s : skip_ws (indent level s) = skip_ws s.
Proof. induction level as [ | level IH]; [done | by cbn]. Qed.

Lemma skip_ws_newline level s : skip_ws (newline level s) = skip_ws s.
Proof. unfold newline. cbn. apply skip_ws_indent. Qed.

Lemma number_head_plain c :
  number_head c = true ->
  is_ws c = false /\ Ascii.eqb c "]" = false /\ Ascii.eqb c "}" = false.
Proof. destruct c as [[] [] [] [] [] [] [] []]; by vm_compute. Qed.

Lemma pretty_head (n : Z) rest :
  exists c s', pretty n +:+ rest = String c s' /\ number_head c = true.
Proof.
  destruct n as [ | p | p].
  - by exists "0"%char, rest.
  - change (pretty (Z.pos p)) with (pretty_N_go (N.pos p) "").
    rewrite pretty_N_go_app. change ("" +:+ rest) with rest.
    destruct (pretty_N_go_head (N.pos p) rest) as (c & s' & -> & Hc & _);
      [done | ].
    exists c, s'. split; [done | ]. unfold number_head. by rewrite Hc.
  - by eexists "-"%char, _.
Qed.

Lemma dump_elems_eq level rest l :
  (fix elems (l : list json) : string :=
     match l with
     | [] => rest
     | x :: l' =>
         newline (S level)
           (dump x (S level)
              match l' with
              | [] => newline level (String "]" rest)
              | _ => String "," (elems l')
              end)
     end) l = dump_elems level rest l.
Proof.
  induction l as [ | x l IH]; [done | ].
  cbn [dump_elems]. rewrite <- IH. by destruct l.
Qed.

Lemma dump_members_eq level rest d :
  (fix members (d : list (string * json)) : string :=
     match d with
     | [] => rest
     | (k, x) :: d' =>
         newline (S level)
           (dump_str k
              (String ":" (String " "
                 (dump x (S level)
                    match d' with
                    | [] => newline level (String "}" rest)
                    | _ => String "," (members d')
                    end))))
     end) d = dump_members level rest d.
Proof.
  induction d as [ | [k x] d IH]; [done | ].
  cbn [dump_members]. rewrite <- IH. by destruct d.
Qed.

Lemma dump_list x l level rest :
  dump (JList (x :: l)) level rest = String "[" (dump_elems level rest (x :: l)).
Proof. rewrite <- dump_elems_eq. reflexivity. Qed.

Lemma dump_dict kx d level rest :
  dump (JDict (kx :: d)) level rest
  = String "{" (dump_members level rest (kx :: d)).
Proof. rewrite <- dump_members_eq. reflexivity. Qed.

Lemma dump_head v level rest :
  exists c s',
    dump v level rest = String c s' /\
    is_ws c = false /\ Ascii.eqb c "]" = false /\ Ascii.eqb c "}" = false.
Proof.
  destruct v as [ | [] | n | s | [ | x l] | [ | kx d]];
    try (by eexists _, _; split_and!; [reflexivity | | | ]).
  destruct (pretty_head n rest) as (c & s' & Heq & Hc).
    exists c, s'. split; [exact Heq | ]. by apply number_head_plain.
Qed.

Lemma skip_ws_dump v level rest :
  skip_ws (dump v level rest) = dump v level rest.
Proof.
  destruct (dump_head v level rest) as (c & s' & -> & Hws & _).
  cbn. by rewrite Hws.
Qed.

Lemma cost_list l : cost (JList l) = S (cost_elems l).
Proof. reflexivity. Qed.

Lemma cost_dict d : cost (JDict d) = S (cost_members d).
Proof. reflexivity. Qed.

Lemma keys_distinct_list l :
  keys_distinct (JList l) = true <-> Forall (fun x => keys_distinct x = true) l.
Proof.
  induction l as [ | x l IH]; [by split | ].
  rewrite Forall_cons, <- IH. cbn. by rewrite andb_true_iff.
Qed.

Lemma keys_distinct_dict d :
  keys_distinct (JDict d) = true <->
  NoDup d.*1 /\ Forall (fun kx => keys_distinct kx.2 = true) d.
Proof.
  cbn [keys_distinct]. rewrite andb_true_iff, bool_decide_eq_true.
  apply and_iff_compat_l.
  induction d as [ | [k x] d IH]; [by split | ].
  rewrite Forall_cons, <- IH. cbn. by rewrite andb_true_iff.
Qed.

Lemma dict_update_fresh (d : list (string * json)) :
  NoDup d.*1 -> dict_update [] d = d.
Proof.
  intros Hd. unfold dict_update.
  enough (Hgen : forall acc,
             (forall k, k ∈ d.*1 -> k ∉ acc.*1) ->
             fold_left (fun acc (kv : string * json) => dict_set kv.1 kv.2 acc)
               d acc = acc ++ d)
    by (apply (Hgen []); intros k _; apply not_elem_of_nil).
  induction d as [ | [k x] d IH]; intros acc Hacc.
  - by rewrite app_nil_r.
  - apply NoDup_cons in Hd as [Hk Hd]. cbn [fold_left fst snd].
    rewrite dict_set_fresh by (apply Hacc; left).
    rewrite IH; [by rewrite <- app_assoc | done | ].
    intros k' Hk'. rewrite fmap_app, elem_of_app. intros [Hin | Hin].
    + by apply (Hacc k'); [right | ].
    + apply list_elem_of_singleton in Hin. simpl in Hin. by subst k'.
Qed.

(** The text of [v] is read back as [v], whatever follows it. *)
Definition parses (v : json) : Prop :=
  forall level rest fuel,
    number_end rest = true -> (cost v <= fuel)%nat ->
    parse_value fuel (dump v level rest) = Got (v, rest).

Lemma parse_value_number c s' fuel :
  number_head c = true ->
  parse_value (S fuel) (String c s')
  = decoded_bind (scan_number (String c s'))
      (fun p => let '(n, rest) := p in Got (JInt n, rest)).
Proof.
  destruct c as [[] [] [] [] [] [] [] []]; intros Hc; vm_compute in Hc;
    try discriminate Hc; reflexivity.
Qed.

Lemma parse_int (n : Z) : parses (JInt n).
Proof.
  intros level rest [ | fuel] Hrest Hfuel; [cbn in Hfuel; lia | ].
  cbn [dump]. destruct (pretty_head n rest) as (c & s' & Heq & Hc).
  rewrite Heq, parse_value_number by done. rewrite <- Heq.
  by rewrite scan_number_pretty.
Qed.

Lemma parse_str (s : string) : parses (JStr s).
Proof.
  intros level rest [ | fuel] Hrest Hfuel; [cbn in Hfuel; lia | ].
  cbn [dump]. unfold dump_str.
  change (parse_value (S fuel) (String dquote ?t))
    with (decoded_bind (scan_string t)
            (fun p => let '(str, rest) := p in Got (JStr str, rest))).
  by rewrite scan_string_escape.
Qed.

Lemma number_end_comma s : number_end (String "," s) = true.
Proof. reflexivity. Qed.

Lemma number_end_newline level s : number_end (newline level s) = true.
Proof. reflexivity. Qed.

Lemma parse_elems level rest :
  forall l x fuel,
    Forall parses (x :: l) ->
    (cost_elems (x :: l) <= fuel)%nat ->
    parse_elements fuel
      (dump x (S level)
         match l with
         | [] => newline level (String "]" rest)
         | _ => String "," (dump_elems level rest l)
         end)
    = Got (x :: l, rest).
Proof.
  induction l as [ | y l IH]; intros x [ | fuel] Hall Hfuel;
    try (cbn in Hfuel; lia);
    apply Forall_cons in Hall as [Hx Hall]; cbn [cost_elems] in Hfuel;
    cbn [parse_elements].
  - rewrite Hx; [ | apply number_end_newline | lia].
    cbn [decoded_bind]. by rewrite skip_ws_newline.
  - rewrite Hx; [ | apply number_end_comma | lia].
    cbn [decoded_bind skip_ws is_ws Ascii.eqb Bool.eqb orb].
    cbn [dump_elems]. rewrite skip_ws_newline, skip_ws_dump.
    rewrite IH; [done | done | cbn [cost_elems]; lia].
Qed.

Lemma parse_list l : Forall parses l -> parses (JList l).
Proof.
  intros Hall level rest [ | fuel] Hrest Hfuel;
    [rewrite cost_list in Hfuel; lia | ].
  rewrite cost_list in Hfuel.
  destruct l as [ | x l]; [reflexivity | ].
  rewrite dump_list.
  change (parse_value (S fuel) (String "[" ?t))
    with (match skip_ws t with
          | EmptyString => Bad
          | String c1 s1 =>
              if Ascii.eqb c1 "]" then Got (JList [], s1)
              else decoded_bind (parse_elements fuel (String c1 s1))
                     (fun p => let '(l, rest) := p in Got (JList l, rest))
          end).
  cbn [dump_elems]. rewrite skip_ws_newline, skip_ws_dump.
  match goal with
  | |- context [dump x (S level) ?t] =>
      destruct (dump_head x (S level) t) as (c & s' & Heq & _ & Hc & _);
      rewrite Heq, Hc, <- Heq
  end.
  rewrite parse_elems; [done | done | cbn [cost_elems] in *; lia].
Qed.

Lemma skip_ws_dump_str k t : skip_ws (dump_str k t) = dump_str k t.
Proof. reflexivity. Qed.

Lemma parse_members_key fuel k x level tail :
  parses x -> number_end tail = true -> (cost x <= fuel)%nat ->
  parse_members (S fuel)
    (dump_str k (String ":" (String " " (dump x (S level) tail))))
  = match skip_ws tail with
    | EmptyString => Bad
    | String c3 rest4 =>
        if Ascii.eqb c3 "}" then Got ([(k, x)], rest4)
        else if Ascii.eqb c3 "," then
          decoded_bind (parse_members fuel (skip_ws rest4))
            (fun p => let '(d, rest5) := p in Got ((k, x) :: d, rest5))
        else Bad
    end.
Proof.
  intros Hx Htail Hfuel.
  change (parse_members (S fuel) (dump_str k ?t))
    with (decoded_bind (scan_string (escape k (String dquote t)))
            (fun p => let '(key, rest) := p in
               match skip_ws rest with
               | EmptyString => Bad
               | String c2 rest2 =>
                   if Ascii.eqb c2 ":" then
                     decoded_bind (parse_value fuel (skip_ws rest2))
                       (fun p => let '(v, rest3) := p in
                          match skip_ws rest3 with
                          | EmptyString => Bad
                          | String c3 rest4 =>
                              if Ascii.eqb c3 "}" then Got ([(key, v)], rest4)
                              else if Ascii.eqb c3 "," then
                                decoded_bind
                                  (parse_members fuel (skip_ws rest4))
                                  (fun p => let '(d, rest5) := p in
                                            Got ((key, v) :: d, rest5))
                              else Bad
                          end)
                   else Bad
               end)).
  rewrite scan_string_escape.
  cbn [decoded_bind skip_ws is_ws Ascii.eqb Bool.eqb orb andb].
  rewrite skip_ws_dump, Hx by done. reflexivity.
Qed.

Lemma parse_membs level rest :
  forall d k x fuel,
    Forall (fun kx => parses kx.2) ((k, x) :: d) ->
    (cost_members ((k, x) :: d) <= fuel)%nat ->
    parse_members fuel
      (dump_str k
         (String ":" (String " "
            (dump x (S level)
               match d with
               | [] => newline level (String "}" rest)
               | _ => String "," (dump_members level rest d)
               end))))
    = Got ((k, x) :: d, rest).
Proof.
  induction d as [ | [k' y] d IH]; intros k x [ | fuel] Hall Hfuel;
    try (cbn in Hfuel; lia);
    apply Forall_cons in Hall as [Hx Hall]; cbn [cost_members] in Hfuel;
    cbn [snd] in Hx.
  - rewrite parse_members_key; [ | done | apply number_end_newline | lia].
    by rewrite skip_ws_newline.
  - rewrite parse_members_key; [ | done | apply number_end_comma | lia].
    cbn [skip_ws is_ws Ascii.eqb Bool.eqb orb].
    cbn [dump_members]. rewrite skip_ws_newline, skip_ws_dump_str.
    rewrite IH; [done | done | cbn [cost_members]; lia].
Qed.

Lemma members_start fuel k t
  (K : list (string * json) * string -> decoded (json * string)) :
  match dump_str k t with
  | EmptyString => Bad
  | String c1 s1 =>
      if Ascii.eqb c1 "}" then Got (JDict [], s1)
      else decoded_bind (parse_members fuel (String c1 s1)) K
  end = decoded_bind (parse_members fuel (dump_str k t)) K.
Proof. reflexivity. Qed.

Lemma parse_dict d :
  NoDup d.*1 -> Forall (fun kx => parses kx.2) d -> parses (JDict d).
Proof.
  intros Hkeys Hall level rest [ | fuel] Hrest Hfuel;
    [rewrite cost_dict in Hfuel; lia | ].
  rewrite cost_dict in Hfuel.
  destruct d as [ | [k x] d]; [reflexivity | ].
  rewrite dump_dict.
  change (parse_value (S fuel) (String "{" ?t))
    with (match skip_ws t with
          | EmptyString => Bad
          | String c1 s1 =>
              if Ascii.eqb c1 "}" then Got (JDict [], s1)
              else decoded_bind (parse_members fuel (String c1 s1))
                     (fun p => let '(pairs, rest) := p in
                               Got (JDict (dict_update [] pairs), rest))
          end).
  cbn [dump_members]. rewrite skip_ws_newline, skip_ws_dump_str.
  rewrite members_start.
  rewrite parse_membs; [ | done | cbn [cost_members] in *; lia].
  cbn [decoded_bind]. by rewrite dict_update_fresh.
Qed.

(** Decoding the text of a value gives the value back. *)
Lemma parse_dump v : keys_distinct v = true -> parses v.
Proof.
  induction v as [ | b | n | s | l IH | d IH] using json_induction; intros Hv.
  - by intros level rest [ | fuel] Hrest Hfuel; [cbn in Hfuel; lia | ].
  - by intros level rest [ | fuel] Hrest Hfuel;
      [cbn in Hfuel; lia | destruct b].
  - apply parse_int.
  - apply parse_str.
  - apply parse_list. apply keys_distinct_list in Hv.
    apply Forall_forall. intros x Hx.
    rewrite Forall_forall in IH, Hv. by apply IH; [ | apply Hv].
  - apply keys_distinct_dict in Hv as [Hkeys Hv]. apply parse_dict; [done | ].
    apply Forall_forall. intros kx Hkx.
    rewrite Forall_forall in IH, Hv. by apply IH; [ | apply Hv].
Qed.

(** *** The fuel of [loads] *)

Lemma length_escape_char c t :
  (String.length t < String.length (escape_char c t))%nat.
Proof. unfold escape_char. repeat case_match; simpl; lia. Qed.

Lemma length_escape s t : (String.length t <= String.length (escape s t))%nat.
Proof.
  induction s as [ | c s IH]; [done | ]. cbn [escape].
  pose proof (length_escape_char c (escape s t)). lia.
Qed.

Lemma length_dump_str k t :
  (2 + String.length t <= String.length (dump_str k t))%nat.
Proof.
  unfold dump_str. cbn [String.length].
  pose proof (length_escape k (String dquote t)) as Hk.
  cbn [String.length] in Hk. lia.
Qed.

Lemma length_indent level t :
  (String.length t <= String.length (indent level t))%nat.
Proof. induction level as [ | level IH]; [done | ]. cbn. lia. Qed.

Lemma length_newline level t :
  (1 + String.length t <= String.length (newline level t))%nat.
Proof. unfold newline. cbn. pose proof (length_indent level t). lia. Qed.

Lemma length_pretty (n : Z) rest :
  (1 + String.length rest <= String.length (pretty n +:+ rest))%nat.
Proof.
  rewrite str_length_app.
  destruct (pretty_head n "") as (c & s' & Heq & _).
  apply (f_equal String.length) in Heq. rewrite str_length_app in Heq.
  cbn in Heq. lia.
Qed.

Definition within_text (v : json) : Prop :=
  forall level rest,
    (cost v + String.length rest <= String.length (dump v level rest))%nat.

Lemma cost_elems_within level rest l :
  Forall within_text l ->
  (cost_elems l + String.length rest
   <= String.length (dump_elems level rest l))%nat.
Proof.
  induction 1 as [ | x l Hx Hl IH]; [done | ].
  cbn [cost_elems dump_elems].
  match goal with
  | |- context [dump x (S level) ?t] =>
      pose proof (Hx (S level) t) as Hdump;
      pose proof (length_newline (S level) (dump x (S level) t));
      assert (cost_elems l + String.length rest <= String.length t)%nat
  end; [ | lia].
  destruct l as [ | y l]; [ | cbn [String.length]; lia].
  pose proof (length_newline level (String "]" rest)) as Hn.
  cbn [String.length cost_elems] in *. lia.
Qed.

Lemma cost_members_within level rest d :
  Forall (fun kx => within_text kx.2) d ->
  (cost_members d + String.length rest
   <= String.length (dump_members level rest d))%nat.
Proof.
  induction 1 as [ | [k x] d Hx Hd IH]; [done | ].
  cbn [cost_members dump_members]. cbn [snd] in Hx.
  match goal with
  | |- context [dump x (S level) ?t] =>
      pose proof (Hx (S level) t) as Hdump;
      pose proof (length_dump_str k
                    (String ":" (String " " (dump x (S level) t)))) as Hkey;
      pose proof (length_newline (S level)
                    (dump_str k
                       (String ":" (String " " (dump x (S level) t)))));
      assert (cost_members d + String.length rest <= String.length t)%nat
  end; [ | cbn [String.length] in Hkey; lia].
  destruct d as [ | ky d]; [ | cbn [String.length]; lia].
  pose proof (length_newline level (String "}" rest)) as Hn.
  cbn [String.length cost_members] in *. lia.
Qed.

Lemma cost_within v : within_text v.
Proof.
  induction v as [ | b | n | s | l IH | d IH] using json_induction;
    intros level rest.
  - cbn [cost dump]. rewrite str_length_app. cbn. lia.
  - destruct b; cbn [cost dump]; rewrite str_length_app; cbn; lia.
  - cbn [cost dump]. apply length_pretty.
  - cbn [cost dump]. pose proof (length_dump_str s rest). lia.
  - rewrite cost_list.
    destruct l as [ | x l];
      [cbn [cost_elems dump]; rewrite str_length_app; cbn; lia | ].
    rewrite dump_list. cbn [String.length].
    pose proof (cost_elems_within level rest (x :: l) IH). lia.
  - rewrite cost_dict.
    destruct d as [ | kx d];
      [cbn [cost_members dump]; rewrite str_length_app; cbn; lia | ].
    rewrite dump_dict. cbn [String.length].
    pose proof (cost_members_within level rest (kx :: d) IH). lia.
Qed.

(** [json.loads(json.dumps(v, ensure_ascii=False, indent=2))] is [v]. *)
Lemma loads_dumps v : keys_distinct v = true -> loads (dumps v) = Got v.
Proof.
  intros Hv. unfold loads, dumps. rewrite skip_ws_dump.
  rewrite (parse_dump v Hv); [done | done | ].
  pose proof (cost_within v 0%nat "") as Hcost. cbn [String.length] in Hcost.
  lia.
Qed.

(** *** The text can be encoded *)

Lemma utf8_ascii c t :
  ascii_between "000" "127" c = true -> utf8_valid (String c t) = utf8_valid t.
Proof. intros Hc. cbn [utf8_valid]. by rewrite Hc. Qed.

Lemma utf8_escape_ascii c t :
  ascii_between "000" "127" c = true ->
  utf8_valid (escape_char c t) = utf8_valid t.
Proof.
  destruct c as [[] [] [] [] [] [] [] []]; intros Hc; vm_compute in Hc;
    try discriminate Hc; reflexivity.
Qed.

Lemma escape_high c t :
  ascii_between "000" "127" c = false -> escape_char c t = String c t.
Proof.
  destruct c as [[] [] [] [] [] [] [] []]; intros Hc; vm_compute in Hc;
    try discriminate Hc; reflexivity.
Qed.

Lemma between_high lo hi c :
  (128 <= nat_of_ascii lo)%nat -> ascii_between lo hi c = true ->
  ascii_between "000" "127" c = false.
Proof.
  unfold ascii_between. intros Hlo [H1 H2]%andb_true_iff.
  apply Nat.leb_le in H1. apply andb_false_iff. right. apply Nat.leb_gt.
  change (nat_of_ascii "127") with 127%nat. lia.
Qed.

Lemma continuation_high c :
  continuation c = true -> ascii_between "000" "127" c = false.
Proof. apply between_high. vm_compute. lia. Qed.

Lemma two_bytes_high b1 b2 :
  two_bytes b1 b2 = true -> ascii_between "000" "127" b2 = false.
Proof. intros [_ H2]%andb_true_iff. by apply continuation_high. Qed.

Lemma three_bytes_high b1 b2 b3 :
  three_bytes b1 b2 b3 = true ->
  ascii_between "000" "127" b2 = false /\ ascii_between "000" "127" b3 = false.
Proof.
  unfold three_bytes. intros [H2 H3]%andb_true_iff.
  split; [ | by apply continuation_high].
  repeat (apply orb_true_iff in H2 as [H2 | H2]);
    apply andb_true_iff in H2 as [_ H2];
    (apply continuation_high in H2 || (eapply between_high in H2; [ | vm_compute; lia]));
    done.
Qed.

Lemma four_bytes_high b1 b2 b3 b4 :
  four_bytes b1 b2 b3 b4 = true ->
  ascii_between "000" "127" b2 = false /\
  ascii_between "000" "127" b3 = false /\
  ascii_between "000" "127" b4 = false.
Proof.
  unfold four_bytes. intros [[H2 H3]%andb_true_iff H4]%andb_true_iff.
  split_and!; [ | by apply continuation_high | by apply continuation_high].
  repeat (apply orb_true_iff in H2 as [H2 | H2]);
    apply andb_true_iff in H2 as [_ H2];
    (apply continuation_high in H2 || (eapply between_high in H2; [ | vm_compute; lia]));
    done.
Qed.

Lemma utf8_escape_bound n :
  forall s t,
    (String.length s < n)%nat ->
    utf8_valid s = true -> utf8_valid t = true ->
    utf8_valid (escape s t) = true.
Proof.
  induction n as [ | n IH]; intros s t Hlen Hs Ht; [lia | ].
  destruct s as [ | b1 s1]; [done | ].
  cbn [utf8_valid] in Hs. cbn [escape String.length] in *.
  destruct (ascii_between "000" "127" b1) eqn:H1.
  { rewrite utf8_escape_ascii by done. apply IH; [lia | done | done]. }
  rewrite (escape_high b1) by done.
  destruct s1 as [ | b2 s2]; [done | ]. cbn [escape String.length] in *.
  destruct (two_bytes b1 b2) eqn:H2.
  { rewrite (escape_high b2) by (by eapply two_bytes_high).
    cbn [utf8_valid]. rewrite H1, H2. apply IH; [lia | done | done]. }
  destruct s2 as [ | b3 s3]; [done | ]. cbn [escape String.length] in *.
  destruct (three_bytes b1 b2 b3) eqn:H3.
  { destruct (three_bytes_high _ _ _ H3) as [Hb2 Hb3].
    rewrite (escape_high b2), (escape_high b3) by done.
    cbn [utf8_valid]. rewrite H1, H2, H3. apply IH; [lia | done | done]. }
  destruct s3 as [ | b4 s4]; [done | ]. cbn [escape String.length] in *.
  apply andb_true_iff in Hs as [H4 Hs].
  destruct (four_bytes_high _ _ _ _ H4) as (Hb2 & Hb3 & Hb4).
  rewrite (escape_high b2), (escape_high b3), (escape_high b4) by done.
  cbn [utf8_valid]. rewrite H1, H2, H3, H4. apply IH; [lia | done | done].
Qed.

Lemma utf8_dump_str k t :
  utf8_valid k = true -> utf8_valid t = true ->
  utf8_valid (dump_str k t) = true.
Proof.
  intros Hk Ht. unfold dump_str. rewrite utf8_ascii by done.
  apply (utf8_escape_bound (S (String.length k))); [lia | done | ].
  by rewrite utf8_ascii.
Qed.

Lemma digit_ascii c : is_digit c = true -> ascii_between "000" "127" c = true.
Proof. destruct c as [[] [] [] [] [] [] [] []]; by vm_compute. Qed.

Lemma utf8_pretty_N x : forall s, utf8_valid (pretty_N_go x s) = utf8_valid s.
Proof.
  induction (N.lt_wf_0 x) as [x _ IH]; intros s.
  destruct (decide (x = 0)%N) as [-> | Hx]; [by rewrite pretty_N_go_0 | ].
  rewrite pretty_N_go_step by lia. rewrite IH by (apply N.div_lt; lia).
  apply utf8_ascii, digit_ascii.
  apply pretty_N_char_digit, N.mod_lt. lia.
Qed.

Lemma utf8_pretty (n : Z) rest :
  utf8_valid (pretty n +:+ rest) = utf8_valid rest.
Proof.
  destruct n as [ | p | p].
  - reflexivity.
  - change (pretty (Z.pos p)) with (pretty_N_go (N.pos p) "").
    rewrite pretty_N_go_app. apply utf8_pretty_N.
  - change (pretty (Z.neg p) +:+ rest)
      with (String "-" (pretty_N_go (N.pos p) "" +:+ rest)).
    rewrite pretty_N_go_app, utf8_ascii by done. apply utf8_pretty_N.
Qed.

Lemma utf8_indent level t : utf8_valid (indent level t) = utf8_valid t.
Proof. induction level as [ | level IH]; [done | ]. cbn [indent]. by rewrite !utf8_ascii. Qed.

Lemma utf8_newline level t : utf8_valid (newline level t) = utf8_valid t.
Proof. unfold newline. rewrite utf8_ascii by done. apply utf8_indent. Qed.

Definition encodes (v : json) : Prop :=
  forall level rest,
    utf8_valid rest = true -> utf8_valid (dump v level rest) = true.

Lemma utf8_json_list l :
  utf8_json (JList l) = true <-> Forall (fun x => utf8_json x = true) l.
Proof.
  induction l as [ | x l IH]; [by split | ].
  rewrite Forall_cons, <- IH. cbn. by rewrite andb_true_iff.
Qed.

Lemma utf8_json_dict d :
  utf8_json (JDict d) = true <->
  Forall (fun kx => utf8_valid kx.1 = true /\ utf8_json kx.2 = true) d.
Proof.
  induction d as [ | [k x] d IH]; [by split | ].
  rewrite Forall_cons, <- IH. cbn. by rewrite !andb_true_iff.
Qed.

Lemma utf8_elems level rest l :
  Forall encodes l -> utf8_valid rest = true ->
  utf8_valid (dump_elems level rest l) = true.
Proof.
  intros Hall Hrest. induction Hall as [ | x l Hx Hl IH]; [done | ].
  cbn [dump_elems]. rewrite utf8_newline. apply Hx.
  destruct l; [by rewrite utf8_newline, utf8_ascii | by rewrite utf8_ascii].
Qed.

Lemma utf8_members level rest d :
  Forall (fun kx => utf8_valid kx.1 = true /\ encodes kx.2) d ->
  utf8_valid rest = true ->
  utf8_valid (dump_members level rest d) = true.
Proof.
  intros Hall Hrest. induction Hall as [ | [k x] d [Hk Hx] Hd IH]; [done | ].
  cbn [dump_members]. rewrite utf8_newline. apply utf8_dump_str; [done | ].
  rewrite !utf8_ascii by done. apply Hx.
  destruct d; [by rewrite utf8_newline, utf8_ascii | by rewrite utf8_ascii].
Qed.

(** The text of a value without lone surrogates is valid UTF-8. *)
Lemma utf8_dump v : utf8_json v = true -> encodes v.
Proof.
  induction v as [ | b | n | s | l IH | d IH] using json_induction;
    intros Hv level rest Hrest.
  - done.
  - by destruct b.
  - cbn [dump]. by rewrite utf8_pretty.
  - by apply utf8_dump_str.
  - destruct l as [ | x l]; [done | ]. rewrite dump_list, utf8_ascii by done.
    apply utf8_elems; [ | done]. apply utf8_json_list in Hv.
    apply Forall_forall. intros y Hy.
    rewrite Forall_forall in IH, Hv. by apply IH; [ | apply Hv].
  - destruct d as [ | kx d]; [done | ]. rewrite dump_dict, utf8_ascii by done.
    apply utf8_members; [ | done]. apply utf8_json_dict in Hv.
    apply Forall_forall. intros ky Hy.
    rewrite Forall_forall in IH, Hv. destruct (Hv ky Hy) as [Hk Hval].
    split; [done | by apply IH].
Qed.

(** *** Line endings *)

Lemma universal_newlines_plain s :
  cr_free s = true -> universal_newlines s = s.
Proof.
  induction s as [ | c s IH]; [done | ]. cbn [cr_free universal_newlines].
  intros [Hc Hs]%andb_true_iff. apply negb_true_iff in Hc.
  by rewrite Hc, IH.
Qed.

Lemma cr_free_escape_char c t : cr_free (escape_char c t) = cr_free t.
Proof. destruct c as [[] [] [] [] [] [] [] []]; reflexivity. Qed.

Lemma cr_free_escape s t : cr_free (escape s t) = cr_free t.
Proof.
  induction s as [ | c s IH]; [done | ]. cbn [escape].
  by rewrite cr_free_escape_char.
Qed.

Lemma cr_free_dump_str k t : cr_free (dump_str k t) = cr_free t.
Proof. unfold dump_str. cbn [cr_free]. by rewrite cr_free_escape. Qed.

Lemma digit_not_cr c : is_digit c = true -> Ascii.eqb c "013" = false.
Proof. destruct c as [[] [] [] [] [] [] [] []]; by vm_compute. Qed.

Lemma cr_free_pretty_N x : forall s, cr_free (pretty_N_go x s) = cr_free s.
Proof.
  induction (N.lt_wf_0 x) as [x _ IH]; intros s.
  destruct (decide (x = 0)%N) as [-> | Hx]; [by rewrite pretty_N_go_0 | ].
  rewrite pretty_N_go_step by lia. rewrite IH by (apply N.div_lt; lia).
  cbn [cr_free]. rewrite digit_not_cr; [done | ].
  apply pretty_N_char_digit, N.mod_lt. lia.
Qed.

Lemma cr_free_pretty (n : Z) rest : cr_free (pretty n +:+ rest) = cr_free rest.
Proof.
  destruct n as [ | p | p].
  - reflexivity.
  - change (pretty (Z.pos p)) with (pretty_N_go (N.pos p) "").
    rewrite pretty_N_go_app. apply cr_free_pretty_N.
  - change (pretty (Z.neg p) +:+ rest)
      with (String "-" (pretty_N_go (N.pos p) "" +:+ rest)).
    rewrite pretty_N_go_app. cbn [cr_free]. apply cr_free_pretty_N.
Qed.

Lemma cr_free_indent level t : cr_free (indent level t) = cr_free t.
Proof. induction level as [ | level IH]; [done | ]. by cbn [indent cr_free]. Qed.

Lemma cr_free_newline level t : cr_free (newline level t) = cr_free t.
Proof. unfold newline. cbn [cr_free]. apply cr_free_indent. Qed.

Definition no_cr (v : json) : Prop :=
  forall level rest, cr_free (dump v level rest) = cr_free rest.

Lemma cr_free_elems level rest l :
  Forall no_cr l -> cr_free (dump_elems level rest l) = cr_free rest.
Proof.
  induction 1 as [ | x l Hx Hl IH]; [done | ].
  cbn [dump_elems]. rewrite cr_free_newline, Hx.
  destruct l; [by rewrite cr_free_newline | done].
Qed.

Lemma cr_free_members level rest d :
  Forall (fun kx => no_cr kx.2) d ->
  cr_free (dump_members level rest d) = cr_free rest.
Proof.
  induction 1 as [ | [k x] d Hx Hd IH]; [done | ].
  cbn [dump_members]. rewrite cr_free_newline, cr_free_dump_str.
  cbn [cr_free Ascii.eqb Bool.eqb negb andb]. cbn [snd] in Hx. rewrite Hx.
  destruct d; [by rewrite cr_free_newline | done].
Qed.

(** The text of a value holds no carriage return: those of its strings are
    escaped. *)
Lemma cr_free_dump v : no_cr v.
Proof.
  induction v as [ | b | n | s | l IH | d IH] using json_induction;
    intros level rest.
  - done.
  - by destruct b.
  - apply cr_free_pretty.
  - apply cr_free_dump_str.
  - destruct l as [ | x l]; [done | ]. rewrite dump_list. cbn [cr_free].
    by apply cr_free_elems.
  - destruct d as [ | kx d]; [done | ]. rewrite dump_dict. cbn [cr_free].
    by apply cr_free_members.
Qed.

Lemma storable_saves v :
  storable v = true ->
  utf8_encode (dumps v) = Some (dumps v) /\
  read_text (dumps v) = Some (dumps v) /\
  loads (dumps v) = Got v.
Proof.
  intros [Hkeys Hutf]%andb_true_iff.
  assert (Hvalid : utf8_valid (dumps v) = true) by (by apply utf8_dump).
  unfold read_text, utf8_encode, utf8_decode. rewrite Hvalid.
  rewrite universal_newlines_plain by (by unfold dumps; rewrite cr_free_dump).
  split_and!; [done | done | by apply loads_dumps].
Qed.

(** *** The decoder ends *)
















(** *** Only what can be encoded has a valid text *)















(** ** The checkpoint on disk *)



Section DiskFacts.
Context `{Clock} (self : crawler).






(** The store of documents is the disk seen through the decoder: what
    [load_resume_state] finds among the documents is what
    [load_resume_state_disk] decodes from the files. *)
Lemma load_agrees shortcode d w :
  agrees d w ->
  load_resume_state_disk self shortcode d
  = Got (load_resume_state self shortcode w).
Proof.
  intros [_ Hfiles]. specialize (Hfiles (resume_path self shortcode)).
  unfold load_resume_state_disk, load_resume_state.
  destruct Hfiles as [data f Hf | ]; [ | done].
  destruct f as [v | text]; cbn [holds] in Hf.
  - destruct Hf as (text & -> & ->). done.
  - unfold invalid in Hf.
    destruct (read_text data); [by rewrite Hf | done].
Qed.

(** Saving a checkpoint that can be stored does to the documents what it
    does to the files. *)
Lemma save_agrees shortcode post_info comments seen_ids cursor last_cursor
  page expected_count reason complete d w :
  agrees d w ->
  storable
    (JDict [("post", post_info);
            ("comment_count", JInt (Z.of_nat (length comments)));
            ("comments", JList comments);
            ("seen_comment_ids", py_list_of_set seen_ids);
            ("cursor", cursor);
            ("last_cursor", last_cursor);
            ("pages", page);
            ("expected_comment_count", expected_count);
            ("stop_reason", json_of_stop reason);
            ("complete", JBool complete);
            ("updated_at", JStr (iso_now (now d) +:+ "Z"))]) = true ->
  exists d1 w1,
    save_resume_state_disk self shortcode post_info (JList comments)
      seen_ids cursor last_cursor page expected_count reason complete d
    = (Ok (), d1) /\
    save_resume_state self shortcode post_info (JList comments) seen_ids
      cursor last_cursor page expected_count reason complete w
    = (Ok (), w1) /\
    agrees d1 w1.
Proof.
  intros [Hnow Hfiles] Hstate.
  destruct (storable_saves _ Hstate) as (Henc & Hdec & Hloads).
  unfold save_resume_state_disk, save_resume_state, write_text.
  cbn [py_len]. rewrite Henc. eexists _, _.
  split_and!; [reflexivity | reflexivity | ].
  split; [cbn; by rewrite Hnow | ].
  intros path. cbn [stored files write_file tick snd].
  destruct (decide (path = resume_path self shortcode)) as [-> | Hne].
  - rewrite !lookup_insert_eq. constructor. cbn [holds].
    rewrite <- Hnow. by eexists.
  - rewrite !lookup_insert_ne by done. apply Hfiles.
Qed.

(** Clearing the checkpoint does to the documents what it does to the
    files. *)
Lemma clear_agrees shortcode d w :
  agrees d w ->
  agrees (clear_resume_state_disk self shortcode d)
    (clear_resume_state self shortcode w).
Proof.
  intros [Hnow Hfiles].
  unfold clear_resume_state_disk, clear_resume_state, unlink.
  pose proof (Hfiles (resume_path self shortcode)) as Hfile.
  destruct Hfile as [data f Hf | ]; [ | by split].
  split; [done | ]. intros path. cbn [stored files].
  destruct (decide (path = resume_path self shortcode)) as [-> | Hne].
  - rewrite !lookup_delete_eq. constructor.
  - rewrite !lookup_delete_ne by done. apply Hfiles.
Qed.
End DiskFacts.



